(** * Spaced-retrieval scheduler and speech load model

    A shallow embedding of
      - cognitive_backend/src/qlearning_scheduler.py  (class QLearningScheduler)
      - cognitive_backend/src/speech_model.py         (class SpeechBiomarkerModel)
      - cognitive_backend/src/api.py                  (the /speech/analyze guard)
      - whoami_general/src/utils.py, model_speech_numpy.py

    Conventions of the embedding.
      - Python [int] is [Z]; Python [float] is an exact rational [Q]
        (rounding is not modelled; a float literal such as 0.3 is 3/10).
      - Python [str] is [string]; [dict] is stdpp's [gmap]; a NumPy array
        of floats is a finite map from index tuples to rows, with the
        shape kept next to it and NumPy's bounds check written out.
      - A method of a class is a computation in a state-and-exception
        monad over the object: it ends in [Ok v self'] or [Raise e self'],
        and in both cases carries the object as mutated so far.
      - The pseudo-random numbers a call consumes are an explicit argument. *)

From Stdlib Require Import ZArith QArith Qminmax Lqa Lia List Bool.
From stdpp Require Import base option list gmap strings.

Local Open Scope Z_scope.

(* ===================================================================== *)
(** ** Python and NumPy primitives                                        *)
(* ===================================================================== *)

Module Py.

(** The exceptions that occur. *)
Inductive exn := IndexError | KeyError | ValueError | LinAlgError.

(** [x < y] on floats. *)
Definition Qlt_bool (x y : Q) : bool := negb (Qle_bool y x).

(** Sequence indexing [l[i]] of Python and NumPy on an axis of length [n]:
    [0 <= i < n] is taken as it is, [-n <= i < 0] counts from the end,
    anything else raises IndexError (here [None]). *)
Definition axis_index (n i : Z) : option Z :=
  if (0 <=? i) && (i <? n) then Some i
  else if (- n <=? i) && (i <? 0) then Some (i + n)
  else None.

(** [l[i]] for a Python list. *)
Definition list_index {A} (l : list A) (i : Z) : option A :=
  j ← axis_index (Z.of_nat (length l)) i; l !! Z.to_nat j.

(** [np.argmax(row)]: the index of the first maximal entry. *)
Fixpoint argmax_from (i best_i : Z) (best : Q) (row : list Q) : Z :=
  match row with
  | [] => best_i
  | x :: row' =>
      if Qlt_bool best x then argmax_from (i + 1) i x row'
      else argmax_from (i + 1) best_i best row'
  end.

Definition np_argmax (row : list Q) : option Z :=
  match row with
  | [] => None
  | x :: row' => Some (argmax_from 1 0 x row')
  end.

(** [np.max(row)]. *)
Definition np_max (row : list Q) : option Q :=
  match row with
  | [] => None
  | x :: row' => Some (fold_left (fun m y => if Qlt_bool m y then y else m) row' x)
  end.

(** [np.clip(x, lo, hi)]. *)
Definition np_clip (x lo hi : Q) : Q :=
  if Qlt_bool x lo then lo else if Qlt_bool hi x then hi else x.

(** [i == s] for an [int] and a [str]: values of different types are never
    equal in Python. *)
Definition int_eq_str (i : Z) (s : string) : bool := false.

(** [i in [s1, ..., sn]] for an [int] and a list of [str]. *)
Definition int_in_strs (i : Z) (l : list string) : bool := existsb (int_eq_str i) l.

End Py.

(* ===================================================================== *)
(** ** cognitive_backend/src/qlearning_scheduler.py                       *)
(* ===================================================================== *)

Module QLearning.
Import Py.

(** A state tuple (difficulty, success_streak, latency_bin, load_band). *)
Abbreviation state := (Z * Z * Z * Z)%type (only parsing).

(** The 5-dimensional array [q_table]: its first four axes index a row of
    [n_actions] values. *)
Record ndarray := {
  nd_shape : Z * Z * Z * Z;
  nd_rows : gmap (Z * Z * Z * Z) (list Q)
}.

(** All index tuples of a shape, in row-major order. *)
Definition indices (shape : Z * Z * Z * Z) : list (Z * Z * Z * Z) :=
  let '(n0, n1, n2, n3) := shape in
  i0 ← seqZ 0 n0; i1 ← seqZ 0 n1; i2 ← seqZ 0 n2; i3 ← seqZ 0 n3;
  [(i0, i1, i2, i3)].

(** [np.zeros(shape + (n,))]; a negative dimension raises ValueError. *)
Definition np_zeros (shape : Z * Z * Z * Z) (n : Z) : option ndarray :=
  let '(n0, n1, n2, n3) := shape in
  if (0 <=? n0) && (0 <=? n1) && (0 <=? n2) && (0 <=? n3) && (0 <=? n) then
    Some {| nd_shape := shape;
            nd_rows := list_to_map
                         ((fun i => (i, replicate (Z.to_nat n) 0%Q)) <$> indices shape) |}
  else None.

(** The tuple index with every axis bounds-checked. *)
Definition nd_key (a : ndarray) (idx : Z * Z * Z * Z) : option (Z * Z * Z * Z) :=
  let '(n0, n1, n2, n3) := nd_shape a in
  let '(i0, i1, i2, i3) := idx in
  j0 ← axis_index n0 i0; j1 ← axis_index n1 i1;
  j2 ← axis_index n2 i2; j3 ← axis_index n3 i3;
  Some (j0, j1, j2, j3).

(** [a[idx]]: the row of action values of a state index. *)
Definition nd_row (a : ndarray) (idx : Z * Z * Z * Z) : option (list Q) :=
  k ← nd_key a idx; nd_rows a !! k.

(** [a[idx + (action,)]]. *)
Definition nd_get (a : ndarray) (idx : Z * Z * Z * Z) (action : Z) : option Q :=
  row ← nd_row a idx; list_index row action.

(** [a[idx + (action,)] = v]. *)
Definition nd_set (a : ndarray) (idx : Z * Z * Z * Z) (action : Z) (v : Q)
  : option ndarray :=
  k ← nd_key a idx;
  row ← nd_rows a !! k;
  j ← axis_index (Z.of_nat (length row)) action;
  Some {| nd_shape := nd_shape a;
          nd_rows := <[k := <[Z.to_nat j := v]> row]> (nd_rows a) |}.

(** One entry of [item_sessions[item_id]]. *)
Record session_data := {
  sd_correct : bool;
  sd_latency_sec : Q;
  sd_reward : Q;
  sd_old_state : state;
  sd_new_state : state
}.

(** The attributes of a [QLearningScheduler] object. *)
Record scheduler := {
  learning_rate : Q;
  discount_factor : Q;
  epsilon : Q;
  max_streak : Z;
  max_latency_bin : Z;
  max_load_bin : Z;
  state_dims : Z * Z * Z * Z;
  actions : list Z;
  n_actions : Z;
  q_table : ndarray;
  item_states : gmap Z state;
  item_sessions : gmap Z (list session_data)
}.

Definition set_q_table (q : ndarray) (s : scheduler) : scheduler :=
  {| learning_rate := learning_rate s; discount_factor := discount_factor s;
     epsilon := epsilon s; max_streak := max_streak s;
     max_latency_bin := max_latency_bin s; max_load_bin := max_load_bin s;
     state_dims := state_dims s; actions := actions s; n_actions := n_actions s;
     q_table := q; item_states := item_states s; item_sessions := item_sessions s |}.

Definition set_item_states (m : gmap Z state) (s : scheduler) : scheduler :=
  {| learning_rate := learning_rate s; discount_factor := discount_factor s;
     epsilon := epsilon s; max_streak := max_streak s;
     max_latency_bin := max_latency_bin s; max_load_bin := max_load_bin s;
     state_dims := state_dims s; actions := actions s; n_actions := n_actions s;
     q_table := q_table s; item_states := m; item_sessions := item_sessions s |}.

Definition set_item_sessions (m : gmap Z (list session_data)) (s : scheduler)
  : scheduler :=
  {| learning_rate := learning_rate s; discount_factor := discount_factor s;
     epsilon := epsilon s; max_streak := max_streak s;
     max_latency_bin := max_latency_bin s; max_load_bin := max_load_bin s;
     state_dims := state_dims s; actions := actions s; n_actions := n_actions s;
     q_table := q_table s; item_states := item_states s; item_sessions := m |}.

(** *** Methods as computations over the object *)

Inductive outcome (A : Type) :=
  | Ok (a : A) (s : scheduler)
  | Raise (e : exn) (s : scheduler).
Arguments Ok {A} a s.
Arguments Raise {A} e s.

Definition M (A : Type) : Type := scheduler -> outcome A.

Definition ret {A} (a : A) : M A := fun s => Ok a s.

Definition bind {A B} (m : M A) (k : A -> M B) : M B :=
  fun s => match m s with
           | Ok a s' => k a s'
           | Raise e s' => Raise e s'
           end.

Definition raise {A} (e : exn) : M A := fun s => Raise e s.

(** Read an attribute of [self]. *)
Definition self_ {A} (f : scheduler -> A) : M A := fun s => Ok (f s) s.

(** Assign to attributes of [self]. *)
Definition assign (f : scheduler -> scheduler) : M unit := fun s => Ok tt (f s).

(** An operation that raises [e] where the model has [None]. *)
Definition or_raise {A} (e : exn) (o : option A) : M A :=
  match o with Some a => ret a | None => raise e end.

Declare Scope py_scope.
Delimit Scope py_scope with py.
Notation "x <- m ;; k" := (bind m (fun x => k))
  (at level 100, m at next level, right associativity) : py_scope.
Notation "m ;; k" := (bind m (fun _ => k))
  (at level 100, right associativity) : py_scope.
Local Open Scope py_scope.

(** The state of the object when the call ends, returning or raising. *)
Definition final {A} (o : outcome A) : scheduler :=
  match o with Ok _ s => s | Raise _ s => s end.

(** The pseudo-random numbers one call of [choose_action] may consume:
    the value of [np.random.random()] and of
    [np.random.randint(0, n_actions)]. *)
Record draw := { rnd_random : Q; rnd_randint : Z }.

(** [__init__]. *)
Definition init (learning_rate discount_factor epsilon : Q)
    (max_streak max_latency_bin max_load_bin : Z) : option scheduler :=
  let state_dims := (3, max_streak + 1, max_latency_bin + 1, max_load_bin + 1) in
  let actions := [30; 60; 120; 240] in
  let n_actions := Z.of_nat (length actions) in
  q ← np_zeros state_dims n_actions;
  Some {| learning_rate := learning_rate; discount_factor := discount_factor;
          epsilon := epsilon; max_streak := max_streak;
          max_latency_bin := max_latency_bin; max_load_bin := max_load_bin;
          state_dims := state_dims; actions := actions; n_actions := n_actions;
          q_table := q; item_states := ∅; item_sessions := ∅ |}.

(** [QLearningScheduler()] with the default arguments. *)
Definition default_scheduler : option scheduler := init 0.1 0.9 0.1 3 2 2.

Definition get_state_index (s : scheduler) (st : state) : Z * Z * Z * Z :=
  let '(difficulty, success_streak, latency_bin, load_band) := st in
  let difficulty_idx := Z.min (difficulty - 1) 2 in
  let streak_idx := Z.min success_streak (max_streak s) in
  let latency_idx := Z.min latency_bin (max_latency_bin s) in
  let load_idx := Z.min (load_band - 1) (max_load_bin s) in
  (difficulty_idx, streak_idx, latency_idx, load_idx).

Definition get_latency_bin (latency_sec : Q) : Z :=
  if Qle_bool latency_sec 2.0 then 0
  else if Qle_bool latency_sec 5.0 then 1
  else 2.

(** [band_map.get(load_band, 2)]. *)
Definition get_load_band_index (load_band : string) : Z :=
  if String.eqb load_band "low" then 1
  else if String.eqb load_band "moderate" then 2
  else if String.eqb load_band "high" then 3
  else 2.

(** [choose_action]. The [load_band] unpacked from [state] is the integer
    stored by [get_load_band_index]; the two safety tests compare it with
    strings. *)
Definition choose_action (st : state) (item_id : Z) (force_exploit : bool)
    (rnd : draw) : M Z :=
  state_idx <- self_ (fun s => get_state_index s st);;
  eps <- self_ epsilon;;
  action <-
    (if negb force_exploit && Qlt_bool (rnd_random rnd) eps then
       ret (rnd_randint rnd)
     else
       q <- self_ q_table;;
       row <- or_raise IndexError (nd_row q state_idx);;
       or_raise ValueError (np_argmax row));;
  let '(difficulty, success_streak, latency_bin, load_band) := st in
  let action :=
    if (3 <=? difficulty) || int_eq_str load_band "high"
    then Z.min action 2 else action in
  let action :=
    if (difficulty =? 1) && (2 <=? success_streak)
       && int_in_strs load_band ["low"; "moderate"]
    then Z.max action 1 else action in
  ret action.

Definition calculate_reward (correct : bool) (latency_sec : Q)
    (difficulty : Z) (load_band : string) : Q :=
  if correct then
    let reward := 1.0%Q in
    let reward :=
      if Qle_bool latency_sec 2.0 then (reward + 0.5)%Q
      else if Qle_bool latency_sec 5.0 then (reward + 0.3)%Q
      else if Qle_bool latency_sec 10.0 then (reward + 0.1)%Q
      else reward in
    let reward := if 3 <=? difficulty then (reward + 0.2)%Q else reward in
    let reward := if String.eqb load_band "high" then (reward + 0.2)%Q else reward in
    reward
  else
    let reward := (- 0.5)%Q in
    let reward := if difficulty =? 1 then (reward - 0.3)%Q else reward in
    reward.

Definition update_q_value (st : state) (action : Z) (reward : Q)
    (next_state : state) : M unit :=
  state_idx <- self_ (fun s => get_state_index s st);;
  next_state_idx <- self_ (fun s => get_state_index s next_state);;
  q <- self_ q_table;;
  current_q <- or_raise IndexError (nd_get q state_idx action);;
  next_row <- or_raise IndexError (nd_row q next_state_idx);;
  max_next_q <- or_raise ValueError (np_max next_row);;
  lr <- self_ learning_rate;;
  df <- self_ discount_factor;;
  let new_q := (current_q + lr * (reward + df * max_next_q - current_q))%Q in
  q' <- or_raise IndexError (nd_set q state_idx action new_q);;
  assign (set_q_table q').

Definition get_next_interval (item_id : Z) (difficulty : Z) (load_band : string)
    (force_exploit : bool) (rnd : draw) : M Z :=
  states <- self_ item_states;;
  st <-
    match states !! item_id with
    | None =>
        let st := (difficulty, 0, 1, get_load_band_index load_band) in
        assign (fun s => set_item_states (<[item_id := st]> (item_states s)) s);;
        assign (fun s => set_item_sessions (<[item_id := []]> (item_sessions s)) s);;
        ret st
    | Some st => ret st
    end;;
  action <- choose_action st item_id force_exploit rnd;;
  acts <- self_ actions;;
  interval <- or_raise IndexError (list_index acts action);;
  ret interval.

Definition record_result (item_id : Z) (correct : bool) (latency_sec : Q)
    (difficulty : Z) (load_band : string) : M unit :=
  states <- self_ item_states;;
  match states !! item_id with
  | None => ret tt
  | Some current_state =>
      let '(difficulty, success_streak, latency_bin, load_band_idx) := current_state in
      let reward := calculate_reward correct latency_sec difficulty load_band in
      ms <- self_ max_streak;;
      let new_streak := if correct then Z.min (success_streak + 1) ms else 0 in
      let new_latency_bin := get_latency_bin latency_sec in
      let new_state :=
        (difficulty, new_streak, new_latency_bin, get_load_band_index load_band) in
      let action := 0 in
      update_q_value current_state action reward new_state;;
      assign (fun s => set_item_states (<[item_id := new_state]> (item_states s)) s);;
      let session :=
        {| sd_correct := correct; sd_latency_sec := latency_sec;
           sd_reward := reward; sd_old_state := current_state;
           sd_new_state := new_state |} in
      sessions <- self_ item_sessions;;
      log <- or_raise KeyError (sessions !! item_id);;
      assign (fun s => set_item_sessions (<[item_id := log ++ [session]]> (item_sessions s)) s)
  end.

(** *** Histories of calls

    A caller drives the object through a sequence of method calls; whether
    a call returns or raises, the object stays as the call left it. *)

Inductive op :=
  | GetNextInterval (item_id difficulty : Z) (load_band : string)
      (force_exploit : bool) (rnd : draw)
  | RecordResult (item_id : Z) (correct : bool) (latency_sec : Q)
      (difficulty : Z) (load_band : string).

Definition run_op (s : scheduler) (o : op) : scheduler :=
  match o with
  | GetNextInterval item_id difficulty load_band force_exploit rnd =>
      final (get_next_interval item_id difficulty load_band force_exploit rnd s)
  | RecordResult item_id correct latency_sec difficulty load_band =>
      final (record_result item_id correct latency_sec difficulty load_band s)
  end.

Definition run (s : scheduler) (ops : list op) : scheduler := fold_left run_op ops s.

(** The call passes a difficulty in {1,2,3} (only [get_next_interval] uses it). *)
Definition valid_op (o : op) : Prop :=
  match o with
  | GetNextInterval _ difficulty _ _ _ => 1 <= difficulty <= 3
  | RecordResult _ _ _ _ _ => True
  end.

(** The call is a [get_next_interval] for [item_id]. *)
Definition schedules (item_id : Z) (o : op) : Prop :=
  match o with
  | GetNextInterval i _ _ _ _ => i = item_id
  | RecordResult _ _ _ _ _ => False
  end.

(** [rnd_randint] is a value [np.random.randint(0, n_actions)] can return
    ([n_actions] is 4 in every object). *)
Definition valid_draw (rnd : draw) : Prop := 0 <= rnd_randint rnd < 4.

(** The value a call returns, if it returns. *)
Definition returned {A} (o : outcome A) : option A :=
  match o with Ok a _ => Some a | Raise _ _ => None end.

(** A stored state tuple whose components are not below the first bucket. *)
Definition valid_state (st : state) : Prop :=
  let '(difficulty, success_streak, latency_bin, load_band) := st in
  1 <= difficulty /\ 0 <= success_streak /\ 0 <= latency_bin /\ 1 <= load_band.

(** The storage cell [a] of row [k] of the table. *)
Definition entry (q : ndarray) (k : Z * Z * Z * Z) (a : nat) : option Q :=
  row ← nd_rows q !! k; row !! a.

(** The object as [__init__] builds it and the methods keep it. *)
Record wf (s : scheduler) : Prop := {
  wf_max_streak : 0 <= max_streak s;
  wf_max_latency_bin : 0 <= max_latency_bin s;
  wf_max_load_bin : 0 <= max_load_bin s;
  wf_actions : actions s = [30; 60; 120; 240];
  wf_n_actions : n_actions s = 4;
  wf_shape :
    nd_shape (q_table s)
    = (3, max_streak s + 1, max_latency_bin s + 1, max_load_bin s + 1);
  wf_rows : forall k,
    k ∈ indices (nd_shape (q_table s)) ->
    exists row, nd_rows (q_table s) !! k = Some row /\ length row = 4%nat;
  wf_states : forall item_id st,
    item_states s !! item_id = Some st -> valid_state st;
  wf_sessions : forall item_id,
    is_Some (item_states s !! item_id) -> is_Some (item_sessions s !! item_id)
}.

(** The object after the lazy creation step of [get_next_interval]. *)
Definition scheduled (item_id difficulty : Z) (load_band : string)
    (s : scheduler) : scheduler :=
  match item_states s !! item_id with
  | Some _ => s
  | None =>
      let s1 :=
        set_item_states
          (<[item_id := (difficulty, 0, 1, get_load_band_index load_band)]>
             (item_states s)) s in
      set_item_sessions (<[item_id := []]> (item_sessions s1)) s1
  end.

(** The one-step target Q(s,a) + alpha * (r + gamma * max - Q(s,a)). *)
Definition td_target (alpha gamma q0 r mx : Q) : Q :=
  (q0 + alpha * (r + gamma * mx - q0))%Q.

(** The successor of a stored state after an outcome. *)
Definition next_state_of (s : scheduler) (st : state) (correct : bool)
    (latency_sec : Q) (load_band : string) : state :=
  let '(difficulty, success_streak, _, _) := st in
  (difficulty,
   if correct then Z.min (success_streak + 1) (max_streak s) else 0,
   get_latency_bin latency_sec,
   get_load_band_index load_band).

(** The session entry [record_result] appends for a stored state. *)
Definition session_of (s : scheduler) (st : state) (correct : bool)
    (latency_sec : Q) (load_band : string) : session_data :=
  {| sd_correct := correct; sd_latency_sec := latency_sec;
     sd_reward := calculate_reward correct latency_sec (st.1.1.1) load_band;
     sd_old_state := st;
     sd_new_state := next_state_of s st correct latency_sec load_band |}.

(** The table with the value [v] written at cell [j] of row [k]. *)
Definition write_cell (q : ndarray) (k : Z * Z * Z * Z) (j : nat) (row : list Q)
    (v : Q) : ndarray :=
  {| nd_shape := nd_shape q; nd_rows := <[k := <[j := v]> row]> (nd_rows q) |}.

(** Every stored value of the table lies in [[-b, b]]. *)
Definition bounded (b : Q) (q : ndarray) : Prop :=
  forall k row x, nd_rows q !! k = Some row -> x ∈ row -> (- b <= x /\ x <= b)%Q.

End QLearning.

(* ===================================================================== *)
(** ** NumPy linear algebra on lists of rows                              *)
(* ===================================================================== *)

Module LinAlg.

(** A 2-D array as the list of its rows. The number of columns is passed
    where an array without rows would not show it. *)
Abbreviation matrix := (list (list Q)).

Definition dot (u v : list Q) : Q := foldr Qplus 0%Q (zip_with Qmult u v).

(** [u @ v] for two 1-D arrays; shapes that differ raise ValueError. *)
Definition vec_matmul (u v : list Q) : option Q :=
  if (length u =? length v)%nat then Some (dot u v) else None.

Definition col (j : nat) (m : matrix) : list Q :=
  (fun r => default 0%Q (r !! j)) <$> m.

(** [m.T] for [m] with [ncols] columns. *)
Definition transpose (ncols : nat) (m : matrix) : matrix :=
  (fun j => col j m) <$> seq 0 ncols.

(** [a @ b] for [b] with [ncols] columns. *)
Definition mat_mul (ncols : nat) (a b : matrix) : matrix :=
  (fun r => (fun j => dot r (col j b)) <$> seq 0 ncols) <$> a.

(** [a @ v] for a 2-D [a] and a 1-D [v]. *)
Definition mat_vec (a : matrix) (v : list Q) : list Q := (fun r => dot r v) <$> a.

Definition mat_add (a b : matrix) : matrix := zip_with (zip_with Qplus) a b.

Definition mat_scale (c : Q) (a : matrix) : matrix :=
  (fun r : list Q => Qmult c <$> r) <$> a.

(** [np.eye(n)]. *)
Definition eye (n : nat) : matrix :=
  (fun i => (fun j => if (i =? j)%nat then 1%Q else 0%Q) <$> seq 0 n) <$> seq 0 n.

(** [np.ones(n)]. *)
Definition ones (n : nat) : list Q := replicate n 1%Q.

(** [np.column_stack([c, x])] for a 1-D [c] and a 2-D [x]. *)
Definition column_stack (c : list Q) (x : matrix) : matrix := zip_with cons c x.

(** [m[i, j] = v]. *)
Definition mat_set (m : matrix) (i j : nat) (v : Q) : matrix :=
  match m !! i with
  | Some r => <[i := <[j := v]> r]> m
  | None => m
  end.

(** The columns [cols] of a DataFrame, given as its list of records:
    [df[cols].values]. [None] is the KeyError of a column the table does
    not have. The reading is exact for a table that is not empty and in
    which every record has every column of [cols]; a table in which only
    some records lack a key holds NaN there in pandas and is outside this
    model, and the statements below exclude it by hypothesis. *)
Definition df_values (df : list (gmap string Q)) (cols : list string)
  : option matrix :=
  mapM (fun row => mapM (fun c => row !! c) cols) df.

(** [df[c].values], read as [df_values] is. *)
Definition df_column (df : list (gmap string Q)) (c : string) : option (list Q) :=
  mapM (fun row => row !! c) df.

(** *** An exact inverse by Gauss-Jordan elimination

    [np.linalg.inv] is NumPy's and is a parameter of the fitting
    functions below; this is the instance used to evaluate them. *)

Fixpoint find_pivot (j : nat) (rows : matrix) : option (list Q * matrix) :=
  match rows with
  | [] => None
  | r :: rest =>
      if Qeq_bool (default 0%Q (r !! j)) 0 then
        '(p, others) ← find_pivot j rest; Some (p, r :: others)
      else Some (r, rest)
  end.

Fixpoint eliminate (cols : list nat) (done todo : matrix) : option matrix :=
  match cols with
  | [] => Some done
  | j :: cols' =>
      '(p, rest) ← find_pivot j todo;
      let p' := (fun x => Qred (x / default 0%Q (p !! j))) <$> p in
      let clear r :=
        zip_with (fun x y => Qred (x - default 0%Q (r !! j) * y)) r p' in
      eliminate cols' ((clear <$> done) ++ [p']) (clear <$> rest)
  end.

Definition gauss_jordan_inv (a : matrix) : option matrix :=
  let n := length a in
  match eliminate (seq 0 n) [] (zip_with app a (eye n)) with
  | Some rows => Some (drop n <$> rows)
  | None => None
  end.

End LinAlg.

(* ===================================================================== *)
(** ** cognitive_backend/src/speech_model.py                              *)
(* ===================================================================== *)

Module Speech.
Import Py LinAlg.

Inductive result (A : Type) :=
  | Ok (a : A)
  | Err (e : exn).
Arguments Ok {A} a.
Arguments Err {A} e.

(** The attributes of a [SpeechBiomarkerModel] object. *)
Record model := {
  lambda_reg : Q;
  coefficients : option (list Q);
  feature_names : list string
}.

(** [__init__]. *)
Definition init (lambda_reg : Q) : model :=
  {| lambda_reg := lambda_reg;
     coefficients := None;
     feature_names := ["wpm"; "pause_rate"; "ttr"; "jitter"; "articulation_rate"] |}.

Definition prepare_features (m : model) (df : list (gmap string Q))
  : result (matrix * list Q) :=
  match df_values df (feature_names m), df_column df "cognitive_load" with
  | Some x, Some y =>
      let x_with_bias := column_stack (ones (length x)) x in
      Ok (x_with_bias, y)
  | _, _ => Err KeyError
  end.

(** [train]: the object after the call. The metrics the method returns
    (mse, r2) are computed after [coefficients] is assigned and are not
    part of the model. *)
Definition train (linalg_inv : matrix -> option matrix) (m : model)
    (df : list (gmap string Q)) : result model :=
  match prepare_features m df with
  | Err e => Err e
  | Ok (x, y) =>
      let ncols := S (length (feature_names m)) in
      let xt := transpose ncols x in
      let xtx := mat_mul ncols xt x in
      let xtx_reg := mat_add xtx (mat_scale (lambda_reg m) (eye (length xtx))) in
      match linalg_inv xtx_reg with
      | None => Err LinAlgError
      | Some xtx_inv =>
          Ok {| lambda_reg := lambda_reg m;
                coefficients := Some (mat_vec (mat_mul (length x) xtx_inv xt) y);
                feature_names := feature_names m |}
      end
  end.

(** [features.get(name, 0)]. *)
Definition get_feature (features : gmap string Q) (name : string) : Q :=
  default 0%Q (features !! name).

Definition feature_vector (features : gmap string Q) : list Q :=
  [ 1.0%Q;
    get_feature features "wpm";
    get_feature features "pause_rate";
    get_feature features "ttr";
    get_feature features "jitter";
    get_feature features "articulation_rate" ].

Definition predict_load_band (m : model) (features : gmap string Q)
  : result string :=
  match coefficients m with
  | None => Err ValueError
  | Some coefficients =>
      match vec_matmul (feature_vector features) coefficients with
      | None => Err ValueError
      | Some predicted_load =>
          if Qle_bool predicted_load 1.5 then Ok "low"
          else if Qle_bool predicted_load 2.5 then Ok "moderate"
          else Ok "high"
      end
  end.


End Speech.

(* ===================================================================== *)
(** ** cognitive_backend/src/api.py: /speech/analyze                      *)
(* ===================================================================== *)

Module Api.
Import Py.

Inductive response :=
  | Resp200 (cognitive_load_band : string)
  | Resp400 (missing : list string)
  | Resp500 (e : exn).

Definition required_features : list string :=
  ["wpm"; "pause_rate"; "ttr"; "jitter"; "articulation_rate"].

(** [[f for f in required_features if f not in features]]. *)
Definition missing_features (features : gmap string Q) : list string :=
  filter (fun f => features !! f = None) required_features.

(** The handler from [features = data['features']] on. *)
Definition analyze_speech (speech_model : Speech.model) (features : gmap string Q)
  : response :=
  match missing_features features with
  | (_ :: _) as missing => Resp400 missing
  | [] =>
      match Speech.predict_load_band speech_model features with
      | Speech.Ok load_band => Resp200 load_band
      | Speech.Err e => Resp500 e
      end
  end.

End Api.

(* ===================================================================== *)
(** ** whoami_general/src/utils.py and model_speech_numpy.py              *)
(* ===================================================================== *)

Module WhoAmI.
Import Py LinAlg.

Definition band_from_score (x : Q) : string :=
  if Qlt_bool x 1.5 then "low"
  else if Qlt_bool x 3.0 then "moderate"
  else "high".

(** The attributes of a [SpeechLoadModel] object ([cols] is only a label
    list for [coef]). *)
Record model := {
  lam : Q;
  beta : option (list Q)
}.

Definition init (lam : Q) : model := {| lam := lam; beta := None |}.

Definition columns : list string := ["wpm"; "pause_rate"; "ttr"; "jitter"; "artic_rate"].

(** [fit]: the object after the call ([None] for KeyError or LinAlgError). *)
Definition fit (linalg_inv : matrix -> option matrix) (m : model)
    (df : list (gmap string Q)) : option model :=
  x ← df_values df columns;
  y ← df_column df "cog_load_true";
  let n := length x in
  let x_ := column_stack (ones n) x in
  let ncols := S (length columns) in
  let i := mat_set (eye ncols) 0 0 0%Q in
  let xt := transpose ncols x_ in
  a_inv ← linalg_inv (mat_add (mat_mul ncols xt x_) (mat_scale (lam m) i));
  Some {| lam := lam m; beta := Some (mat_vec (mat_mul n a_inv xt) y) |}.

(** [predict]. *)
Definition predict (m : model) (df : list (gmap string Q)) : option (list Q) :=
  x ← df_values df columns;
  b ← beta m;
  let n := length x in
  let x_ := column_stack (ones n) x in
  yhat ← mapM (fun r => vec_matmul r b) x_;
  Some ((fun v => np_clip v 0 5) <$> yhat).

Definition band (m : model) (score : Q) : string := band_from_score score.

(** [speech["cog_load_pred"].apply(band_from_score)] in [main]. *)
Definition predicted_bands (m : model) (df : list (gmap string Q))
  : option (list string) :=
  match predict m df with
  | Some scores => Some (band_from_score <$> scores)
  | None => None
  end.

End WhoAmI.

(* ===================================================================== *)
(** ** The specification's formulas                                       *)
(* ===================================================================== *)

Module Spec.
Import Py LinAlg.

(** "the design matrix with a prepended bias column of ones". *)
Definition design_matrix (x : matrix) : matrix := cons 1%Q <$> x.



(** "y <= 1.5 -> low; 1.5 < y <= 2.5 -> moderate; else -> high". *)
Definition band_of (yhat : Q) : string :=
  if Qle_bool yhat 1.5 then "low"
  else if Qlt_bool 1.5 yhat && Qle_bool yhat 2.5 then "moderate"
  else "high".

(** "compute y = beta . [1, features], clip to [0, 5], and map to a band". *)
Definition predict_band (beta features : list Q) : option string :=
  yhat ← vec_matmul (1%Q :: features) beta;
  Some (band_of (np_clip yhat 0 5)).

End Spec.

(* ===================================================================== *)
(** ** Concrete inputs                                                    *)
(* ===================================================================== *)

Module Inputs.
Import LinAlg.

(** A trained [SpeechBiomarkerModel]. *)
Definition trained_model : Speech.model :=
  {| Speech.lambda_reg := 0.01;
     Speech.coefficients := Some [1.0; 0.01; 0.5; 0.2; 3.0; 0.1]%Q;
     Speech.feature_names :=
       ["wpm"; "pause_rate"; "ttr"; "jitter"; "articulation_rate"] |}.

(** A feature dict without the key "jitter". *)
Definition features_without_jitter : gmap string Q :=
  {[ "wpm" := 120.0%Q; "pause_rate" := 0.2%Q; "ttr" := 0.6%Q;
     "articulation_rate" := 4.0%Q ]}.

(** A [SpeechLoadModel] whose prediction is 1.5 for every input. *)
Definition constant_model : WhoAmI.model :=
  {| WhoAmI.lam := 0.01; WhoAmI.beta := Some [1.5; 0; 0; 0; 0; 0]%Q |}.

Definition speech_row : gmap string Q :=
  {[ "wpm" := 120.0%Q; "pause_rate" := 0.2%Q; "ttr" := 0.6%Q;
     "jitter" := 0.01%Q; "artic_rate" := 4.0%Q ]}.

(** A training table with one sample, under the column names of both
    fitting functions. *)
Definition one_sample : list (gmap string Q) :=
  [ {[ "wpm" := 0%Q; "pause_rate" := 0%Q; "ttr" := 0%Q; "jitter" := 0%Q;
       "articulation_rate" := 0%Q; "artic_rate" := 0%Q;
       "cognitive_load" := 1%Q; "cog_load_true" := 1%Q ]} ].

(** Entries in lowest terms, to compare results of exact arithmetic. *)
Definition reduced (v : list Q) : list Q := Qred <$> v.


End Inputs.

(* ===================================================================== *)
(** ** qlearning_scheduler.py: statistics; api.py: scheduler endpoints    *)
(* ===================================================================== *)

Module QLearningStats.
Import Py QLearning.
Local Open Scope py_scope.

(** The dict [get_item_statistics] returns when it is not empty. *)
Record item_statistics := {
  total_sessions : Z;
  accuracy : Q;
  avg_latency : Q;
  avg_reward : Q;
  current_streak : Z
}.

(** [np.mean(l)] for a list that is not empty, as the exact mean (NumPy's
    rounded result can leave the range of the values by one unit in the
    last place; no statement below bounds it). *)
Definition np_mean (l : list Q) : Q :=
  (foldr Qplus 0 l / inject_Z (Z.of_nat (length l)))%Q.

(** [sum(1 for s in sessions if s['correct'])]. *)
Definition count_correct (sessions : list session_data) : Z :=
  foldr (fun s n => if sd_correct s then 1 + n else n) 0 sessions.

(** [get_item_statistics]; the empty dict is [None]. *)
Definition get_item_statistics (item_id : Z) : M (option item_statistics) :=
  all_sessions <- self_ item_sessions;;
  match all_sessions !! item_id with
  | None => ret None
  | Some [] => ret None
  | Some ((_ :: _) as sessions) =>
      let total_sessions := Z.of_nat (length sessions) in
      let correct_sessions := count_correct sessions in
      let accuracy := (inject_Z correct_sessions / inject_Z total_sessions)%Q in
      let avg_latency := np_mean (sd_latency_sec <$> sessions) in
      let avg_reward := np_mean (sd_reward <$> sessions) in
      states <- self_ item_states;;
      st <- or_raise KeyError (states !! item_id);;
      ret (Some {| total_sessions := total_sessions; accuracy := accuracy;
                   avg_latency := avg_latency; avg_reward := avg_reward;
                   current_streak := st.1.1.2 |})
  end.

(** The answers of the two scheduler endpoints of api.py that report
    statistics, from the field check on. *)
Inductive response :=
  | Resp200 (statistics : option item_statistics)
  | Resp404
  | Resp500 (e : exn).

(** GET /scheduler/item_stats/<item_id>. *)
Definition item_stats_endpoint (item_id : Z) (s : scheduler)
  : response * scheduler :=
  match get_item_statistics item_id s with
  | Ok None s' => (Resp404, s')
  | Ok (Some stats) s' => (Resp200 (Some stats), s')
  | Raise e s' => (Resp500 e, s')
  end.

(** POST /scheduler/record_result. *)
Definition record_result_endpoint (item_id : Z) (correct : bool)
    (latency_sec : Q) (difficulty : Z) (load_band : string) (s : scheduler)
  : response * scheduler :=
  match (record_result item_id correct latency_sec difficulty load_band;;
         get_item_statistics item_id) s with
  | Ok stats s' => (Resp200 stats, s')
  | Raise e s' => (Resp500 e, s')
  end.

(** The number of correct answers at the end of a session log. *)
Definition trailing_correct (log : list session_data) : Z :=
  fold_left (fun n s => if sd_correct s then n + 1 else 0) log 0.

(** A session log that leads from the state [start] to the state [finish],
    each entry starting where the one before ended. *)
Fixpoint chain (start : state) (log : list session_data) (finish : state) : Prop :=
  match log with
  | [] => start = finish
  | sd :: log' => sd_old_state sd = start /\ chain (sd_new_state sd) log' finish
  end.

(** An entry that [record_result] can have written: reward and new state
    are those of its old state, outcome and latency, for some band label. *)
Definition faithful (s : scheduler) (sd : session_data) : Prop :=
  exists load_band,
    sd = session_of s (sd_old_state sd) (sd_correct sd) (sd_latency_sec sd) load_band.

(** What the state map and the session logs of an object have in common:
    every item with a state has a log; the log leads from the state the
    item was created with to its present state, by entries [record_result]
    can have written; the streak counts the correct answers at the end of
    the log, up to [max_streak]; the state is in the range of the table. *)
Definition log_invariant (s : scheduler) : Prop :=
  forall item_id st,
    item_states s !! item_id = Some st ->
    exists log b0,
      item_sessions s !! item_id = Some log
      /\ chain (st.1.1.1, 0, 1, b0) log st
      /\ Forall (faithful s) log
      /\ st.1.1.2 = Z.min (trailing_correct log) (max_streak s)
      /\ 0 <= st.1.2 <= 2
      /\ 1 <= st.2 <= 3.

(** Only the first value of a row of the table can differ from zero. *)
Definition only_action_0 (t : ndarray) : Prop :=
  forall k row a x, nd_rows t !! k = Some row -> row !! S a = Some x -> x = 0%Q.

(** The call is a [record_result] for [item_id]. *)
Definition records (item_id : Z) (o : op) : Prop :=
  match o with
  | GetNextInterval _ _ _ _ _ => False
  | RecordResult i _ _ _ _ => i = item_id
  end.

End QLearningStats.

(* ===================================================================== *)
(** ** speech_model.py: predict_batch                                     *)
(* ===================================================================== *)

Module SpeechBatch.
Import Py Speech.

(** [[self.predict_load_band(features) for features in features_list]]:
    the first call that raises ends the comprehension. *)
Fixpoint predict_batch (m : model) (features_list : list (gmap string Q))
  : result (list string) :=
  match features_list with
  | [] => Ok []
  | features :: rest =>
      match predict_load_band m features with
      | Err e => Err e
      | Ok band =>
          match predict_batch m rest with
          | Err e => Err e
          | Ok bands => Ok (band :: bands)
          end
      end
  end.

End SpeechBatch.

(* ===================================================================== *)
(** ** whoami_general: utils.py, scheduler_qlearning_numpy.py and the     *)
(** ** learning step of train_and_simulate.py                             *)
(* ===================================================================== *)

Module WhoAmIScheduler.
Import Py QLearning.

(** [{"low":0, "moderate":1, "high":2}[lbl]]; another label raises
    KeyError. *)
Definition band_id (lbl : string) : option Z :=
  if String.eqb lbl "low" then Some 0
  else if String.eqb lbl "moderate" then Some 1
  else if String.eqb lbl "high" then Some 2
  else None.

Definition latency_bin (lat : Q) : Z :=
  if Qlt_bool lat 3 then 0
  else if Qlt_bool lat 6 then 1
  else 2.

(** The attributes of an [SRSchedulerQL] object. *)
Record sr_scheduler := {
  alpha : Q;
  gamma : Q;
  eps : Q;
  intervals : list Z;
  n_act : Z;
  q : ndarray
}.

(** [np.zeros(shape + (n,))] for dimensions that are not negative. *)
Definition zeros (shape : Z * Z * Z * Z) (n : nat) : ndarray :=
  {| nd_shape := shape;
     nd_rows := list_to_map ((fun i => (i, replicate n 0%Q)) <$> indices shape) |}.

(** [__init__]. *)
Definition init (alpha gamma eps : Q) : sr_scheduler :=
  {| alpha := alpha; gamma := gamma; eps := eps;
     intervals := [30; 60; 120; 240];
     n_act := 4;
     q := zeros (3, 4, 3, 3) 4 |}.

(** [choose_action]; [None] is IndexError. *)
Definition choose_action (s : sr_scheduler) (d st l b : Z) (rnd : draw)
  : option Z :=
  if Qlt_bool (rnd_random rnd) (eps s) then Some (rnd_randint rnd)
  else
    match nd_row (q s) (d, st, l, b) with
    | Some row => np_argmax row
    | None => None
    end.

(** [update]: the object after the call; [None] is IndexError. *)
Definition update (s : sr_scheduler) (d st l b a : Z) (r : Q)
    (d2 s2 l2 b2 : Z) : option sr_scheduler :=
  match nd_row (q s) (d2, s2, l2, b2) with
  | None => None
  | Some next_row =>
      match np_max next_row with
      | None => None
      | Some best_next =>
          match nd_get (q s) (d, st, l, b) a with
          | None => None
          | Some old =>
              match nd_set (q s) (d, st, l, b) a
                      ((1 - alpha s) * old + alpha s * (r + gamma s * best_next))%Q with
              | None => None
              | Some q' =>
                  Some {| alpha := alpha s; gamma := gamma s; eps := eps s;
                          intervals := intervals s; n_act := n_act s; q := q' |}
              end
          end
      end
  end.

(** [max(0.0, x)]. *)
Definition max_zero (x : Q) : Q := if Qlt_bool 0.0 x then x else 0.0%Q.

(** [reward]. *)
Definition reward (correct : bool) (latency : Q) : Q :=
  ((if correct then 1.0 else - 0.3) + max_zero (3.5 - latency) * 0.1)%Q.

(** One pass of the inner loop of [main] for an item with difficulty [d],
    streak [item_streak], last latency [item_last_latency] and band id
    [lbid], the simulated environment having answered [(correct, lat)]
    (the interval only enters the simulation). It returns the action
    chosen, the object after [update] and the item's new streak. *)
Definition learning_step (s : sr_scheduler) (d item_streak : Z)
    (item_last_latency : Q) (lbid : Z) (rnd : draw) (correct : bool) (lat : Q)
  : option (Z * sr_scheduler * Z) :=
  let st := Z.min item_streak 3 in
  match choose_action s d st (latency_bin item_last_latency) lbid rnd with
  | None => None
  | Some a =>
      match list_index (intervals s) a with
      | None => None
      | Some interval =>
          let r := reward correct lat in
          let st_next := if correct then Z.min (st + 1) 3 else 0 in
          let l_next := latency_bin lat in
          match update s d st (latency_bin item_last_latency) lbid a r
                  d st_next l_next lbid with
          | None => None
          | Some s' => Some (a, s', st_next)
          end
      end
  end.

(** A table of the scheduler's shape with a row of four values at every
    index. *)
Definition dense (t : ndarray) : Prop :=
  nd_shape t = (3, 4, 3, 3)
  /\ forall k, k ∈ indices (3, 4, 3, 3) ->
       exists row, nd_rows t !! k = Some row /\ length row = 4%nat.

End WhoAmIScheduler.

(* ===================================================================== *)
(** ** Facts about the primitives                                         *)
(* ===================================================================== *)

Module PyFacts.
Import Py.

Lemma Qlt_bool_iff (x y : Q) : Qlt_bool x y = true <-> (x < y)%Q.
Proof.
  unfold Qlt_bool. rewrite negb_true_iff. split.
  - intros H. apply Qnot_le_lt. intros Hle.
    apply Qle_bool_iff in Hle. congruence.
  - intros H. destruct (Qle_bool y x) eqn:E; [|reflexivity].
    apply Qle_bool_iff in E. exfalso. exact (Qlt_not_le _ _ H E).
Qed.

Lemma Qlt_bool_false (x y : Q) : Qlt_bool x y = false <-> (y <= x)%Q.
Proof.
  unfold Qlt_bool. rewrite negb_false_iff. apply Qle_bool_iff.
Qed.

Lemma axis_index_in_range (n i : Z) : 0 <= i < n -> axis_index n i = Some i.
Proof.
  intros [H0 Hn]. unfold axis_index.
  destruct (Z.leb_spec 0 i); [|lia].
  destruct (Z.ltb_spec i n); [reflexivity|lia].
Qed.

Lemma axis_index_Some (n i j : Z) : axis_index n i = Some j -> 0 <= j < n.
Proof.
  unfold axis_index.
  destruct (Z.leb_spec 0 i), (Z.ltb_spec i n); simpl;
    try (intros [= <-]; lia);
    destruct (Z.leb_spec (- n) i), (Z.ltb_spec i 0); simpl;
    try discriminate; intros [= <-]; lia.
Qed.

Lemma axis_index_zero (n j : Z) : axis_index n 0 = Some j -> j = 0.
Proof.
  unfold axis_index. simpl.
  destruct (0 <? n); simpl; [congruence|].
  rewrite andb_false_r. discriminate.
Qed.

Lemma list_index_in_range {A} (l : list A) (i : Z) :
  0 <= i < Z.of_nat (length l) -> list_index l i = l !! Z.to_nat i.
Proof.
  intros H. unfold list_index. rewrite axis_index_in_range by exact H.
  reflexivity.
Qed.

Lemma argmax_from_bounds (row : list Q) :
  forall i best_i best,
    0 <= best_i < i ->
    0 <= argmax_from i best_i best row < i + Z.of_nat (length row).
Proof.
  induction row as [|x row IH]; intros i best_i best Hb; simpl.
  - lia.
  - destruct (Qlt_bool best x).
    + specialize (IH (i + 1) i x). lia.
    + specialize (IH (i + 1) best_i best). lia.
Qed.

Lemma np_argmax_bounds (row : list Q) (a : Z) :
  np_argmax row = Some a -> 0 <= a < Z.of_nat (length row).
Proof.
  destruct row as [|x row]; simpl; [discriminate|].
  intros [= <-]. pose proof (argmax_from_bounds row 1 0 x). lia.
Qed.

(** The running maximum of [np.max] is one of the values seen and is not
    below any of them. *)
Lemma running_max_spec (l : list Q) :
  forall x,
    let m := fold_left (fun m y => if Qlt_bool m y then y else m) l x in
    (m = x \/ m ∈ l) /\ (x <= m)%Q /\ (forall y, y ∈ l -> (y <= m)%Q).
Proof.
  induction l as [|y l IH]; intros x; simpl.
  - split; [by left|]. split; [apply Qle_refl|]. intros y Hy.
    by apply elem_of_nil in Hy.
  - destruct (Qlt_bool x y) eqn:E.
    + destruct (IH y) as (Hin & Hle & Hall).
      apply Qlt_bool_iff in E.
      split; [right; destruct Hin as [->|Hin]; [left|by right]|].
      split; [eapply Qle_trans; [apply Qlt_le_weak, E|exact Hle]|].
      intros z Hz. apply elem_of_cons in Hz as [->|Hz]; [exact Hle|by apply Hall].
    + destruct (IH x) as (Hin & Hle & Hall).
      apply Qlt_bool_false in E.
      split; [destruct Hin as [->|Hin]; [by left|right; by right]|].
      split; [exact Hle|].
      intros z Hz. apply elem_of_cons in Hz as [->|Hz];
        [eapply Qle_trans; [exact E|exact Hle]|by apply Hall].
Qed.

Lemma np_max_spec (row : list Q) (m : Q) :
  np_max row = Some m ->
  m ∈ row /\ forall x, x ∈ row -> (x <= m)%Q.
Proof.
  destruct row as [|x row]; simpl; [discriminate|].
  intros [= <-]. destruct (running_max_spec row x) as (Hin & Hle & Hall).
  split.
  - destruct Hin as [->|Hin]; [left|by right].
  - intros y Hy. apply elem_of_cons in Hy as [->|Hy]; [exact Hle|by apply Hall].
Qed.

End PyFacts.

(* ===================================================================== *)
(** ** Facts about the scheduler                                          *)
(* ===================================================================== *)

Module QLearningFacts.
Import Py PyFacts QLearning.
Local Open Scope py_scope.

Ltac run_py :=
  unfold bind, self_, ret, raise, assign, or_raise in *; simpl in *.

Lemma indices_elem (n0 n1 n2 n3 i0 i1 i2 i3 : Z) :
  (i0, i1, i2, i3) ∈ indices (n0, n1, n2, n3)
  <-> 0 <= i0 < n0 /\ 0 <= i1 < n1 /\ 0 <= i2 < n2 /\ 0 <= i3 < n3.
Proof.
  unfold indices. split.
  - intros H.
    apply list_elem_of_bind in H as (j0 & H & H0).
    apply list_elem_of_bind in H as (j1 & H & H1).
    apply list_elem_of_bind in H as (j2 & H & H2).
    apply list_elem_of_bind in H as (j3 & H & H3).
    apply list_elem_of_singleton in H. injection H as -> -> -> ->.
    apply elem_of_seqZ in H0, H1, H2, H3. lia.
  - intros (H0 & H1 & H2 & H3).
    apply list_elem_of_bind. exists i0. split; [|apply elem_of_seqZ; lia].
    apply list_elem_of_bind. exists i1. split; [|apply elem_of_seqZ; lia].
    apply list_elem_of_bind. exists i2. split; [|apply elem_of_seqZ; lia].
    apply list_elem_of_bind. exists i3. split; [|apply elem_of_seqZ; lia].
    apply list_elem_of_singleton. reflexivity.
Qed.

Lemma nd_key_in_range (q : ndarray) (k : Z * Z * Z * Z) :
  k ∈ indices (nd_shape q) -> nd_key q k = Some k.
Proof.
  unfold nd_key. destruct (nd_shape q) as [[[n0 n1] n2] n3].
  destruct k as [[[i0 i1] i2] i3]. intros H. apply indices_elem in H.
  destruct H as (H0 & H1 & H2 & H3).
  rewrite !axis_index_in_range by assumption. reflexivity.
Qed.

(** *** The table built by [np.zeros] *)

Lemma np_zeros_shape shape n q : np_zeros shape n = Some q -> nd_shape q = shape.
Proof.
  unfold np_zeros. destruct shape as [[[n0 n1] n2] n3].
  destruct (_ && _); [|discriminate]. intros [= <-]. reflexivity.
Qed.

Lemma np_zeros_rows shape n q k row :
  np_zeros shape n = Some q ->
  nd_rows q !! k = Some row -> row = replicate (Z.to_nat n) 0%Q.
Proof.
  unfold np_zeros. destruct shape as [[[n0 n1] n2] n3].
  destruct (_ && _); [|discriminate]. intros [= <-]. simpl. intros H.
  apply elem_of_list_to_map_2 in H.
  apply list_elem_of_fmap in H as (i & [= _ ->] & _). reflexivity.
Qed.

Lemma np_zeros_lookup shape n q k :
  np_zeros shape n = Some q -> k ∈ indices shape ->
  nd_rows q !! k = Some (replicate (Z.to_nat n) 0%Q).
Proof.
  intros Hq Hk. destruct (nd_rows q !! k) as [row|] eqn:E.
  - f_equal. eapply np_zeros_rows; eassumption.
  - exfalso. revert Hq E. unfold np_zeros. destruct shape as [[[n0 n1] n2] n3].
    destruct (_ && _); [|discriminate]. intros [= <-]. simpl. intros E.
    apply not_elem_of_list_to_map in E. apply E.
    rewrite <- list_fmap_compose. simpl.
    apply list_elem_of_fmap. exists k. split; [reflexivity|exact Hk].
Qed.

Lemma init_wf lr df eps ms ml mb s :
  init lr df eps ms ml mb = Some s ->
  0 <= ms -> 0 <= ml -> 0 <= mb -> wf s.
Proof.
  unfold init. intros H Hms Hml Hmb.
  destruct (np_zeros _ _) as [q|] eqn:Hq; simpl in H; [|discriminate].
  injection H as <-.
  pose proof (np_zeros_shape _ _ _ Hq) as Hshape.
  constructor; simpl; try assumption; try reflexivity.
  - intros k Hk. rewrite Hshape in Hk.
    exists (replicate 4 0%Q). split; [|reflexivity].
    exact (np_zeros_lookup _ _ _ _ Hq Hk).
  - intros item st H. by rewrite lookup_empty in H.
  - intros item [st H]. by rewrite lookup_empty in H.
Qed.

Lemma init_is_Some lr df eps ms ml mb :
  0 <= ms -> 0 <= ml -> 0 <= mb -> is_Some (init lr df eps ms ml mb).
Proof.
  intros Hms Hml Hmb. unfold init, np_zeros.
  destruct (Z.leb_spec 0 (ms + 1)); [|lia].
  destruct (Z.leb_spec 0 (ml + 1)); [|lia].
  destruct (Z.leb_spec 0 (mb + 1)); [|lia].
  simpl. eauto.
Qed.

(** *** Reading the table at the index of a stored state *)

Lemma state_index_in_range (s : scheduler) (st : state) :
  wf s -> valid_state st ->
  get_state_index s st ∈ indices (nd_shape (q_table s)).
Proof.
  intros Hwf Hst. destruct st as [[[d k] l] b]. simpl in Hst.
  rewrite (wf_shape _ Hwf). unfold get_state_index. apply indices_elem.
  pose proof (wf_max_streak _ Hwf). pose proof (wf_max_latency_bin _ Hwf).
  pose proof (wf_max_load_bin _ Hwf). lia.
Qed.

Lemma state_row (s : scheduler) (st : state) :
  wf s -> valid_state st ->
  exists row,
    nd_row (q_table s) (get_state_index s st) = Some row
    /\ nd_rows (q_table s) !! get_state_index s st = Some row
    /\ length row = 4%nat.
Proof.
  intros Hwf Hst. pose proof (state_index_in_range _ _ Hwf Hst) as Hin.
  destruct (wf_rows _ Hwf _ Hin) as (row & Hrow & Hlen).
  exists row. unfold nd_row. rewrite (nd_key_in_range _ _ Hin). simpl. auto.
Qed.

(** *** [choose_action] *)

Lemma choose_action_ok (s : scheduler) (st : state) item_id force_exploit rnd :
  wf s -> valid_state st -> valid_draw rnd ->
  exists a,
    choose_action st item_id force_exploit rnd s = Ok a s
    /\ 0 <= a < 4 /\ (3 <= st.1.1.1 -> a <= 2).
Proof.
  intros Hwf Hst Hrnd. unfold valid_draw in Hrnd.
  destruct (state_row _ _ Hwf Hst) as (row & Hrow & _ & Hlen).
  destruct st as [[[d k] l] b]. unfold choose_action. run_py.
  assert (Hclamp : forall a0, 0 <= a0 < 4 ->
    let a := (if (d =? 1) && (2 <=? k) && false
              then Z.max (if (3 <=? d) || false then Z.min a0 2 else a0) 1
              else (if (3 <=? d) || false then Z.min a0 2 else a0)) in
    0 <= a < 4 /\ (3 <= d -> a <= 2)).
  { intros a0 Ha0. rewrite andb_false_r, orb_false_r. simpl.
    destruct (Z.leb_spec 3 d); lia. }
  destruct (negb force_exploit && Qlt_bool (rnd_random rnd) (epsilon s)).
  - eexists. split; [reflexivity|]. apply Hclamp, Hrnd.
  - rewrite Hrow. simpl.
    destruct (np_argmax row) as [a0|] eqn:Ha0.
    + eexists. split; [reflexivity|]. apply Hclamp.
      apply np_argmax_bounds in Ha0. lia.
    + destruct row; [discriminate Hlen|discriminate Ha0].
Qed.

Lemma choose_action_final (s : scheduler) (st : state) item_id force_exploit rnd :
  final (choose_action st item_id force_exploit rnd s) = s.
Proof.
  destruct st as [[[d k] l] b]. unfold choose_action. run_py.
  destruct (negb force_exploit && Qlt_bool (rnd_random rnd) (epsilon s));
    [reflexivity|].
  destruct (nd_row _ _) as [row|]; simpl; [|reflexivity].
  destruct (np_argmax row); reflexivity.
Qed.

#[local] Arguments choose_action : simpl never.

(** *** [get_next_interval] *)

Lemma get_next_interval_final (s : scheduler) item_id difficulty load_band
    force_exploit rnd :
  final (get_next_interval item_id difficulty load_band force_exploit rnd s)
  = scheduled item_id difficulty load_band s.
Proof.
  unfold get_next_interval, scheduled. run_py.
  destruct (item_states s !! item_id) as [st|]; simpl.
  - pose proof (choose_action_final s st item_id force_exploit rnd) as Hf.
    destruct (choose_action _ _ _ _ s) as [a s'|e s']; simpl in *; subst s';
      [|reflexivity].
    destruct (list_index _ _); reflexivity.
  - match goal with |- context [choose_action ?st _ _ _ ?s1] =>
      pose proof (choose_action_final s1 st item_id force_exploit rnd) as Hf;
      destruct (choose_action st item_id force_exploit rnd s1) as [a s'|e s']
    end; simpl in *; subst s'; [|reflexivity].
    destruct (list_index _ _); reflexivity.
Qed.

Lemma get_load_band_index_pos (load_band : string) :
  1 <= get_load_band_index load_band <= 3.
Proof.
  unfold get_load_band_index.
  repeat match goal with |- context [String.eqb ?a ?b] => destruct (String.eqb a b) end;
    lia.
Qed.

Lemma scheduled_wf (s : scheduler) item_id difficulty load_band :
  wf s -> 1 <= difficulty -> wf (scheduled item_id difficulty load_band s).
Proof.
  intros Hwf Hd. unfold scheduled.
  destruct (item_states s !! item_id) as [st|] eqn:E; [exact Hwf|].
  destruct Hwf. constructor; simpl; try assumption.
  - intros i st Hi. destruct (decide (i = item_id)) as [->|Hne].
    + rewrite lookup_insert_eq in Hi. injection Hi as <-. simpl.
      pose proof (get_load_band_index_pos load_band). lia.
    + rewrite lookup_insert_ne in Hi by congruence. eauto.
  - intros i Hi. destruct (decide (i = item_id)) as [->|Hne].
    + rewrite lookup_insert_eq. eauto.
    + rewrite lookup_insert_ne in Hi by congruence.
      rewrite lookup_insert_ne by congruence. eauto.
Qed.

Lemma scheduled_lookup (s : scheduler) item_id difficulty load_band :
  exists st,
    item_states (scheduled item_id difficulty load_band s) !! item_id = Some st
    /\ match item_states s !! item_id with
       | Some st0 => st = st0
       | None => st = (difficulty, 0, 1, get_load_band_index load_band)
       end.
Proof.
  unfold scheduled. destruct (item_states s !! item_id) as [st|] eqn:E.
  - exists st. auto.
  - eexists. simpl. rewrite lookup_insert_eq. auto.
Qed.

Lemma get_next_interval_ok (s : scheduler) item_id difficulty load_band
    force_exploit rnd :
  wf s -> 1 <= difficulty -> valid_draw rnd ->
  exists st a interval,
    item_states (scheduled item_id difficulty load_band s) !! item_id = Some st
    /\ get_next_interval item_id difficulty load_band force_exploit rnd s
       = Ok interval (scheduled item_id difficulty load_band s)
    /\ [30; 60; 120; 240] !! Z.to_nat a = Some interval
    /\ 0 <= a < 4
    /\ (3 <= st.1.1.1 -> a <= 2).
Proof.
  intros Hwf Hd Hrnd.
  pose proof (scheduled_wf s item_id difficulty load_band Hwf Hd) as Hwf'.
  destruct (scheduled_lookup s item_id difficulty load_band) as (st & Hst & Hst0).
  pose proof (wf_states _ Hwf' _ _ Hst) as Hvalid.
  destruct (choose_action_ok _ st item_id force_exploit rnd Hwf' Hvalid Hrnd)
    as (a & Ha & Hrange & Hhard).
  assert (Hint : exists interval,
             list_index [30; 60; 120; 240] a = Some interval
             /\ [30; 60; 120; 240] !! Z.to_nat a = Some interval).
  { rewrite list_index_in_range by (simpl; lia).
    destruct (Z.to_nat a) as [|[|[|[|n]]]] eqn:En; simpl;
      [eexists; split; reflexivity..|lia]. }
  destruct Hint as (interval & Hint & Hmem).
  exists st, a, interval. split; [exact Hst|].
  split; [|split; [exact Hmem|split; [exact Hrange|exact Hhard]]].
  clear Hhard. revert Ha Hst Hst0. unfold get_next_interval, scheduled. run_py.
  destruct (item_states s !! item_id) as [st0|] eqn:E; simpl.
  - intros Ha _ ->. rewrite Ha. rewrite (wf_actions _ Hwf), Hint. reflexivity.
  - intros Ha _ ->. rewrite Ha. simpl. rewrite (wf_actions _ Hwf), Hint.
    reflexivity.
Qed.

(** *** [update_q_value] *)

(** A call of [update_q_value] either raises and leaves the object as it
    was, or writes the one-step target into one cell. *)
Lemma update_q_value_cases (st : state) (action : Z) (reward : Q)
    (next_state : state) (s : scheduler) :
  (exists e, update_q_value st action reward next_state s = Raise e s)
  \/ (exists k row j q0 k' next_row mx,
        nd_key (q_table s) (get_state_index s st) = Some k
        /\ nd_rows (q_table s) !! k = Some row
        /\ axis_index (Z.of_nat (length row)) action = Some j
        /\ row !! Z.to_nat j = Some q0
        /\ nd_key (q_table s) (get_state_index s next_state) = Some k'
        /\ nd_rows (q_table s) !! k' = Some next_row
        /\ np_max next_row = Some mx
        /\ update_q_value st action reward next_state s
           = Ok tt (set_q_table
                      (write_cell (q_table s) k (Z.to_nat j) row
                         (td_target (learning_rate s) (discount_factor s)
                            q0 reward mx)) s)).
Proof.
  unfold update_q_value, nd_get, nd_row, nd_set, list_index. run_py.
  destruct (nd_key (q_table s) (get_state_index s st)) as [k|] eqn:Ek; simpl;
    [|left; eauto].
  destruct (nd_rows (q_table s) !! k) as [row|] eqn:Erow; simpl; [|left; eauto].
  destruct (axis_index (Z.of_nat (length row)) action) as [j|] eqn:Ej; simpl;
    [|left; eauto].
  destruct (row !! Z.to_nat j) as [q0|] eqn:Eq0; simpl; [|left; eauto].
  destruct (nd_key (q_table s) (get_state_index s next_state)) as [k'|] eqn:Ek';
    simpl; [|left; eauto].
  destruct (nd_rows (q_table s) !! k') as [next_row|] eqn:Enext; simpl;
    [|left; eauto].
  destruct (np_max next_row) as [mx|] eqn:Emx; simpl; [|left; eauto].
  right. exists k, row, j, q0, k', next_row, mx.
  repeat (split; [reflexivity || assumption|]). reflexivity.
Qed.

#[local] Arguments update_q_value : simpl never.

(** *** [record_result] *)

Lemma record_result_unknown (s : scheduler) item_id correct latency_sec
    difficulty load_band :
  item_states s !! item_id = None ->
  record_result item_id correct latency_sec difficulty load_band s = Ok tt s.
Proof.
  intros H. unfold record_result. run_py. rewrite H. reflexivity.
Qed.

(** [record_result] on a known item of a well-formed object: it returns,
    and the object it leaves is written out. *)
Lemma record_result_known (s : scheduler) item_id correct latency_sec
    difficulty load_band (st : state) :
  wf s -> item_states s !! item_id = Some st ->
  let reward := calculate_reward correct latency_sec (st.1.1.1) load_band in
  let st' := next_state_of s st correct latency_sec load_band in
  exists row q0 next_row mx log,
    nd_rows (q_table s) !! get_state_index s st = Some row
    /\ row !! 0%nat = Some q0
    /\ nd_rows (q_table s) !! get_state_index s st' = Some next_row
    /\ np_max next_row = Some mx
    /\ item_sessions s !! item_id = Some log
    /\ record_result item_id correct latency_sec difficulty load_band s
       = Ok tt
           (set_item_sessions
              (<[item_id := log ++ [session_of s st correct latency_sec load_band]]>
                 (item_sessions s))
              (set_item_states (<[item_id := st']> (item_states s))
                 (set_q_table
                    (write_cell (q_table s) (get_state_index s st) 0 row
                       (td_target (learning_rate s) (discount_factor s)
                          q0 reward mx)) s))).
Proof.
  intros Hwf Hst reward st'.
  pose proof (wf_states _ Hwf _ _ Hst) as Hvalid.
  assert (Hvalid' : valid_state st').
  { subst st'. destruct st as [[[d k] l] b]. simpl in *.
    pose proof (get_load_band_index_pos load_band).
    pose proof (wf_max_streak _ Hwf).
    assert (0 <= get_latency_bin latency_sec).
    { unfold get_latency_bin. repeat destruct (Qle_bool _ _); lia. }
    destruct correct; lia. }
  pose proof (state_index_in_range _ _ Hwf Hvalid) as Hin.
  pose proof (state_index_in_range _ _ Hwf Hvalid') as Hin'.
  destruct (wf_sessions _ Hwf item_id (ltac:(eauto))) as [log Hlog].
  destruct (update_q_value_cases st 0 reward st' s)
    as [[e He]|(k & row & j & q0 & k' & next_row & mx
                & Hk & Hrow & Hj & Hq0 & Hk' & Hnext & Hmx & Hupd)].
  - exfalso. revert He.
    destruct (wf_rows _ Hwf _ Hin) as (row & Hrow & Hlen).
    destruct (wf_rows _ Hwf _ Hin') as (next_row & Hnext & Hlen').
    unfold update_q_value, nd_get, nd_row, nd_set, list_index. run_py.
    rewrite (nd_key_in_range _ _ Hin), (nd_key_in_range _ _ Hin'). simpl.
    rewrite Hrow, Hnext. simpl. rewrite Hlen. simpl.
    destruct row as [|q0 row]; [discriminate Hlen|]. simpl.
    destruct next_row as [|x next_row]; [discriminate Hlen'|]. simpl.
    discriminate.
  - rewrite (nd_key_in_range _ _ Hin) in Hk. injection Hk as <-.
    rewrite (nd_key_in_range _ _ Hin') in Hk'. injection Hk' as <-.
    destruct (wf_rows _ Hwf _ Hin) as (row0 & Hrow0 & Hlen).
    rewrite Hrow in Hrow0. injection Hrow0 as <-.
    rewrite Hlen in Hj. simpl in Hj. injection Hj as <-. simpl in *.
    exists row, q0, next_row, mx, log.
    repeat (split; [assumption|]).
    unfold record_result. run_py. rewrite Hst.
    destruct st as [[[d k] l] b]. simpl in *.
    fold reward. subst st'. simpl in *. rewrite Hupd. simpl. rewrite Hlog.
    reflexivity.
Qed.

Lemma next_state_valid (s : scheduler) (st : state) correct latency_sec load_band :
  wf s -> valid_state st ->
  valid_state (next_state_of s st correct latency_sec load_band).
Proof.
  intros Hwf Hst. destruct st as [[[d k] l] b]. simpl in *.
  pose proof (get_load_band_index_pos load_band).
  pose proof (wf_max_streak _ Hwf).
  assert (0 <= get_latency_bin latency_sec).
  { unfold get_latency_bin. repeat destruct (Qle_bool _ _); lia. }
  destruct correct; lia.
Qed.

Lemma record_result_wf (s : scheduler) item_id correct latency_sec difficulty
    load_band :
  wf s ->
  wf (final (record_result item_id correct latency_sec difficulty load_band s)).
Proof.
  intros Hwf. destruct (item_states s !! item_id) as [st|] eqn:Hst.
  - destruct (record_result_known s item_id correct latency_sec difficulty
                load_band st Hwf Hst)
      as (row & q0 & next_row & mx & log & Hrow & Hq0 & Hnext & Hmx & Hlog & ->).
    simpl. pose proof (wf_states _ Hwf _ _ Hst) as Hvalid.
    pose proof (state_index_in_range _ _ Hwf Hvalid) as Hin.
    destruct (wf_rows _ Hwf _ Hin) as (row0 & Hrow0 & Hlen).
    rewrite Hrow in Hrow0. injection Hrow0 as <-.
    destruct Hwf. constructor; simpl; try assumption.
    + intros k Hk. destruct (decide (k = get_state_index s st)) as [->|Hne].
      * rewrite lookup_insert_eq. eexists. split; [reflexivity|].
        rewrite length_insert. exact Hlen.
      * rewrite lookup_insert_ne by congruence. auto.
    + intros i st0 Hi. destruct (decide (i = item_id)) as [->|Hne].
      * rewrite lookup_insert_eq in Hi. injection Hi as <-.
        apply next_state_valid; [constructor; assumption|exact Hvalid].
      * rewrite lookup_insert_ne in Hi by congruence. eauto.
    + intros i Hi. destruct (decide (i = item_id)) as [->|Hne].
      * rewrite lookup_insert_eq. eauto.
      * rewrite lookup_insert_ne in Hi by congruence.
        rewrite lookup_insert_ne by congruence. eauto.
  - rewrite record_result_unknown by exact Hst. exact Hwf.
Qed.

(** *** Histories *)

Lemma run_op_wf (s : scheduler) (o : op) : wf s -> valid_op o -> wf (run_op s o).
Proof.
  intros Hwf Ho. destruct o as [i d lb fe rnd|i c l d lb]; simpl in *.
  - rewrite get_next_interval_final. apply scheduled_wf; [exact Hwf|lia].
  - apply record_result_wf, Hwf.
Qed.

Lemma run_wf (ops : list op) :
  forall s, wf s -> Forall valid_op ops -> wf (run s ops).
Proof.
  induction ops as [|o ops IH]; intros s Hwf Hops; simpl; [exact Hwf|].
  apply Forall_cons in Hops as [Ho Hops].
  apply IH; [apply run_op_wf; assumption|exact Hops].
Qed.

(** The items with a stored state are those some [get_next_interval] named. *)
Lemma run_op_unknown (s : scheduler) (o : op) (item_id : Z) :
  item_states s !! item_id = None -> ~ schedules item_id o ->
  item_states (run_op s o) !! item_id = None.
Proof.
  intros Hs Ho. destruct o as [i d lb fe rnd|i c l d lb]; simpl in *.
  - rewrite get_next_interval_final. unfold scheduled.
    destruct (item_states s !! i); [exact Hs|]. simpl.
    rewrite lookup_insert_ne by congruence. exact Hs.
  - destruct (item_states s !! i) as [st|] eqn:Hst.
    + pose proof (update_q_value_cases st 0
        (calculate_reward c l (st.1.1.1) lb) (next_state_of s st c l lb) s) as Hc.
      assert (i <> item_id) by congruence.
      unfold record_result. run_py. rewrite Hst.
      destruct st as [[[d0 k0] l0] b0]. simpl in *.
      destruct Hc as [[e ->]|(k & row & j & q0 & k' & next_row & mx
                & _ & _ & _ & _ & _ & _ & _ & ->)]; simpl; [exact Hs|].
      destruct (item_sessions s !! i); simpl;
        rewrite lookup_insert_ne by congruence; exact Hs.
    + rewrite record_result_unknown by exact Hst. exact Hs.
Qed.

Lemma run_unknown (ops : list op) (item_id : Z) :
  forall s,
    item_states s !! item_id = None ->
    Forall (fun o => ~ schedules item_id o) ops ->
    item_states (run s ops) !! item_id = None.
Proof.
  induction ops as [|o ops IH]; intros s Hs Hops; simpl; [exact Hs|].
  apply Forall_cons in Hops as [Ho Hops].
  apply IH; [apply run_op_unknown; assumption|exact Hops].
Qed.

(** *** Rewards and the size of the stored values *)

Lemma calculate_reward_bounds correct latency_sec difficulty load_band :
  (- 0.8 <= calculate_reward correct latency_sec difficulty load_band
   /\ calculate_reward correct latency_sec difficulty load_band <= 1.9)%Q.
Proof.
  unfold calculate_reward.
  destruct correct;
    repeat match goal with
           | |- context [if ?c then _ else _] => destruct c
           end;
    split; lra.
Qed.

Lemma td_target_bounded (alpha gamma b q0 r mx : Q) :
  (0 < alpha)%Q -> (alpha <= 1)%Q -> (0 <= gamma)%Q -> (gamma < 1)%Q ->
  (1.9 <= (1 - gamma) * b)%Q ->
  (- 0.8 <= r)%Q -> (r <= 1.9)%Q ->
  (- b <= q0)%Q -> (q0 <= b)%Q -> (- b <= mx)%Q -> (mx <= b)%Q ->
  (- b <= td_target alpha gamma q0 r mx /\ td_target alpha gamma q0 r mx <= b)%Q.
Proof.
  intros Ha0 Ha1 Hg0 Hg1 Hb Hr0 Hr1 Hq0 Hq1 Hm0 Hm1. unfold td_target.
  assert (Ht : (- b <= r + gamma * mx /\ r + gamma * mx <= b)%Q).
  { split; nra. }
  destruct Ht as [Ht0 Ht1].
  split; nra.
Qed.

(** Whatever the object, a call of [record_result] keeps the
    hyper-parameters and changes the table by at most one written cell,
    at action index 0. *)
Lemma record_result_final_cases (s : scheduler) item_id correct latency_sec
    difficulty load_band :
  let s' := final (record_result item_id correct latency_sec difficulty load_band s) in
  learning_rate s' = learning_rate s
  /\ discount_factor s' = discount_factor s
  /\ (q_table s' = q_table s
      \/ exists st k row q0 k' next_row mx,
           item_states s !! item_id = Some st
           /\ nd_rows (q_table s) !! k = Some row
           /\ row !! 0%nat = Some q0
           /\ nd_rows (q_table s) !! k' = Some next_row
           /\ np_max next_row = Some mx
           /\ q_table s'
              = write_cell (q_table s) k 0 row
                  (td_target (learning_rate s) (discount_factor s) q0
                     (calculate_reward correct latency_sec (st.1.1.1) load_band)
                     mx)).
Proof.
  destruct (item_states s !! item_id) as [st|] eqn:Hst.
  - pose proof (update_q_value_cases st 0
      (calculate_reward correct latency_sec (st.1.1.1) load_band)
      (next_state_of s st correct latency_sec load_band) s) as Hc.
    unfold record_result. run_py. rewrite Hst.
    destruct st as [[[d0 k0] l0] b0]. simpl in *.
    destruct Hc as [[e ->]|(k & row & j & q0 & k' & next_row & mx
                & _ & Hrow & Hj & Hq0 & _ & Hnext & Hmx & ->)]; simpl.
    + auto.
    + apply axis_index_zero in Hj. subst j. simpl in *.
      assert (Hw : exists st k1 row1 q1 k2 next_row1 mx1,
        Some (d0, k0, l0, b0) = Some st
        /\ nd_rows (q_table s) !! k1 = Some row1
        /\ row1 !! 0%nat = Some q1
        /\ nd_rows (q_table s) !! k2 = Some next_row1
        /\ np_max next_row1 = Some mx1
        /\ write_cell (q_table s) k 0 row
             (td_target (learning_rate s) (discount_factor s) q0
                (calculate_reward correct latency_sec d0 load_band) mx)
           = write_cell (q_table s) k1 0 row1
               (td_target (learning_rate s) (discount_factor s) q1
                  (calculate_reward correct latency_sec (st.1.1.1) load_band)
                  mx1)).
      { exists (d0, k0, l0, b0), k, row, q0, k', next_row, mx.
        repeat (split; [reflexivity || assumption|]). reflexivity. }
      destruct (item_sessions s !! item_id); simpl; auto.
  - rewrite record_result_unknown by exact Hst. simpl. auto.
Qed.

Lemma bounded_write_cell (b : Q) (q : ndarray) k j row v :
  bounded b q -> nd_rows q !! k = Some row ->
  (- b <= v /\ v <= b)%Q ->
  bounded b (write_cell q k j row v).
Proof.
  intros Hb Hrow Hv k2 row2 x. unfold write_cell. simpl.
  destruct (decide (k2 = k)) as [->|Hne].
  - rewrite lookup_insert_eq. intros [= <-] Hx.
    apply list_elem_of_lookup in Hx as [i Hi].
    destruct (decide (i = j)) as [->|Hij].
    + destruct (decide (j < length row)%nat) as [Hlt|Hge].
      * rewrite list_lookup_insert_eq in Hi by exact Hlt.
        injection Hi as <-. exact Hv.
      * rewrite list_insert_ge in Hi by lia.
        apply (Hb k row x Hrow). apply list_elem_of_lookup. eauto.
    + rewrite list_lookup_insert_ne in Hi by congruence.
      apply (Hb k row x Hrow). apply list_elem_of_lookup. eauto.
  - rewrite lookup_insert_ne by congruence. apply Hb.
Qed.

Lemma run_op_bounded (b : Q) (s : scheduler) (o : op) :
  (0 < learning_rate s)%Q -> (learning_rate s <= 1)%Q ->
  (0 <= discount_factor s)%Q -> (discount_factor s < 1)%Q ->
  (1.9 <= (1 - discount_factor s) * b)%Q ->
  bounded b (q_table s) ->
  learning_rate (run_op s o) = learning_rate s
  /\ discount_factor (run_op s o) = discount_factor s
  /\ bounded b (q_table (run_op s o)).
Proof.
  intros Ha0 Ha1 Hg0 Hg1 Hbig Hb.
  destruct o as [i d lb fe rnd|i c l d lb]; simpl.
  - rewrite get_next_interval_final. unfold scheduled.
    destruct (item_states s !! i); simpl; auto.
  - destruct (record_result_final_cases s i c l d lb)
      as (Hlr & Hdf & [Hq|(st & k & row & q0 & k' & next_row & mx
                           & _ & Hrow & Hq0 & Hnext & Hmx & Hq)]).
    + rewrite Hq. auto.
    + rewrite Hq. split; [exact Hlr|]. split; [exact Hdf|].
      apply bounded_write_cell; [exact Hb|exact Hrow|].
      destruct (calculate_reward_bounds c l (st.1.1.1) lb) as [Hr0 Hr1].
      assert (Hq0' : q0 ∈ row) by (apply list_elem_of_lookup; eauto).
      destruct (Hb k row q0 Hrow Hq0') as [Hq00 Hq01].
      destruct (np_max_spec _ _ Hmx) as [Hmxin _].
      destruct (Hb k' next_row mx Hnext Hmxin) as [Hm0 Hm1].
      apply td_target_bounded; assumption.
Qed.

Lemma run_bounded (b : Q) (ops : list op) :
  forall s,
    (0 < learning_rate s)%Q -> (learning_rate s <= 1)%Q ->
    (0 <= discount_factor s)%Q -> (discount_factor s < 1)%Q ->
    (1.9 <= (1 - discount_factor s) * b)%Q ->
    bounded b (q_table s) ->
    bounded b (q_table (run s ops)).
Proof.
  induction ops as [|o ops IH]; intros s Ha0 Ha1 Hg0 Hg1 Hbig Hb; simpl;
    [exact Hb|].
  destruct (run_op_bounded b s o Ha0 Ha1 Hg0 Hg1 Hbig Hb) as (Hlr & Hdf & Hb').
  apply IH; rewrite ?Hlr, ?Hdf; assumption.
Qed.

Lemma init_zero lr df eps ms ml mb s k row x :
  init lr df eps ms ml mb = Some s ->
  nd_rows (q_table s) !! k = Some row -> x ∈ row -> x = 0%Q.
Proof.
  unfold init. intros H Hrow Hx.
  destruct (np_zeros _ _) as [q|] eqn:Hq; simpl in H; [|discriminate].
  injection H as <-. simpl in Hrow.
  rewrite (np_zeros_rows _ _ _ _ _ Hq Hrow) in Hx.
  exact (elem_of_replicate_inv _ _ _ Hx).
Qed.

Lemma init_params lr df eps ms ml mb s :
  init lr df eps ms ml mb = Some s ->
  learning_rate s = lr /\ discount_factor s = df /\ epsilon s = eps
  /\ max_streak s = ms /\ max_latency_bin s = ml /\ max_load_bin s = mb.
Proof.
  unfold init. intros H.
  destruct (np_zeros _ _) as [q|]; simpl in H; [|discriminate].
  injection H as <-. simpl. auto 10.
Qed.
(** *** Cells of the table after a write *)

Lemma entry_write_cell_eq (q : ndarray) k j row v :
  (j < length row)%nat -> entry (write_cell q k j row v) k j = Some v.
Proof.
  intros Hj. unfold entry, write_cell. simpl. rewrite lookup_insert_eq. simpl.
  apply list_lookup_insert_eq. exact Hj.
Qed.

Lemma entry_write_cell_ne (q : ndarray) k j row v k2 a :
  nd_rows q !! k = Some row -> (k2, a) <> (k, j) ->
  entry (write_cell q k j row v) k2 a = entry q k2 a.
Proof.
  intros Hrow Hne. unfold entry, write_cell. simpl.
  destruct (decide (k2 = k)) as [->|Hk].
  - rewrite lookup_insert_eq, Hrow. simpl.
    apply list_lookup_insert_ne. congruence.
  - rewrite lookup_insert_ne by congruence. reflexivity.
Qed.

(** *** Objects a caller can hold *)

Lemma history_wf lr df eps ms ml mb (ops : list op) :
  0 <= ms -> 0 <= ml -> 0 <= mb -> Forall valid_op ops ->
  exists s0, init lr df eps ms ml mb = Some s0 /\ wf (run s0 ops).
Proof.
  intros Hms Hml Hmb Hops.
  destruct (init_is_Some lr df eps ms ml mb Hms Hml Hmb) as [s0 Hs0].
  exists s0. split; [exact Hs0|].
  apply run_wf; [|exact Hops]. eapply init_wf; eassumption.
Qed.

Lemma run_op_known (s : scheduler) (o : op) (item_id : Z) :
  wf s -> is_Some (item_states s !! item_id) \/ schedules item_id o ->
  is_Some (item_states (run_op s o) !! item_id).
Proof.
  intros Hwf H. destruct o as [i d lb fe rnd|i c l d lb]; simpl in *.
  - rewrite get_next_interval_final.
    destruct H as [H| ->].
    + unfold scheduled. destruct (item_states s !! i) eqn:E; [exact H|]. simpl.
      destruct (decide (item_id = i)) as [->|Hne].
      * rewrite lookup_insert_eq. eauto.
      * rewrite lookup_insert_ne by congruence. exact H.
    + destruct (scheduled_lookup s item_id d lb) as (st & -> & _). eauto.
  - destruct H as [H|[]].
    destruct (item_states s !! i) as [st|] eqn:Hst.
    + destruct (record_result_known s i c l d lb st Hwf Hst)
        as (row & q0 & next_row & mx & log & _ & _ & _ & _ & _ & ->).
      simpl. destruct (decide (item_id = i)) as [->|Hne].
      * rewrite lookup_insert_eq. eauto.
      * rewrite lookup_insert_ne by congruence. exact H.
    + rewrite record_result_unknown by exact Hst. exact H.
Qed.

Lemma run_known (ops : list op) (item_id : Z) :
  forall s,
    wf s -> Forall valid_op ops ->
    is_Some (item_states s !! item_id) \/ Exists (schedules item_id) ops ->
    is_Some (item_states (run s ops) !! item_id).
Proof.
  induction ops as [|o ops IH]; intros s Hwf Hops H; simpl.
  - destruct H as [H|H]; [exact H|]. by apply Exists_nil in H.
  - apply Forall_cons in Hops as [Ho Hops].
    apply IH; [apply run_op_wf; assumption|exact Hops|].
    destruct H as [H|H].
    + left. apply run_op_known; auto.
    + apply Exists_cons in H as [H|H]; [|by right].
      left. apply run_op_known; auto.
Qed.

Lemma run_params (ops : list op) :
  forall s,
    learning_rate (run s ops) = learning_rate s
    /\ discount_factor (run s ops) = discount_factor s.
Proof.
  induction ops as [|o ops IH]; intros s; simpl; [auto|].
  destruct (IH (run_op s o)) as [-> ->].
  destruct o as [i d lb fe rnd|i c l d lb]; simpl.
  - rewrite get_next_interval_final. unfold scheduled.
    destruct (item_states s !! i); simpl; auto.
  - destruct (record_result_final_cases s i c l d lb) as (Hlr & Hdf & _). auto.
Qed.

End QLearningFacts.

(* ===================================================================== *)
(** ** The scheduler's properties                                         *)
(* ===================================================================== *)

Module SchedulerClaims.
Import Py PyFacts QLearning QLearningFacts.
Local Open Scope py_scope.

(** A hard item is kept off the longest interval: when the stored
    difficulty is 3 or more, the first safety test fires and the action
    index is at most 2. *)
Lemma hardest_item_never_longest lr df eps ms ml mb ops item_id difficulty
    load_band force_exploit rnd :
  0 <= ms -> 0 <= ml -> 0 <= mb -> Forall valid_op ops ->
  1 <= difficulty <= 3 -> valid_draw rnd ->
  exists s0 st interval s',
    init lr df eps ms ml mb = Some s0
    /\ get_next_interval item_id difficulty load_band force_exploit rnd (run s0 ops)
       = Ok interval s'
    /\ item_states s' !! item_id = Some st
    /\ (3 <= st.1.1.1 -> interval <> 240).
Proof.
  intros Hms Hml Hmb Hops Hd Hrnd.
  destruct (history_wf lr df eps ms ml mb ops Hms Hml Hmb Hops) as (s0 & Hs0 & Hwf).
  destruct (get_next_interval_ok (run s0 ops) item_id difficulty load_band
              force_exploit rnd Hwf (proj1 Hd) Hrnd)
    as (st & a & interval & Hst & Hok & Hint & Hrange & Hhard).
  exists s0, st, interval, (scheduled item_id difficulty load_band (run s0 ops)).
  repeat (split; [assumption|]).
  intros H3. specialize (Hhard H3).
  destruct (Z.to_nat a) as [|[|[|n]]] eqn:En; simpl in Hint;
    try (injection Hint as <-; discriminate). lia.
Qed.

(** C1, evaluated where the code departs from it: on a fresh default
    scheduler, [get_next_interval(1, 1, "high")] stores load band index 3
    for the item, and with an exploring draw that picks index 3 it returns
    240 seconds. The test [load_band == 'high'] compares the stored index
    with a string and never holds. *)
Theorem high_load_band_gets_longest_interval :
  (s0 ← default_scheduler;
   returned (get_next_interval 1 1 "high" false
               {| rnd_random := 0.05; rnd_randint := 3 |} s0)) = Some 240
  /\ (s0 ← default_scheduler;
      item_states
        (final (get_next_interval 1 1 "high" false
                  {| rnd_random := 0.05; rnd_randint := 3 |} s0)) !! 1)
     = Some (1, 0, 1, 3).
Proof. split; vm_compute; reflexivity. Qed.

(** C7: on a scheduler built by [__init__] and driven by any calls with
    difficulties in {1,2,3}, [get_next_interval] with a difficulty in
    {1,2,3}, any load-band label and any random draw returns, and what it
    returns is one of 30, 60, 120, 240. *)
Theorem get_next_interval_in_action_set lr df eps ms ml mb ops item_id
    difficulty load_band force_exploit rnd :
  0 <= ms -> 0 <= ml -> 0 <= mb -> Forall valid_op ops ->
  1 <= difficulty <= 3 -> valid_draw rnd ->
  exists s0 interval s',
    init lr df eps ms ml mb = Some s0
    /\ get_next_interval item_id difficulty load_band force_exploit rnd (run s0 ops)
       = Ok interval s'
    /\ interval ∈ [30; 60; 120; 240].
Proof.
  intros Hms Hml Hmb Hops Hd Hrnd.
  destruct (history_wf lr df eps ms ml mb ops Hms Hml Hmb Hops) as (s0 & Hs0 & Hwf).
  destruct (get_next_interval_ok (run s0 ops) item_id difficulty load_band
              force_exploit rnd Hwf (proj1 Hd) Hrnd)
    as (st & a & interval & _ & Hok & Hint & _ & _).
  exists s0, interval, (scheduled item_id difficulty load_band (run s0 ops)).
  split; [exact Hs0|]. split; [exact Hok|].
  eapply list_elem_of_lookup_2. exact Hint.
Qed.

Lemma get_next_interval_in_action_set_witness :
  exists s0 interval s',
    default_scheduler = Some s0
    /\ get_next_interval 7 2 "moderate" false
         {| rnd_random := 0.5; rnd_randint := 1 |}
         (run s0 [GetNextInterval 7 2 "low" false
                    {| rnd_random := 0.01; rnd_randint := 3 |};
                  RecordResult 7 true 1.5 2 "low"])
       = Ok interval s'
    /\ interval ∈ [30; 60; 120; 240].
Proof.
  apply (get_next_interval_in_action_set 0.1 0.9 0.1 3 2 2
           [GetNextInterval 7 2 "low" false
              {| rnd_random := 0.01; rnd_randint := 3 |};
            RecordResult 7 true 1.5 2 "low"]
           7 2 "moderate" false {| rnd_random := 0.5; rnd_randint := 1 |});
    [lia | lia | lia | repeat constructor; simpl; lia | lia
    | unfold valid_draw; simpl; lia].
Defined.

(** C9: a [record_result] for an item that no [get_next_interval] call has
    named returns without raising and leaves the whole object (table,
    state map, session logs) as it was. *)
Theorem record_result_unscheduled_is_noop lr df eps ms ml mb ops item_id
    correct latency_sec difficulty load_band :
  0 <= ms -> 0 <= ml -> 0 <= mb ->
  Forall (fun o => ~ schedules item_id o) ops ->
  exists s0,
    init lr df eps ms ml mb = Some s0
    /\ record_result item_id correct latency_sec difficulty load_band (run s0 ops)
       = Ok tt (run s0 ops).
Proof.
  intros Hms Hml Hmb Hops.
  destruct (init_is_Some lr df eps ms ml mb Hms Hml Hmb) as [s0 Hs0].
  exists s0. split; [exact Hs0|].
  apply record_result_unknown. apply run_unknown; [|exact Hops].
  revert Hs0. unfold init. destruct (np_zeros _ _); simpl; [|discriminate].
  intros [= <-]. simpl. apply lookup_empty.
Qed.

Lemma record_result_unscheduled_is_noop_witness :
  exists s0,
    default_scheduler = Some s0
    /\ record_result 8 true 1.0 2 "low"
         (run s0 [GetNextInterval 7 2 "low" false
                    {| rnd_random := 0.01; rnd_randint := 3 |};
                  RecordResult 7 false 6.0 2 "high"])
       = Ok tt (run s0 [GetNextInterval 7 2 "low" false
                          {| rnd_random := 0.01; rnd_randint := 3 |};
                        RecordResult 7 false 6.0 2 "high"]).
Proof.
  apply (record_result_unscheduled_is_noop 0.1 0.9 0.1 3 2 2
           [GetNextInterval 7 2 "low" false
              {| rnd_random := 0.01; rnd_randint := 3 |};
            RecordResult 7 false 6.0 2 "high"] 8 true 1.0 2 "low");
    [lia | lia | lia | repeat constructor; simpl; lia].
Defined.

(** C10: [record_result] does not depend on its [difficulty] argument:
    two calls that differ only there end in the same outcome, hence with
    the same table, state map and session logs. The name is rebound to the
    stored difficulty before its first use. *)
Theorem record_result_ignores_difficulty (s : scheduler) item_id correct
    latency_sec difficulty1 difficulty2 load_band :
  record_result item_id correct latency_sec difficulty1 load_band s
  = record_result item_id correct latency_sec difficulty2 load_band s.
Proof.
  unfold record_result. run_py.
  destruct (item_states s !! item_id) as [[[[d k] l] b]|]; reflexivity.
Qed.

(** C3: [get_next_interval] keeps no trace of the action it chose (the
    object it leaves is the same for every draw); on any object at all,
    [record_result] leaves every cell of an action index other than 0 as
    it was; and on an item with a stored state it returns after writing
    the cell of action index 0 in the row of that state: the value q0 of
    that cell is replaced by q0 + alpha * (r + gamma * max - q0), with r
    the computed reward and max the largest value of the new state's row. *)
Theorem record_result_credits_action_0 lr df eps ms ml mb ops item_id correct
    latency_sec difficulty load_band :
  0 <= ms -> 0 <= ml -> 0 <= mb -> Forall valid_op ops ->
  Exists (schedules item_id) ops ->
  (forall s d lb force_exploit force_exploit' rnd rnd',
     final (get_next_interval item_id d lb force_exploit rnd s)
     = final (get_next_interval item_id d lb force_exploit' rnd' s))
  /\ (forall s k a, a <> 0%nat ->
        entry (q_table (final (record_result item_id correct latency_sec
                                 difficulty load_band s))) k a
        = entry (q_table s) k a)
  /\ exists s0 st row q0 next_row mx s',
       init lr df eps ms ml mb = Some s0
       /\ item_states (run s0 ops) !! item_id = Some st
       /\ nd_rows (q_table (run s0 ops)) !! get_state_index (run s0 ops) st
          = Some row
       /\ row !! 0%nat = Some q0
       /\ nd_rows (q_table (run s0 ops))
            !! get_state_index (run s0 ops)
                 (next_state_of (run s0 ops) st correct latency_sec load_band)
          = Some next_row
       /\ np_max next_row = Some mx
       /\ record_result item_id correct latency_sec difficulty load_band
            (run s0 ops)
          = Ok tt s'
       /\ q_table s'
          = write_cell (q_table (run s0 ops)) (get_state_index (run s0 ops) st)
              0 row
              (q0 + lr * (calculate_reward correct latency_sec (st.1.1.1) load_band
                          + df * mx - q0))%Q
       /\ entry (q_table s') (get_state_index (run s0 ops) st) 0
          = Some (q0 + lr * (calculate_reward correct latency_sec (st.1.1.1)
                               load_band
                             + df * mx - q0))%Q
       /\ (forall k a, a <> 0%nat ->
             entry (q_table s') k a = entry (q_table (run s0 ops)) k a).
Proof.
  intros Hms Hml Hmb Hops Hsched. split.
  { intros s d lb fe fe' rnd rnd'. rewrite !get_next_interval_final. reflexivity. }
  split.
  { intros s k a Ha.
    destruct (record_result_final_cases s item_id correct latency_sec
                difficulty load_band)
      as (_ & _ & [->|(st & k1 & row & q0 & k' & next_row & mx
                       & _ & Hrow & _ & _ & _ & ->)]); [reflexivity|].
    apply entry_write_cell_ne; [exact Hrow|]. congruence. }
  destruct (history_wf lr df eps ms ml mb ops Hms Hml Hmb Hops) as (s0 & Hs0 & Hwf).
  assert (Hwf0 : wf s0) by (eapply init_wf; eassumption).
  destruct (run_known ops item_id s0 Hwf0 Hops (or_intror Hsched)) as [st Hst].
  destruct (record_result_known (run s0 ops) item_id correct latency_sec
              difficulty load_band st Hwf Hst)
    as (row & q0 & next_row & mx & log & Hrow & Hq0 & Hnext & Hmx & Hlog & Hrec).
  destruct (run_params ops s0) as [Hlr Hdf].
  destruct (init_params _ _ _ _ _ _ _ Hs0) as (Hlr0 & Hdf0 & _).
  rewrite Hlr, Hlr0, Hdf, Hdf0 in Hrec.
  exists s0, st, row, q0, next_row, mx. eexists.
  split; [exact Hs0|]. split; [exact Hst|].
  split; [exact Hrow|]. split; [exact Hq0|]. split; [exact Hnext|].
  split; [exact Hmx|]. split; [exact Hrec|]. simpl.
  split; [reflexivity|].
  split.
  - apply entry_write_cell_eq. apply lookup_lt_Some in Hq0. exact Hq0.
  - intros k a Ha. apply entry_write_cell_ne; [exact Hrow|]. congruence.
Qed.

Lemma record_result_credits_action_0_witness :
  exists s0 st row q0 next_row mx s',
    default_scheduler = Some s0
    /\ let s := run s0 [GetNextInterval 1 1 "high" false
                          {| rnd_random := 0.05; rnd_randint := 3 |}] in
       item_states s !! 1 = Some st
       /\ nd_rows (q_table s) !! get_state_index s st = Some row
       /\ row !! 0%nat = Some q0
       /\ nd_rows (q_table s)
            !! get_state_index s (next_state_of s st true 1.5 "high")
          = Some next_row
       /\ np_max next_row = Some mx
       /\ record_result 1 true 1.5 1 "high" s = Ok tt s'
       /\ q_table s'
          = write_cell (q_table s) (get_state_index s st) 0 row
              (q0 + 0.1 * (calculate_reward true 1.5 (st.1.1.1) "high"
                           + 0.9 * mx - q0))%Q
       /\ entry (q_table s') (get_state_index s st) 0
          = Some (q0 + 0.1 * (calculate_reward true 1.5 (st.1.1.1) "high"
                              + 0.9 * mx - q0))%Q
       /\ (forall k a, a <> 0%nat ->
             entry (q_table s') k a = entry (q_table s) k a).
Proof.
  destruct (record_result_credits_action_0 0.1 0.9 0.1 3 2 2
              [GetNextInterval 1 1 "high" false
                 {| rnd_random := 0.05; rnd_randint := 3 |}]
              1 true 1.5 1 "high") as (_ & _ & H);
    [lia | lia | lia | repeat constructor; simpl; lia
    | apply Exists_cons_hd; reflexivity | exact H].
Defined.

(** C6: a [record_result] on an item with a stored state [st] returns
    after one write to the table: the cell (st, 0) goes from q0 to
    q0 + alpha * (r + gamma * max - q0), where r is the computed reward and
    max the largest value of the row of the new state in the table before
    the call; every other cell keeps its value, and the new state is stored. *)
Theorem record_result_one_step_update lr df eps ms ml mb ops item_id correct
    latency_sec difficulty load_band :
  0 <= ms -> 0 <= ml -> 0 <= mb -> Forall valid_op ops ->
  Exists (schedules item_id) ops ->
  exists s0 st q0 next_row mx s',
    init lr df eps ms ml mb = Some s0
    /\ let s := run s0 ops in
       let r := calculate_reward correct latency_sec (st.1.1.1) load_band in
       let st' := next_state_of s st correct latency_sec load_band in
       item_states s !! item_id = Some st
       /\ entry (q_table s) (get_state_index s st) 0 = Some q0
       /\ nd_row (q_table s) (get_state_index s st') = Some next_row
       /\ np_max next_row = Some mx
       /\ mx ∈ next_row
       /\ (forall x, x ∈ next_row -> (x <= mx)%Q)
       /\ record_result item_id correct latency_sec difficulty load_band s
          = Ok tt s'
       /\ item_states s' !! item_id = Some st'
       /\ entry (q_table s') (get_state_index s st) 0
          = Some (q0 + lr * (r + df * mx - q0))%Q
       /\ (forall k a, (k, a) <> (get_state_index s st, 0%nat) ->
             entry (q_table s') k a = entry (q_table s) k a).
Proof.
  intros Hms Hml Hmb Hops Hsched.
  destruct (history_wf lr df eps ms ml mb ops Hms Hml Hmb Hops) as (s0 & Hs0 & Hwf).
  assert (Hwf0 : wf s0) by (eapply init_wf; eassumption).
  destruct (run_known ops item_id s0 Hwf0 Hops (or_intror Hsched)) as [st Hst].
  destruct (record_result_known (run s0 ops) item_id correct latency_sec
              difficulty load_band st Hwf Hst)
    as (row & q0 & next_row & mx & log & Hrow & Hq0 & Hnext & Hmx & Hlog & Hrec).
  destruct (run_params ops s0) as [Hlr Hdf].
  destruct (init_params _ _ _ _ _ _ _ Hs0) as (Hlr0 & Hdf0 & _).
  rewrite Hlr, Hlr0, Hdf, Hdf0 in Hrec.
  pose proof (wf_states _ Hwf _ _ Hst) as Hvalid.
  pose proof (next_state_valid (run s0 ops) st correct latency_sec load_band
                Hwf Hvalid) as Hvalid'.
  destruct (np_max_spec _ _ Hmx) as [Hmxin Hmxle].
  exists s0, st, q0, next_row, mx. eexists.
  split; [exact Hs0|]. simpl.
  split; [exact Hst|].
  split; [unfold entry; rewrite Hrow; exact Hq0|].
  split; [unfold nd_row;
          rewrite (nd_key_in_range _ _ (state_index_in_range _ _ Hwf Hvalid'));
          exact Hnext|].
  split; [exact Hmx|]. split; [exact Hmxin|]. split; [exact Hmxle|].
  split; [exact Hrec|]. simpl.
  split; [apply lookup_insert_eq|].
  split.
  - apply entry_write_cell_eq. apply lookup_lt_Some in Hq0. exact Hq0.
  - intros k a Hne. apply entry_write_cell_ne; assumption.
Qed.

Lemma record_result_one_step_update_witness :
  exists s0 st q0 next_row mx s',
    default_scheduler = Some s0
    /\ let s := run s0 [GetNextInterval 7 2 "low" false
                          {| rnd_random := 0.5; rnd_randint := 0 |}] in
       let r := calculate_reward true 1.5 (st.1.1.1) "low" in
       let st' := next_state_of s st true 1.5 "low" in
       item_states s !! 7 = Some st
       /\ entry (q_table s) (get_state_index s st) 0 = Some q0
       /\ nd_row (q_table s) (get_state_index s st') = Some next_row
       /\ np_max next_row = Some mx
       /\ mx ∈ next_row
       /\ (forall x, x ∈ next_row -> (x <= mx)%Q)
       /\ record_result 7 true 1.5 2 "low" s = Ok tt s'
       /\ item_states s' !! 7 = Some st'
       /\ entry (q_table s') (get_state_index s st) 0
          = Some (q0 + 0.1 * (r + 0.9 * mx - q0))%Q
       /\ (forall k a, (k, a) <> (get_state_index s st, 0%nat) ->
             entry (q_table s') k a = entry (q_table s) k a).
Proof.
  apply (record_result_one_step_update 0.1 0.9 0.1 3 2 2
           [GetNextInterval 7 2 "low" false
              {| rnd_random := 0.5; rnd_randint := 0 |}] 7 true 1.5 2 "low");
    [lia | lia | lia | repeat constructor; simpl; lia
    | apply Exists_cons_hd; reflexivity].
Defined.

(** C8: the table starts at zero everywhere, every reward lies in
    [-0.8, 1.9], and for a learning rate in (0,1] and a discount factor in
    (0,1) every value stored in the table after any finite sequence of
    calls lies within 1.9 / (1 - gamma) of zero, hence is finite. *)
Theorem q_values_stay_bounded lr df eps ms ml mb ops :
  0 <= ms -> 0 <= ml -> 0 <= mb ->
  (0 < lr)%Q -> (lr <= 1)%Q -> (0 < df)%Q -> (df < 1)%Q ->
  exists s0,
    init lr df eps ms ml mb = Some s0
    /\ (forall k row x, nd_rows (q_table s0) !! k = Some row -> x ∈ row -> x = 0%Q)
    /\ (forall correct latency_sec difficulty load_band,
          (- 0.8 <= calculate_reward correct latency_sec difficulty load_band
           /\ calculate_reward correct latency_sec difficulty load_band <= 1.9)%Q)
    /\ (forall k row x,
          nd_rows (q_table (run s0 ops)) !! k = Some row -> x ∈ row ->
          (- (1.9 / (1 - df)) <= x /\ x <= 1.9 / (1 - df))%Q).
Proof.
  intros Hms Hml Hmb Ha0 Ha1 Hg0 Hg1.
  destruct (init_is_Some lr df eps ms ml mb Hms Hml Hmb) as [s0 Hs0].
  destruct (init_params _ _ _ _ _ _ _ Hs0) as (Hlr0 & Hdf0 & _).
  exists s0. split; [exact Hs0|].
  split; [intros k row x; eapply init_zero; exact Hs0|].
  split; [apply calculate_reward_bounds|].
  assert (Hne : ~ (1 - df == 0)%Q) by (intros H; lra).
  assert (Hbig : (1.9 <= (1 - df) * (1.9 / (1 - df)))%Q).
  { rewrite Qmult_div_r by exact Hne. apply Qle_refl. }
  assert (Hpos : (0 <= 1.9 / (1 - df))%Q).
  { apply Qle_shift_div_l; lra. }
  apply (run_bounded (1.9 / (1 - df))%Q ops s0);
    rewrite ?Hlr0, ?Hdf0; try assumption; try lra.
  intros k row x Hrow Hx.
  rewrite (init_zero _ _ _ _ _ _ _ _ _ _ Hs0 Hrow Hx). split; lra.
Qed.

Lemma q_values_stay_bounded_witness :
  exists s0,
    default_scheduler = Some s0
    /\ (forall k row x, nd_rows (q_table s0) !! k = Some row -> x ∈ row -> x = 0%Q)
    /\ (forall correct latency_sec difficulty load_band,
          (- 0.8 <= calculate_reward correct latency_sec difficulty load_band
           /\ calculate_reward correct latency_sec difficulty load_band <= 1.9)%Q)
    /\ (forall k row x,
          nd_rows (q_table (run s0 [GetNextInterval 7 2 "low" false
                                      {| rnd_random := 0.5; rnd_randint := 0 |};
                                    RecordResult 7 true 1.5 2 "low"])) !! k
          = Some row ->
          x ∈ row ->
          (- (1.9 / (1 - 0.9)) <= x /\ x <= 1.9 / (1 - 0.9))%Q).
Proof.
  apply (q_values_stay_bounded 0.1 0.9 0.1 3 2 2
           [GetNextInterval 7 2 "low" false
              {| rnd_random := 0.5; rnd_randint := 0 |};
            RecordResult 7 true 1.5 2 "low"]);
    [lia | lia | lia | reflexivity | discriminate | reflexivity | reflexivity].
Defined.

(** The difficulty that counts is the stored one: item 5 is created with
    difficulty 1, and a wrong answer recorded with the argument 3 still
    gets the easy-item penalty (-0.5 - 0.3) and keeps difficulty 1. *)
Example record_result_uses_stored_difficulty :
  match default_scheduler with
  | Some s0 =>
      match item_sessions
              (run s0 [GetNextInterval 5 1 "low" true
                         {| rnd_random := 0.5; rnd_randint := 0 |};
                       RecordResult 5 false 6.0 3 "low"]) !! 5 with
      | Some log => map (fun sd => (Qred (sd_reward sd), sd_new_state sd)) log
      | None => []
      end
  | None => []
  end
  = [((-4 # 5)%Q, (1, 0, 2, 1))].
Proof. vm_compute. reflexivity. Qed.

End SchedulerClaims.

(* ===================================================================== *)
(** ** The load model's properties                                        *)
(* ===================================================================== *)

Module SpeechClaims.
Import Py PyFacts LinAlg Inputs.

Lemma Qle_bool_false (x y : Q) : Qle_bool x y = false <-> (y < x)%Q.
Proof.
  split.
  - intros H. apply Qnot_le_lt. intros Hle. apply Qle_bool_iff in Hle. congruence.
  - intros H. destruct (Qle_bool x y) eqn:E; [|reflexivity].
    apply Qle_bool_iff in E. exfalso. exact (Qlt_not_le _ _ H E).
Qed.

(** Turns the tests of a goal on floats into cases with their meaning as
    hypotheses. *)
Ltac float_cases :=
  unfold Qlt_bool;
  repeat match goal with
         | |- context [Qle_bool ?a ?b] =>
             let E := fresh "E" in
             destruct (Qle_bool a b) eqn:E;
             [apply Qle_bool_iff in E|apply Qle_bool_false in E]
         end; simpl.

(** The thresholds of [predict_load_band] applied to the raw score give
    the band the specification assigns to the clipped score. *)
Lemma thresholds_absorb_clip (yhat : Q) :
  (if Qle_bool yhat 1.5 then "low"
   else if Qle_bool yhat 2.5 then "moderate" else "high")
  = Spec.band_of (np_clip yhat 0 5).
Proof.
  unfold np_clip, Qlt_bool.
  destruct (Qle_bool 0 yhat) eqn:H0; [apply Qle_bool_iff in H0|apply Qle_bool_false in H0];
    simpl;
    [destruct (Qle_bool yhat 5) eqn:H5;
       [apply Qle_bool_iff in H5|apply Qle_bool_false in H5]; simpl|];
    unfold Spec.band_of; float_cases; try reflexivity; exfalso; lra.
Qed.

Lemma get_feature_insert_zero (features : gmap string Q) (name n : string) :
  features !! name = None ->
  Speech.get_feature (<[name := 0%Q]> features) n = Speech.get_feature features n.
Proof.
  intros H. unfold Speech.get_feature.
  destruct (decide (n = name)) as [->|Hne].
  - rewrite lookup_insert_eq, H. reflexivity.
  - rewrite lookup_insert_ne by congruence. reflexivity.
Qed.

(** An untrained model is the one case in which [predict_load_band]
    raises. *)
Lemma predict_load_band_untrained (m : Speech.model) (features : gmap string Q) :
  Speech.coefficients m = None ->
  Speech.predict_load_band m features = Speech.Err ValueError.
Proof. intros H. unfold Speech.predict_load_band. rewrite H. reflexivity. Qed.

(** C2 as the code has it: for a trained model with six coefficients,
    [predict_load_band] on a feature dict that lacks [name] does not fail;
    it returns the band it returns with [name] set to 0. The rejection of
    an incomplete dict is the work of the /speech/analyze handler, which
    answers 400 and lists [name]. *)
Theorem predict_load_band_imputes_zero (m : Speech.model) (coeffs : list Q)
    (features : gmap string Q) (name : string) :
  Speech.coefficients m = Some coeffs -> length coeffs = 6%nat ->
  name ∈ Api.required_features -> features !! name = None ->
  (exists band, Speech.predict_load_band m features = Speech.Ok band)
  /\ Speech.predict_load_band m features
     = Speech.predict_load_band m (<[name := 0%Q]> features)
  /\ (exists missing,
        Api.analyze_speech m features = Api.Resp400 missing /\ name ∈ missing).
Proof.
  intros Hc Hlen Hname Hmiss. split; [|split].
  - unfold Speech.predict_load_band. rewrite Hc.
    unfold vec_matmul. simpl. rewrite Hlen. simpl.
    repeat match goal with |- context [if ?c then _ else _] => destruct c end;
      eexists; reflexivity.
  - unfold Speech.predict_load_band, Speech.feature_vector.
    rewrite !get_feature_insert_zero by exact Hmiss. reflexivity.
  - assert (Hin : name ∈ Api.missing_features features).
    { unfold Api.missing_features. apply list_elem_of_filter. auto. }
    unfold Api.analyze_speech.
    destruct (Api.missing_features features) as [|f rest] eqn:E.
    + by apply elem_of_nil in Hin.
    + exists (f :: rest). split; [reflexivity|exact Hin].
Qed.

Lemma predict_load_band_imputes_zero_witness :
  (exists band,
     Speech.predict_load_band trained_model features_without_jitter
     = Speech.Ok band)
  /\ Speech.predict_load_band trained_model features_without_jitter
     = Speech.predict_load_band trained_model
         (<["jitter" := 0%Q]> features_without_jitter)
  /\ (exists missing,
        Api.analyze_speech trained_model features_without_jitter
        = Api.Resp400 missing /\ "jitter" ∈ missing).
Proof.
  apply (predict_load_band_imputes_zero trained_model
           [1.0; 0.01; 0.5; 0.2; 3.0; 0.1]%Q features_without_jitter "jitter");
    [reflexivity | reflexivity
    | unfold Api.required_features; rewrite !elem_of_cons; auto 10
    | vm_compute; reflexivity].
Defined.

(** C2 refuted as stated: a trained model and a feature dict without
    "jitter"; [predict_load_band] returns a band. *)
Lemma predict_load_band_missing_feature_returns :
  features_without_jitter !! "jitter" = None
  /\ Speech.predict_load_band trained_model features_without_jitter
     = Speech.Ok "high".
Proof. split; vm_compute; reflexivity. Qed.

(** C4 as the code has it: [predict_load_band] maps the raw score
    beta . [1, features] with the inclusive thresholds 1.5 and 2.5, which
    is the band of the score clipped to [0, 5], so a raw score of exactly
    1.5 is "low"; [band_from_score] of whoami_general tests [x < 1.5] and
    [x < 3.0], so there a clipped score of exactly 1.5 is "moderate". *)
Theorem band_thresholds_of_both_models (m : Speech.model) (coeffs : list Q)
    (features : gmap string Q) (yhat : Q) :
  Speech.coefficients m = Some coeffs ->
  vec_matmul (Speech.feature_vector features) coeffs = Some yhat ->
  Speech.predict_load_band m features
  = Speech.Ok (Spec.band_of (np_clip yhat 0 5))
  /\ ((yhat == 1.5)%Q -> Speech.predict_load_band m features = Speech.Ok "low")
  /\ (forall x : Q,
        ((x == 1.5)%Q -> WhoAmI.band_from_score (np_clip x 0 5) = "moderate")
        /\ ((x < 1.5)%Q -> WhoAmI.band_from_score x = "low")
        /\ ((1.5 <= x)%Q -> (x < 3.0)%Q -> WhoAmI.band_from_score x = "moderate")
        /\ ((3.0 <= x)%Q -> WhoAmI.band_from_score x = "high")).
Proof.
  intros Hc Hy. split; [|split].
  - unfold Speech.predict_load_band. rewrite Hc, Hy.
    rewrite <- thresholds_absorb_clip.
    repeat match goal with |- context [if ?c then _ else _] => destruct c end;
      reflexivity.
  - intros H15. unfold Speech.predict_load_band. rewrite Hc, Hy.
    float_cases; try reflexivity; exfalso; lra.
  - intros x. unfold WhoAmI.band_from_score. repeat split.
    + intros H15. unfold np_clip, Qlt_bool.
      destruct (Qle_bool 0 x) eqn:H0;
        [apply Qle_bool_iff in H0|apply Qle_bool_false in H0; exfalso; lra].
      destruct (Qle_bool x 5) eqn:H5;
        [apply Qle_bool_iff in H5|apply Qle_bool_false in H5; exfalso; lra].
      simpl. float_cases; try reflexivity; exfalso; lra.
    + intros Hlt. float_cases; try reflexivity; exfalso; lra.
    + intros Hle Hlt. float_cases; try reflexivity; exfalso; lra.
    + intros Hle. float_cases; try reflexivity; exfalso; lra.
Qed.

Lemma band_thresholds_of_both_models_witness :
  Speech.predict_load_band trained_model features_without_jitter
  = Speech.Ok (Spec.band_of (np_clip (1.0 * 1.0 + (120.0 * 0.01 + (0.2 * 0.5
                 + (0.6 * 0.2 + (0 * 3.0 + (4.0 * 0.1 + 0)))))) 0 5))
  /\ WhoAmI.band_from_score (np_clip 1.5 0 5) = "moderate".
Proof.
  destruct (band_thresholds_of_both_models trained_model
              [1.0; 0.01; 0.5; 0.2; 3.0; 0.1]%Q features_without_jitter
              (1.0 * 1.0 + (120.0 * 0.01 + (0.2 * 0.5
                 + (0.6 * 0.2 + (0 * 3.0 + (4.0 * 0.1 + 0))))))%Q)
    as (H1 & _ & H3); [reflexivity | reflexivity |].
  split; [exact H1|]. destruct (H3 1.5%Q) as [H _]. apply H. reflexivity.
Defined.

(** C4 refuted as stated: the model of whoami_general whose raw score is
    1.5 for every input (here: one row of speech features); the score is
    clipped to 1.5 and [band_from_score] answers "moderate", where the
    stated rule answers "low". *)
Lemma raw_score_1_5_is_moderate_in_whoami :
  reduced <$> mapM (fun r => vec_matmul (1%Q :: r) [1.5; 0; 0; 0; 0; 0]%Q)
                [[120.0; 0.2; 0.6; 0.01; 4.0]%Q]
  = Some [(3 # 2)%Q]
  /\ df_values [speech_row] WhoAmI.columns = Some [[120.0; 0.2; 0.6; 0.01; 4.0]%Q]
  /\ WhoAmI.predicted_bands constant_model [speech_row] = Some ["moderate"]
  /\ Spec.predict_band [1.5; 0; 0; 0; 0; 0]%Q [120.0; 0.2; 0.6; 0.01; 4.0]%Q
     = Some "low".
Proof. repeat split; vm_compute; reflexivity. Qed.

(** *** Fitting *)

Lemma column_stack_ones (x : list (list Q)) :
  column_stack (ones (length x)) x = Spec.design_matrix x.
Proof.
  unfold column_stack, ones, Spec.design_matrix.
  induction x as [|r x IH]; simpl; [reflexivity|]. rewrite IH. reflexivity.
Qed.

Lemma mat_mul_length (ncols : nat) (a b : list (list Q)) :
  length (mat_mul ncols a b) = length a.
Proof. unfold mat_mul. apply length_fmap. Qed.

Lemma transpose_length (ncols : nat) (a : list (list Q)) :
  length (transpose ncols a) = ncols.
Proof. unfold transpose. rewrite length_fmap. apply length_seq. Qed.




End SpeechClaims.

(* ===================================================================== *)
(** ** More about the scheduler                                           *)
(* ===================================================================== *)

Module SchedulerMore.
Import Py PyFacts QLearning QLearningFacts QLearningStats.
Local Open Scope py_scope.

(** *** Invariants along a history *)

Lemma run_invariant (P : scheduler -> Prop) :
  (forall s o, wf s -> valid_op o -> P s -> P (run_op s o)) ->
  forall ops s, wf s -> Forall valid_op ops -> P s -> P (run s ops).
Proof.
  intros Hstep ops. induction ops as [|o ops IH]; intros s Hwf Hops HP; simpl;
    [exact HP|].
  apply Forall_cons in Hops as [Ho Hops].
  apply IH; [apply run_op_wf; assumption|exact Hops|apply Hstep; assumption].
Qed.

Lemma history_invariant (P : scheduler -> Prop) lr df eps ms ml mb ops :
  0 <= ms -> 0 <= ml -> 0 <= mb -> Forall valid_op ops ->
  (forall s0, init lr df eps ms ml mb = Some s0 -> P s0) ->
  (forall s o, wf s -> valid_op o -> P s -> P (run_op s o)) ->
  exists s0,
    init lr df eps ms ml mb = Some s0 /\ wf (run s0 ops) /\ P (run s0 ops).
Proof.
  intros Hms Hml Hmb Hops Hinit Hstep.
  destruct (history_wf lr df eps ms ml mb ops Hms Hml Hmb Hops) as (s0 & Hs0 & Hwf).
  exists s0. split; [exact Hs0|]. split; [exact Hwf|].
  apply run_invariant; [exact Hstep| |exact Hops|apply Hinit, Hs0].
  eapply init_wf; eassumption.
Qed.

Lemma init_empty lr df eps ms ml mb s0 :
  init lr df eps ms ml mb = Some s0 ->
  item_states s0 = ∅ /\ item_sessions s0 = ∅.
Proof.
  unfold init. destruct (np_zeros _ _); simpl; [|discriminate].
  intros [= <-]. auto.
Qed.

(** The hyper-parameters of an object never change. *)
Lemma run_op_hyper (s : scheduler) (o : op) :
  wf s -> valid_op o ->
  epsilon (run_op s o) = epsilon s /\ max_streak (run_op s o) = max_streak s.
Proof.
  intros Hwf Ho. destruct o as [i d lb fe rnd|i c l d lb]; simpl.
  - rewrite get_next_interval_final. unfold scheduled.
    destruct (item_states s !! i); simpl; auto.
  - destruct (item_states s !! i) as [st|] eqn:Hst.
    + destruct (record_result_known s i c l d lb st Hwf Hst)
        as (row & q0 & next_row & mx & log & _ & _ & _ & _ & _ & ->).
      simpl. auto.
    + rewrite record_result_unknown by exact Hst. auto.
Qed.

Lemma chain_snoc (log : list session_data) :
  forall start finish sd,
    chain start log finish -> sd_old_state sd = finish ->
    chain start (log ++ [sd]) (sd_new_state sd).
Proof.
  induction log as [|x log IH]; intros start finish sd Hc Hsd; simpl in *.
  - subst. auto.
  - destruct Hc as [Hx Hc]. split; [exact Hx|]. eapply IH; eassumption.
Qed.

Lemma faithful_hyper (s s' : scheduler) (sd : session_data) :
  max_streak s' = max_streak s -> faithful s sd -> faithful s' sd.
Proof.
  intros Hms [lb Hsd]. exists lb. rewrite Hsd at 1.
  unfold session_of, next_state_of. rewrite Hms. reflexivity.
Qed.

Lemma trailing_correct_snoc (log : list session_data) (sd : session_data) :
  trailing_correct (log ++ [sd])
  = if sd_correct sd then trailing_correct log + 1 else 0.
Proof. unfold trailing_correct. rewrite fold_left_app. reflexivity. Qed.

Lemma trailing_correct_nonneg (log : list session_data) :
  0 <= trailing_correct log <= Z.of_nat (length log).
Proof.
  induction log as [|sd log IH] using rev_ind; [simpl; unfold trailing_correct; simpl; lia|].
  rewrite trailing_correct_snoc, length_app. simpl.
  destruct (sd_correct sd); lia.
Qed.

Lemma get_latency_bin_range (latency_sec : Q) : 0 <= get_latency_bin latency_sec <= 2.
Proof. unfold get_latency_bin. repeat destruct (Qle_bool _ _); lia. Qed.

Lemma log_invariant_step (s : scheduler) (o : op) :
  wf s -> valid_op o -> log_invariant s -> log_invariant (run_op s o).
Proof.
  intros Hwf Ho Hinv. pose proof (wf_max_streak _ Hwf) as Hms.
  destruct o as [i d lb fe rnd|i c l d lb]; simpl.
  - rewrite get_next_interval_final. unfold scheduled.
    destruct (item_states s !! i) as [st0|] eqn:Hst0; [exact Hinv|].
    intros j st Hj. simpl in Hj. destruct (decide (j = i)) as [->|Hne].
    + rewrite lookup_insert_eq in Hj. injection Hj as <-.
      exists [], (get_load_band_index lb). simpl. rewrite lookup_insert_eq.
      pose proof (get_load_band_index_pos lb).
      repeat split; try reflexivity; try lia; [constructor|].
      unfold trailing_correct. simpl. lia.
    + rewrite lookup_insert_ne in Hj by congruence.
      destruct (Hinv j st Hj) as (log & b0 & Hlog & Hc & Hf & Hk & Hl & Hb).
      exists log, b0. simpl. rewrite lookup_insert_ne by congruence.
      repeat split; try assumption; try lia.
  - destruct (item_states s !! i) as [st0|] eqn:Hst0.
    + destruct (record_result_known s i c l d lb st0 Hwf Hst0)
        as (row & q0 & next_row & mx & log0 & _ & _ & _ & _ & Hlog0 & ->).
      simpl. intros j st Hj. simpl in Hj.
      destruct (decide (j = i)) as [->|Hne].
      * rewrite lookup_insert_eq in Hj. injection Hj as <-.
        destruct (Hinv i st0 Hst0) as (log & b0 & Hlog & Hc & Hf & Hk & Hl & Hb).
        rewrite Hlog0 in Hlog. injection Hlog as <-.
        exists (log0 ++ [session_of s st0 c l lb]), b0. simpl.
        rewrite lookup_insert_eq.
        destruct st0 as [[[d0 k0] l0] b1]. simpl in *.
        split; [reflexivity|].
        split; [eapply (chain_snoc log0 _ _ (session_of s (d0, k0, l0, b1) c l lb));
                [exact Hc|reflexivity]|].
        split.
        { apply Forall_app. split.
          - eapply Forall_impl; [exact Hf|]. intros sd. apply faithful_hyper.
            reflexivity.
          - constructor; [|constructor]. exists lb. reflexivity. }
        split.
        { rewrite trailing_correct_snoc. simpl.
          pose proof (trailing_correct_nonneg log0). destruct c; lia. }
        pose proof (get_latency_bin_range l).
        pose proof (get_load_band_index_pos lb). lia.
      * rewrite lookup_insert_ne in Hj by congruence.
        destruct (Hinv j st Hj) as (log & b0 & Hlog & Hc & Hf & Hk & Hl & Hb).
        exists log, b0. simpl. rewrite lookup_insert_ne by congruence.
        repeat split; try assumption; try lia.
    + rewrite record_result_unknown by exact Hst0. exact Hinv.
Qed.

Lemma history_log_invariant lr df eps ms ml mb ops :
  0 <= ms -> 0 <= ml -> 0 <= mb -> Forall valid_op ops ->
  exists s0,
    init lr df eps ms ml mb = Some s0
    /\ wf (run s0 ops) /\ log_invariant (run s0 ops).
Proof.
  intros Hms Hml Hmb Hops.
  apply history_invariant; try assumption.
  - intros s0 Hs0 j st Hj. destruct (init_empty _ _ _ _ _ _ _ Hs0) as [He _].
    rewrite He, lookup_empty in Hj. discriminate.
  - apply log_invariant_step.
Qed.

Lemma history_hyper lr df eps ms ml mb ops :
  0 <= ms -> 0 <= ml -> 0 <= mb -> Forall valid_op ops ->
  exists s0,
    init lr df eps ms ml mb = Some s0
    /\ wf (run s0 ops)
    /\ (epsilon (run s0 ops) = eps /\ max_streak (run s0 ops) = ms).
Proof.
  intros Hms Hml Hmb Hops.
  apply (history_invariant (fun s => epsilon s = eps /\ max_streak s = ms));
    try assumption.
  - intros s0 Hs0. destruct (init_params _ _ _ _ _ _ _ Hs0) as (_ & _ & He & Hm & _).
    auto.
  - intros s o Hwf Ho [He Hm].
    destruct (run_op_hyper s o Hwf Ho) as [-> ->]. auto.
Qed.

(** X1: the session logs are a faithful trace of the state map. After any
    history of calls with difficulties in {1,2,3}, every item with a state
    has a log; the log leads, entry by entry, from the state the item was
    created with (its difficulty, streak 0, latency bin 1) to its present
    state, and every entry holds the reward and the new state that
    [record_result] computes from the entry's old state. *)
Theorem session_log_traces_state lr df eps ms ml mb ops :
  0 <= ms -> 0 <= ml -> 0 <= mb -> Forall valid_op ops ->
  exists s0,
    init lr df eps ms ml mb = Some s0
    /\ forall item_id st,
         item_states (run s0 ops) !! item_id = Some st ->
         exists log b0,
           item_sessions (run s0 ops) !! item_id = Some log
           /\ chain (st.1.1.1, 0, 1, b0) log st
           /\ Forall (fun sd =>
                        exists load_band,
                          sd_reward sd
                          = calculate_reward (sd_correct sd) (sd_latency_sec sd)
                              ((sd_old_state sd).1.1.1) load_band
                          /\ sd_new_state sd
                             = next_state_of (run s0 ops) (sd_old_state sd)
                                 (sd_correct sd) (sd_latency_sec sd) load_band)
                log.
Proof.
  intros Hms Hml Hmb Hops.
  destruct (history_log_invariant lr df eps ms ml mb ops Hms Hml Hmb Hops)
    as (s0 & Hs0 & _ & Hinv).
  exists s0. split; [exact Hs0|]. intros i st Hst.
  destruct (Hinv i st Hst) as (log & b0 & Hlog & Hc & Hf & _).
  exists log, b0. split; [exact Hlog|]. split; [exact Hc|].
  eapply Forall_impl; [exact Hf|]. intros sd [lb Hsd]. exists lb.
  pose proof (f_equal sd_reward Hsd) as Hr.
  pose proof (f_equal sd_new_state Hsd) as Hn.
  simpl in Hr, Hn. split; assumption.
Qed.

Lemma session_log_traces_state_witness :
  exists s0,
    default_scheduler = Some s0
    /\ forall item_id st,
         item_states
           (run s0 [GetNextInterval 7 2 "low" false
                      {| rnd_random := 0.5; rnd_randint := 0 |};
                    RecordResult 7 true 1.5 2 "low";
                    RecordResult 7 false 6.0 2 "high"]) !! item_id = Some st ->
         exists log b0,
           item_sessions
             (run s0 [GetNextInterval 7 2 "low" false
                        {| rnd_random := 0.5; rnd_randint := 0 |};
                      RecordResult 7 true 1.5 2 "low";
                      RecordResult 7 false 6.0 2 "high"]) !! item_id = Some log
           /\ chain (st.1.1.1, 0, 1, b0) log st
           /\ Forall (fun sd =>
                        exists load_band,
                          sd_reward sd
                          = calculate_reward (sd_correct sd) (sd_latency_sec sd)
                              ((sd_old_state sd).1.1.1) load_band
                          /\ sd_new_state sd
                             = next_state_of
                                 (run s0 [GetNextInterval 7 2 "low" false
                                            {| rnd_random := 0.5; rnd_randint := 0 |};
                                          RecordResult 7 true 1.5 2 "low";
                                          RecordResult 7 false 6.0 2 "high"])
                                 (sd_old_state sd)
                                 (sd_correct sd) (sd_latency_sec sd) load_band)
                log.
Proof.
  apply (session_log_traces_state 0.1 0.9 0.1 3 2 2
           [GetNextInterval 7 2 "low" false
              {| rnd_random := 0.5; rnd_randint := 0 |};
            RecordResult 7 true 1.5 2 "low";
            RecordResult 7 false 6.0 2 "high"]);
    [lia | lia | lia | repeat constructor; simpl; lia].
Defined.

(** X2: the stored state never leaves the table's range and its streak
    is the number of correct answers at the end of the item's log, capped
    at [max_streak]: after any history of calls with difficulties in
    {1,2,3}, a stored state has difficulty in 1..3, streak in
    0..max_streak, latency bin in 0..2 and band index in 1..3. *)
Theorem stored_state_in_range lr df eps ms ml mb ops :
  0 <= ms -> 0 <= ml -> 0 <= mb -> Forall valid_op ops ->
  exists s0,
    init lr df eps ms ml mb = Some s0
    /\ forall item_id st,
         item_states (run s0 ops) !! item_id = Some st ->
         exists log,
           item_sessions (run s0 ops) !! item_id = Some log
           /\ st.1.1.2 = Z.min (trailing_correct log) ms
           /\ 1 <= st.1.1.1 <= 3
           /\ 0 <= st.1.1.2 <= ms
           /\ 0 <= st.1.2 <= 2
           /\ 1 <= st.2 <= 3.
Proof.
  intros Hms Hml Hmb Hops.
  destruct (history_invariant
              (fun s => log_invariant s /\ max_streak s = ms
                        /\ forall i st, item_states s !! i = Some st ->
                                        1 <= st.1.1.1 <= 3)
              lr df eps ms ml mb ops Hms Hml Hmb Hops)
    as (s0 & Hs0 & Hwf & Hinv & Hmax & Hdiff).
  - intros s0 Hs0. destruct (init_empty _ _ _ _ _ _ _ Hs0) as [He _].
    destruct (init_params _ _ _ _ _ _ _ Hs0) as (_ & _ & _ & Hm & _).
    split; [|split; [exact Hm|]]; intros j st Hj;
      rewrite He, lookup_empty in Hj; discriminate.
  - intros s o Hwf Ho (Hinv & Hmax & Hdiff).
    split; [apply log_invariant_step; assumption|].
    destruct (run_op_hyper s o Hwf Ho) as [_ ->]. split; [exact Hmax|].
    destruct o as [i d lb fe rnd|i c l d lb]; simpl in *.
    + rewrite get_next_interval_final. unfold scheduled.
      destruct (item_states s !! i) eqn:E; [exact Hdiff|]. simpl.
      intros j st Hj. destruct (decide (j = i)) as [->|Hne].
      * rewrite lookup_insert_eq in Hj. injection Hj as <-. simpl. lia.
      * rewrite lookup_insert_ne in Hj by congruence. eauto.
    + destruct (item_states s !! i) as [st0|] eqn:Hst0.
      * destruct (record_result_known s i c l d lb st0 Hwf Hst0)
          as (row & q0 & next_row & mx & log0 & _ & _ & _ & _ & _ & ->).
        simpl. intros j st Hj. destruct (decide (j = i)) as [->|Hne].
        -- rewrite lookup_insert_eq in Hj. injection Hj as <-.
           specialize (Hdiff i st0 Hst0). destruct st0 as [[[d0 k0] l0] b0].
           simpl in *. exact Hdiff.
        -- rewrite lookup_insert_ne in Hj by congruence. eauto.
      * rewrite record_result_unknown by exact Hst0. exact Hdiff.
  - exists s0. split; [exact Hs0|]. intros item_id st Hst.
    destruct (Hinv item_id st Hst) as (log & b0 & Hlog & _ & _ & Hk & Hl & Hb).
    rewrite Hmax in Hk. exists log.
    pose proof (trailing_correct_nonneg log).
    specialize (Hdiff item_id st Hst).
    repeat split; try assumption; lia.
Qed.

Lemma stored_state_in_range_witness :
  exists s0,
    default_scheduler = Some s0
    /\ forall item_id st,
         item_states
           (run s0 [GetNextInterval 7 2 "low" false
                      {| rnd_random := 0.5; rnd_randint := 0 |};
                    RecordResult 7 true 1.5 2 "low"]) !! item_id = Some st ->
         exists log,
           item_sessions
             (run s0 [GetNextInterval 7 2 "low" false
                        {| rnd_random := 0.5; rnd_randint := 0 |};
                      RecordResult 7 true 1.5 2 "low"]) !! item_id = Some log
           /\ st.1.1.2 = Z.min (trailing_correct log) 3
           /\ 1 <= st.1.1.1 <= 3
           /\ 0 <= st.1.1.2 <= 3
           /\ 0 <= st.1.2 <= 2
           /\ 1 <= st.2 <= 3.
Proof.
  apply (stored_state_in_range 0.1 0.9 0.1 3 2 2
           [GetNextInterval 7 2 "low" false
              {| rnd_random := 0.5; rnd_randint := 0 |};
            RecordResult 7 true 1.5 2 "low"]);
    [lia | lia | lia | repeat constructor; simpl; lia].
Defined.

(** *** What [get_next_interval] looks at *)

Lemma run_app (ops1 ops2 : list op) (s : scheduler) :
  run s (ops1 ++ ops2) = run (run s ops1) ops2.
Proof. unfold run. apply fold_left_app. Qed.

Lemma run_op_keeps_difficulty (s : scheduler) (o : op) (item_id : Z) (st : state) :
  wf s -> item_states s !! item_id = Some st ->
  exists st', item_states (run_op s o) !! item_id = Some st' /\ st'.1.1.1 = st.1.1.1.
Proof.
  intros Hwf Hst. destruct o as [i d lb fe rnd|i c l d lb]; simpl.
  - rewrite get_next_interval_final. unfold scheduled.
    destruct (item_states s !! i) eqn:E; [eauto|]. simpl.
    exists st. split; [|reflexivity].
    rewrite lookup_insert_ne by congruence. exact Hst.
  - destruct (item_states s !! i) as [st0|] eqn:Hst0.
    + destruct (record_result_known s i c l d lb st0 Hwf Hst0)
        as (row & q0 & next_row & mx & log0 & _ & _ & _ & _ & _ & ->).
      simpl. destruct (decide (item_id = i)) as [->|Hne].
      * rewrite lookup_insert_eq. eexists. split; [reflexivity|].
        rewrite Hst0 in Hst. injection Hst as ->.
        destruct st as [[[d0 k0] l0] b0]. reflexivity.
      * rewrite lookup_insert_ne by congruence. eauto.
    + rewrite record_result_unknown by exact Hst0. eauto.
Qed.

Lemma run_keeps_difficulty (ops : list op) (item_id : Z) :
  forall s st,
    wf s -> Forall valid_op ops -> item_states s !! item_id = Some st ->
    exists st', item_states (run s ops) !! item_id = Some st' /\ st'.1.1.1 = st.1.1.1.
Proof.
  induction ops as [|o ops IH]; intros s st Hwf Hops Hst; simpl; [eauto|].
  apply Forall_cons in Hops as [Ho Hops].
  destruct (run_op_keeps_difficulty s o item_id st Hwf Hst) as (st1 & Hst1 & <-).
  apply IH; [apply run_op_wf; assumption|exact Hops|exact Hst1].
Qed.

(** X3: the difficulty of an item is fixed by the [get_next_interval]
    call that creates it: whatever calls follow (with whatever difficulty
    arguments in {1,2,3}), the stored difficulty stays the one of that
    first call. *)
Theorem difficulty_fixed_at_creation lr df eps ms ml mb ops1 ops2 item_id
    difficulty load_band force_exploit rnd :
  0 <= ms -> 0 <= ml -> 0 <= mb ->
  Forall valid_op ops1 -> Forall valid_op ops2 -> 1 <= difficulty <= 3 ->
  Forall (fun o => ~ schedules item_id o) ops1 ->
  exists s0 st,
    init lr df eps ms ml mb = Some s0
    /\ item_states
         (run s0 (ops1 ++ GetNextInterval item_id difficulty load_band
                            force_exploit rnd :: ops2)) !! item_id
       = Some st
    /\ st.1.1.1 = difficulty.
Proof.
  intros Hms Hml Hmb Hops1 Hops2 Hd Hnew.
  destruct (history_wf lr df eps ms ml mb ops1 Hms Hml Hmb Hops1) as (s0 & Hs0 & Hwf).
  destruct (init_empty _ _ _ _ _ _ _ Hs0) as [He _].
  assert (Hunknown : item_states (run s0 ops1) !! item_id = None).
  { apply run_unknown; [rewrite He; apply lookup_empty|exact Hnew]. }
  set (s1 := run_op (run s0 ops1)
               (GetNextInterval item_id difficulty load_band force_exploit rnd)).
  assert (Hwf1 : wf s1) by (apply run_op_wf; [exact Hwf|exact Hd]).
  assert (Hst1 : item_states s1 !! item_id
                 = Some (difficulty, 0, 1, get_load_band_index load_band)).
  { unfold s1. simpl. rewrite get_next_interval_final. unfold scheduled.
    rewrite Hunknown. simpl. apply lookup_insert_eq. }
  destruct (run_keeps_difficulty ops2 item_id s1 _ Hwf1 Hops2 Hst1)
    as (st & Hst & Hdiff).
  exists s0, st. split; [exact Hs0|]. rewrite run_app. simpl. fold s1.
  split; [exact Hst|exact Hdiff].
Qed.

Lemma difficulty_fixed_at_creation_witness :
  exists s0 st,
    default_scheduler = Some s0
    /\ item_states
         (run s0 ([GetNextInterval 3 1 "low" false
                     {| rnd_random := 0.5; rnd_randint := 0 |}]
                  ++ GetNextInterval 7 2 "low" false
                       {| rnd_random := 0.5; rnd_randint := 0 |}
                     :: [RecordResult 7 true 1.5 3 "low";
                         GetNextInterval 7 1 "high" false
                           {| rnd_random := 0.5; rnd_randint := 0 |}])) !! 7
       = Some st
    /\ st.1.1.1 = 2.
Proof.
  apply (difficulty_fixed_at_creation 0.1 0.9 0.1 3 2 2
           [GetNextInterval 3 1 "low" false
              {| rnd_random := 0.5; rnd_randint := 0 |}]
           [RecordResult 7 true 1.5 3 "low";
            GetNextInterval 7 1 "high" false
              {| rnd_random := 0.5; rnd_randint := 0 |}]
           7 2 "low" false {| rnd_random := 0.5; rnd_randint := 0 |});
    [lia | lia | lia | repeat constructor; simpl; lia
    | repeat constructor; simpl; lia | lia | repeat constructor; simpl; lia].
Defined.

(** X4: for an item that already has a state, [get_next_interval] does
    not look at its [difficulty] and [load_band] arguments and does not
    change the object: the interval comes from the stored state alone (so
    the load band that counts is the one of the last recorded result). *)
Theorem known_item_ignores_arguments lr df eps ms ml mb ops item_id
    difficulty1 load_band1 difficulty2 load_band2 force_exploit rnd :
  0 <= ms -> 0 <= ml -> 0 <= mb -> Forall valid_op ops ->
  Exists (schedules item_id) ops ->
  exists s0,
    init lr df eps ms ml mb = Some s0
    /\ get_next_interval item_id difficulty1 load_band1 force_exploit rnd
         (run s0 ops)
       = get_next_interval item_id difficulty2 load_band2 force_exploit rnd
           (run s0 ops)
    /\ final (get_next_interval item_id difficulty1 load_band1 force_exploit rnd
                (run s0 ops))
       = run s0 ops.
Proof.
  intros Hms Hml Hmb Hops Hsched.
  destruct (history_wf lr df eps ms ml mb ops Hms Hml Hmb Hops) as (s0 & Hs0 & Hwf).
  assert (Hwf0 : wf s0) by (eapply init_wf; eassumption).
  destruct (run_known ops item_id s0 Hwf0 Hops (or_intror Hsched)) as [st Hst].
  exists s0. split; [exact Hs0|]. split.
  - unfold get_next_interval. run_py. rewrite Hst. reflexivity.
  - rewrite get_next_interval_final. unfold scheduled. rewrite Hst. reflexivity.
Qed.

Lemma known_item_ignores_arguments_witness :
  exists s0,
    default_scheduler = Some s0
    /\ get_next_interval 7 2 "low" true {| rnd_random := 0.5; rnd_randint := 0 |}
         (run s0 [GetNextInterval 7 2 "low" false
                    {| rnd_random := 0.5; rnd_randint := 0 |}])
       = get_next_interval 7 3 "high" true {| rnd_random := 0.5; rnd_randint := 0 |}
           (run s0 [GetNextInterval 7 2 "low" false
                      {| rnd_random := 0.5; rnd_randint := 0 |}])
    /\ final (get_next_interval 7 2 "low" true
                {| rnd_random := 0.5; rnd_randint := 0 |}
                (run s0 [GetNextInterval 7 2 "low" false
                           {| rnd_random := 0.5; rnd_randint := 0 |}]))
       = run s0 [GetNextInterval 7 2 "low" false
                   {| rnd_random := 0.5; rnd_randint := 0 |}].
Proof.
  apply (known_item_ignores_arguments 0.1 0.9 0.1 3 2 2
           [GetNextInterval 7 2 "low" false
              {| rnd_random := 0.5; rnd_randint := 0 |}]
           7 2 "low" 3 "high" true {| rnd_random := 0.5; rnd_randint := 0 |});
    [lia | lia | lia | repeat constructor; simpl; lia
    | apply Exists_cons_hd; reflexivity].
Defined.

Lemma get_next_interval_unfold (s : scheduler) item_id difficulty load_band
    force_exploit rnd (st : state) :
  item_states (scheduled item_id difficulty load_band s) !! item_id = Some st ->
  get_next_interval item_id difficulty load_band force_exploit rnd s
  = match choose_action st item_id force_exploit rnd
            (scheduled item_id difficulty load_band s) with
    | Ok a s2 =>
        match list_index (actions s2) a with
        | Some interval => Ok interval s2
        | None => Raise IndexError s2
        end
    | Raise e s2 => Raise e s2
    end.
Proof.
  unfold get_next_interval, scheduled.
  destruct (item_states s !! item_id) as [st0|] eqn:E.
  - intros Hst. rewrite E in Hst. injection Hst as ->.
    unfold bind, self_, ret, or_raise, raise. simpl. rewrite E.
    destruct (choose_action st item_id force_exploit rnd s) as [a s2|e s2];
      [|reflexivity].
    destruct (list_index (actions s2) a); reflexivity.
  - simpl. rewrite lookup_insert_eq. intros [= <-].
    unfold bind, self_, ret, or_raise, raise, assign. simpl. rewrite E. simpl.
    match goal with |- context [choose_action ?st0 _ _ _ ?s1] =>
      destruct (choose_action st0 item_id force_exploit rnd s1) as [a s2|e s2]
    end; [|reflexivity].
    destruct (list_index (actions s2) a); reflexivity.
Qed.

Lemma choose_action_explore (s : scheduler) (st : state) item_id rnd :
  Qlt_bool (rnd_random rnd) (epsilon s) = true ->
  choose_action st item_id false rnd s
  = Ok (if 3 <=? st.1.1.1 then Z.min (rnd_randint rnd) 2 else rnd_randint rnd) s.
Proof.
  intros H. destruct st as [[[d k] l] b]. unfold choose_action.
  unfold bind, self_, ret. simpl. rewrite H. simpl.
  rewrite orb_false_r, andb_false_r. reflexivity.
Qed.

Lemma scheduled_hyper (s : scheduler) item_id difficulty load_band :
  epsilon (scheduled item_id difficulty load_band s) = epsilon s
  /\ q_table (scheduled item_id difficulty load_band s) = q_table s
  /\ actions (scheduled item_id difficulty load_band s) = actions s.
Proof. unfold scheduled. destruct (item_states s !! item_id); simpl; auto. Qed.

Lemma action_interval (a : Z) :
  0 <= a < 4 ->
  exists interval,
    list_index [30; 60; 120; 240] a = Some interval
    /\ [30; 60; 120; 240] !! Z.to_nat a = Some interval.
Proof.
  intros Ha. rewrite list_index_in_range by (simpl; lia).
  destruct (Z.to_nat a) as [|[|[|[|n]]]] eqn:En; simpl;
    [eexists; split; reflexivity..|lia].
Qed.

(** X5: when it explores, [get_next_interval] returns the interval of the
    drawn index as it is, except that a stored difficulty of 3 turns index
    3 into index 2. Neither the stored load band nor the streak changes
    the drawn index: the rule "at least one minute for easy items with a
    streak" never applies. *)
Theorem exploring_returns_drawn_interval lr df eps ms ml mb ops item_id
    difficulty load_band rnd :
  0 <= ms -> 0 <= ml -> 0 <= mb -> Forall valid_op ops ->
  1 <= difficulty <= 3 -> valid_draw rnd -> (rnd_random rnd < eps)%Q ->
  exists s0 st interval s',
    init lr df eps ms ml mb = Some s0
    /\ get_next_interval item_id difficulty load_band false rnd (run s0 ops)
       = Ok interval s'
    /\ item_states s' !! item_id = Some st
    /\ [30; 60; 120; 240]
         !! Z.to_nat (if 3 <=? st.1.1.1 then Z.min (rnd_randint rnd) 2
                      else rnd_randint rnd)
       = Some interval.
Proof.
  intros Hms Hml Hmb Hops Hd Hrnd Hlt.
  destruct (history_hyper lr df eps ms ml mb ops Hms Hml Hmb Hops)
    as (s0 & Hs0 & Hwf & Heps & _).
  set (s := run s0 ops) in *.
  pose proof (scheduled_wf s item_id difficulty load_band Hwf (proj1 Hd)) as Hwf1.
  destruct (scheduled_lookup s item_id difficulty load_band) as (st & Hst & _).
  destruct (scheduled_hyper s item_id difficulty load_band) as (He1 & _ & _).
  unfold valid_draw in Hrnd.
  set (a := if 3 <=? st.1.1.1 then Z.min (rnd_randint rnd) 2 else rnd_randint rnd).
  assert (Ha : 0 <= a < 4) by (unfold a; destruct (3 <=? st.1.1.1); lia).
  destruct (action_interval a Ha) as (interval & Hidx & Hlook).
  exists s0, st, interval, (scheduled item_id difficulty load_band s).
  split; [exact Hs0|]. split; [|split; [exact Hst|exact Hlook]].
  rewrite (get_next_interval_unfold _ _ _ _ _ _ _ Hst).
  rewrite choose_action_explore
    by (rewrite He1, Heps; apply Qlt_bool_iff; exact Hlt).
  fold a. rewrite (wf_actions _ Hwf1), Hidx. reflexivity.
Qed.

Lemma exploring_returns_drawn_interval_witness :
  exists s0 st interval s',
    default_scheduler = Some s0
    /\ get_next_interval 7 1 "low" false {| rnd_random := 0.05; rnd_randint := 0 |}
         (run s0 [GetNextInterval 7 1 "low" true
                    {| rnd_random := 0.5; rnd_randint := 0 |};
                  RecordResult 7 true 1.5 1 "low";
                  RecordResult 7 true 1.5 1 "low"])
       = Ok interval s'
    /\ item_states s' !! 7 = Some st
    /\ [30; 60; 120; 240]
         !! Z.to_nat (if 3 <=? st.1.1.1 then Z.min 0 2 else 0)
       = Some interval.
Proof.
  apply (exploring_returns_drawn_interval 0.1 0.9 0.1 3 2 2
           [GetNextInterval 7 1 "low" true
              {| rnd_random := 0.5; rnd_randint := 0 |};
            RecordResult 7 true 1.5 1 "low";
            RecordResult 7 true 1.5 1 "low"]
           7 1 "low" {| rnd_random := 0.05; rnd_randint := 0 |});
    [lia | lia | lia | repeat constructor; simpl; lia | lia
    | unfold valid_draw; simpl; lia | reflexivity].
Defined.

(** *** What exploitation can return *)

Lemma only_action_0_step (s : scheduler) (o : op) :
  wf s -> valid_op o ->
  only_action_0 (q_table s) -> only_action_0 (q_table (run_op s o)).
Proof.
  intros Hwf Ho Hz. destruct o as [i d lb fe rnd|i c l d lb]; simpl.
  - rewrite get_next_interval_final.
    destruct (scheduled_hyper s i d lb) as (_ & -> & _). exact Hz.
  - destruct (item_states s !! i) as [st0|] eqn:Hst0.
    + destruct (record_result_known s i c l d lb st0 Hwf Hst0)
        as (row & q0 & next_row & mx & log0 & Hrow & _ & _ & _ & _ & ->).
      simpl. intros k row' a x. unfold write_cell. simpl.
      destruct (decide (k = get_state_index s st0)) as [->|Hne].
      * rewrite lookup_insert_eq. intros [= <-].
        rewrite list_lookup_insert_ne by lia. apply (Hz _ _ _ _ Hrow).
      * rewrite lookup_insert_ne by congruence. apply Hz.
    + rewrite record_result_unknown by exact Hst0. exact Hz.
Qed.

Lemma choose_action_exploit (s : scheduler) (st : state) item_id force_exploit rnd :
  wf s -> valid_state st -> only_action_0 (q_table s) ->
  negb force_exploit && Qlt_bool (rnd_random rnd) (epsilon s) = false ->
  exists a, choose_action st item_id force_exploit rnd s = Ok a s /\ (a = 0 \/ a = 1).
Proof.
  intros Hwf Hst Hz Hcond.
  destruct (state_row _ _ Hwf Hst) as (row & Hrow & Hrows & Hlen).
  destruct row as [|x0 [|x1 [|x2 [|x3 [|x4 row]]]]]; try discriminate Hlen.
  pose proof (Hz _ _ 0%nat x1 Hrows eq_refl) as ->.
  pose proof (Hz _ _ 1%nat x2 Hrows eq_refl) as ->.
  pose proof (Hz _ _ 2%nat x3 Hrows eq_refl) as ->.
  destruct st as [[[d k] l] b]. unfold choose_action.
  unfold bind, self_, ret, or_raise. simpl. rewrite Hcond.
  simpl in Hrow. rewrite Hrow. simpl.
  rewrite orb_false_r, andb_false_r.
  destruct (Qlt_bool x0 0) eqn:E; simpl; destruct (3 <=? d); simpl; eauto.
Qed.

(** X6: when it exploits, the scheduler only ever returns 30 or 60
    seconds. [record_result] writes action index 0 only, so the values of
    the other actions stay 0 and the arg-max of a row is index 0, or
    index 1 once the first value is negative. *)
Theorem exploiting_returns_30_or_60 lr df eps ms ml mb ops item_id difficulty
    load_band force_exploit rnd :
  0 <= ms -> 0 <= ml -> 0 <= mb -> Forall valid_op ops ->
  1 <= difficulty <= 3 ->
  force_exploit = true \/ (eps <= rnd_random rnd)%Q ->
  exists s0 interval s',
    init lr df eps ms ml mb = Some s0
    /\ get_next_interval item_id difficulty load_band force_exploit rnd
         (run s0 ops)
       = Ok interval s'
    /\ (interval = 30 \/ interval = 60).
Proof.
  intros Hms Hml Hmb Hops Hd Hexploit.
  destruct (history_invariant
              (fun s => only_action_0 (q_table s) /\ epsilon s = eps)
              lr df eps ms ml mb ops Hms Hml Hmb Hops)
    as (s0 & Hs0 & Hwf & Hz & Heps).
  - intros s0 Hs0. destruct (init_params _ _ _ _ _ _ _ Hs0) as (_ & _ & He & _).
    split; [|exact He]. intros k row a x Hrow Hx.
    eapply init_zero; [exact Hs0|exact Hrow|].
    eapply list_elem_of_lookup_2. exact Hx.
  - intros s o Hwf Ho [Hz He].
    split; [apply only_action_0_step; assumption|].
    destruct (run_op_hyper s o Hwf Ho) as [-> _]. exact He.
  - set (s := run s0 ops) in *.
    pose proof (scheduled_wf s item_id difficulty load_band Hwf (proj1 Hd)) as Hwf1.
    destruct (scheduled_lookup s item_id difficulty load_band) as (st & Hst & _).
    destruct (scheduled_hyper s item_id difficulty load_band) as (He1 & Hq1 & _).
    assert (Hcond : negb force_exploit
                    && Qlt_bool (rnd_random rnd)
                         (epsilon (scheduled item_id difficulty load_band s))
                    = false).
    { destruct Hexploit as [->|Hge]; [reflexivity|].
      rewrite He1, Heps. apply andb_false_iff. right.
      apply Qlt_bool_false. exact Hge. }
    destruct (choose_action_exploit _ st item_id force_exploit rnd Hwf1
                (wf_states _ Hwf1 _ _ Hst) ltac:(rewrite Hq1; exact Hz) Hcond)
      as (a & Ha & Hcases).
    assert (Hrun : forall interval,
              list_index [30; 60; 120; 240] a = Some interval ->
              get_next_interval item_id difficulty load_band force_exploit rnd s
              = Ok interval (scheduled item_id difficulty load_band s)).
    { intros interval Hidx.
      rewrite (get_next_interval_unfold _ _ _ _ _ _ _ Hst), Ha.
      rewrite (wf_actions _ Hwf1), Hidx. reflexivity. }
    destruct Hcases as [-> | ->].
    + exists s0, 30, (scheduled item_id difficulty load_band s).
      split; [exact Hs0|]. split; [apply Hrun; reflexivity|by left].
    + exists s0, 60, (scheduled item_id difficulty load_band s).
      split; [exact Hs0|]. split; [apply Hrun; reflexivity|by right].
Qed.

Lemma exploiting_returns_30_or_60_witness :
  exists s0 interval s',
    default_scheduler = Some s0
    /\ get_next_interval 7 2 "low" true {| rnd_random := 0.05; rnd_randint := 3 |}
         (run s0 [GetNextInterval 7 2 "low" false
                    {| rnd_random := 0.05; rnd_randint := 3 |};
                  RecordResult 7 false 6.0 2 "low"])
       = Ok interval s'
    /\ (interval = 30 \/ interval = 60).
Proof.
  apply (exploiting_returns_30_or_60 0.1 0.9 0.1 3 2 2
           [GetNextInterval 7 2 "low" false
              {| rnd_random := 0.05; rnd_randint := 3 |};
            RecordResult 7 false 6.0 2 "low"]
           7 2 "low" true {| rnd_random := 0.05; rnd_randint := 3 |});
    [lia | lia | lia | repeat constructor; simpl; lia | lia | left; reflexivity].
Defined.

(** *** Statistics *)

Lemma get_item_statistics_none (s : scheduler) (item_id : Z) :
  item_sessions s !! item_id = None \/ item_sessions s !! item_id = Some [] ->
  get_item_statistics item_id s = Ok None s.
Proof.
  intros [H|H]; unfold get_item_statistics, bind, self_, ret; simpl;
    rewrite H; reflexivity.
Qed.

Lemma get_item_statistics_some (s : scheduler) (item_id : Z)
    (log : list session_data) (st : state) :
  item_sessions s !! item_id = Some log -> log <> [] ->
  item_states s !! item_id = Some st ->
  get_item_statistics item_id s
  = Ok (Some {| total_sessions := Z.of_nat (length log);
                accuracy := (inject_Z (count_correct log)
                             / inject_Z (Z.of_nat (length log)))%Q;
                avg_latency := np_mean (sd_latency_sec <$> log);
                avg_reward := np_mean (sd_reward <$> log);
                current_streak := st.1.1.2 |}) s.
Proof.
  intros Hlog Hne Hst. unfold get_item_statistics, bind, self_, ret, or_raise.
  simpl. rewrite Hlog. destruct log as [|sd log]; [congruence|].
  simpl. rewrite Hst. reflexivity.
Qed.

Lemma count_correct_bounds (log : list session_data) :
  0 <= count_correct log <= Z.of_nat (length log).
Proof.
  induction log as [|sd log IH]; simpl; [lia|].
  destruct (sd_correct sd); lia.
Qed.

Lemma ratio_bounds (c n : Z) :
  0 <= c <= n -> 0 < n ->
  (0 <= inject_Z c / inject_Z n /\ inject_Z c / inject_Z n <= 1)%Q.
Proof.
  intros Hc Hn.
  assert (Hpos : (0 < inject_Z n)%Q) by (rewrite (Zlt_Qlt 0 n) in Hn; exact Hn).
  split.
  - apply Qle_shift_div_l; [exact Hpos|]. rewrite Qmult_0_l.
    unfold Qle. simpl. lia.
  - apply Qle_shift_div_r; [exact Hpos|]. rewrite Qmult_1_l.
    unfold Qle. simpl. lia.
Qed.

(** In an object a caller can hold, the logs belong to the items with a
    state. *)
Lemma log_has_state_step (s : scheduler) (o : op) :
  wf s -> valid_op o ->
  (forall i, is_Some (item_sessions s !! i) -> is_Some (item_states s !! i)) ->
  forall i, is_Some (item_sessions (run_op s o) !! i) ->
            is_Some (item_states (run_op s o) !! i).
Proof.
  intros Hwf Ho Hinv. destruct o as [i d lb fe rnd|i c l d lb]; simpl.
  - rewrite get_next_interval_final. unfold scheduled.
    destruct (item_states s !! i) eqn:E; [exact Hinv|]. simpl.
    intros j Hj. destruct (decide (j = i)) as [->|Hne].
    + rewrite lookup_insert_eq. eauto.
    + rewrite lookup_insert_ne in Hj by congruence.
      rewrite lookup_insert_ne by congruence. auto.
  - destruct (item_states s !! i) as [st0|] eqn:Hst0.
    + destruct (record_result_known s i c l d lb st0 Hwf Hst0)
        as (row & q0 & next_row & mx & log0 & _ & _ & _ & _ & _ & ->).
      simpl. intros j Hj. destruct (decide (j = i)) as [->|Hne].
      * rewrite lookup_insert_eq. eauto.
      * rewrite lookup_insert_ne in Hj by congruence.
        rewrite lookup_insert_ne by congruence. auto.
    + rewrite record_result_unknown by exact Hst0. exact Hinv.
Qed.

Lemma history_logs lr df eps ms ml mb ops :
  0 <= ms -> 0 <= ml -> 0 <= mb -> Forall valid_op ops ->
  exists s0,
    init lr df eps ms ml mb = Some s0
    /\ wf (run s0 ops)
    /\ (log_invariant (run s0 ops)
        /\ max_streak (run s0 ops) = ms
        /\ forall i, is_Some (item_sessions (run s0 ops) !! i) ->
                     is_Some (item_states (run s0 ops) !! i)).
Proof.
  intros Hms Hml Hmb Hops.
  apply (history_invariant
           (fun s => log_invariant s /\ max_streak s = ms
                     /\ forall i, is_Some (item_sessions s !! i) ->
                                  is_Some (item_states s !! i)));
    try assumption.
  - intros s0 Hs0. destruct (init_empty _ _ _ _ _ _ _ Hs0) as [He He'].
    destruct (init_params _ _ _ _ _ _ _ Hs0) as (_ & _ & _ & Hm & _).
    split; [|split; [exact Hm|]].
    + intros j st Hj. rewrite He, lookup_empty in Hj. discriminate.
    + intros i [x Hx]. rewrite He', lookup_empty in Hx. discriminate.
  - intros s o Hwf Ho (Hinv & Hmax & Hkeys).
    split; [apply log_invariant_step; assumption|].
    destruct (run_op_hyper s o Hwf Ho) as [_ ->]. split; [exact Hmax|].
    apply log_has_state_step; assumption.
Qed.

(** X7: [get_item_statistics] never raises on an object a caller can
    hold and leaves it unchanged. It returns the empty dict exactly when
    the item has no recorded session; otherwise the dict has
    total_sessions = length of the log (at least 1), an accuracy in
    [0, 1] and, as current streak, the number of correct answers at the
    end of the log capped at [max_streak]. *)
Theorem item_statistics_sound lr df eps ms ml mb ops item_id :
  0 <= ms -> 0 <= ml -> 0 <= mb -> Forall valid_op ops ->
  exists s0,
    init lr df eps ms ml mb = Some s0
    /\ (((item_sessions (run s0 ops) !! item_id = None
          \/ item_sessions (run s0 ops) !! item_id = Some [])
         /\ get_item_statistics item_id (run s0 ops) = Ok None (run s0 ops))
        \/ exists log stats,
             item_sessions (run s0 ops) !! item_id = Some log
             /\ get_item_statistics item_id (run s0 ops)
                = Ok (Some stats) (run s0 ops)
             /\ total_sessions stats = Z.of_nat (length log)
             /\ 1 <= total_sessions stats
             /\ (0 <= accuracy stats /\ accuracy stats <= 1)%Q
             /\ current_streak stats = Z.min (trailing_correct log) ms
             /\ current_streak stats <= total_sessions stats).
Proof.
  intros Hms Hml Hmb Hops.
  destruct (history_logs lr df eps ms ml mb ops Hms Hml Hmb Hops)
    as (s0 & Hs0 & Hwf & Hinv & Hmax & Hkeys).
  exists s0. split; [exact Hs0|].
  destruct (item_sessions (run s0 ops) !! item_id) as [log|] eqn:Hlog;
    [|left; split; [by left|apply get_item_statistics_none; by left]].
  destruct log as [|sd log];
    [left; split; [by right|apply get_item_statistics_none; by right]|].
  right. destruct (Hkeys item_id ltac:(eauto)) as [st Hst].
  destruct (Hinv item_id st Hst) as (log' & b0 & Hlog' & _ & Hf & Hk & _).
  rewrite Hlog in Hlog'. injection Hlog' as <-.
  exists (sd :: log). eexists. split; [reflexivity|].
  split; [apply (get_item_statistics_some _ _ (sd :: log) st);
          [exact Hlog|discriminate|exact Hst]|].
  cbn [total_sessions accuracy current_streak].
  pose proof (count_correct_bounds (sd :: log)) as Hcount.
  pose proof (trailing_correct_nonneg (sd :: log)) as Htrail.
  assert (Hlen : 1 <= Z.of_nat (length (sd :: log))) by (simpl; lia).
  split; [reflexivity|]. split; [exact Hlen|].
  split; [apply ratio_bounds; lia|].
  rewrite Hmax in Hk. split; [exact Hk|]. lia.
Qed.

Lemma item_statistics_sound_witness :
  exists s0,
    default_scheduler = Some s0
    /\ (((item_sessions
            (run s0 [GetNextInterval 7 2 "low" false
                       {| rnd_random := 0.5; rnd_randint := 0 |};
                     RecordResult 7 true 1.5 2 "low"]) !! 7 = None
          \/ item_sessions
               (run s0 [GetNextInterval 7 2 "low" false
                          {| rnd_random := 0.5; rnd_randint := 0 |};
                        RecordResult 7 true 1.5 2 "low"]) !! 7 = Some [])
         /\ get_item_statistics 7
              (run s0 [GetNextInterval 7 2 "low" false
                         {| rnd_random := 0.5; rnd_randint := 0 |};
                       RecordResult 7 true 1.5 2 "low"])
            = Ok None
                (run s0 [GetNextInterval 7 2 "low" false
                           {| rnd_random := 0.5; rnd_randint := 0 |};
                         RecordResult 7 true 1.5 2 "low"]))
        \/ exists log stats,
             item_sessions
               (run s0 [GetNextInterval 7 2 "low" false
                          {| rnd_random := 0.5; rnd_randint := 0 |};
                        RecordResult 7 true 1.5 2 "low"]) !! 7 = Some log
             /\ get_item_statistics 7
                  (run s0 [GetNextInterval 7 2 "low" false
                             {| rnd_random := 0.5; rnd_randint := 0 |};
                           RecordResult 7 true 1.5 2 "low"])
                = Ok (Some stats)
                    (run s0 [GetNextInterval 7 2 "low" false
                               {| rnd_random := 0.5; rnd_randint := 0 |};
                             RecordResult 7 true 1.5 2 "low"])
             /\ total_sessions stats = Z.of_nat (length log)
             /\ 1 <= total_sessions stats
             /\ (0 <= accuracy stats /\ accuracy stats <= 1)%Q
             /\ current_streak stats = Z.min (trailing_correct log) 3
             /\ current_streak stats <= total_sessions stats).
Proof.
  apply (item_statistics_sound 0.1 0.9 0.1 3 2 2
           [GetNextInterval 7 2 "low" false
              {| rnd_random := 0.5; rnd_randint := 0 |};
            RecordResult 7 true 1.5 2 "low"] 7);
    [lia | lia | lia | repeat constructor; simpl; lia].
Defined.

Lemma run_no_log (ops : list op) (item_id : Z) :
  forall s,
    wf s -> Forall valid_op ops -> Forall (fun o => ~ records item_id o) ops ->
    item_sessions s !! item_id = None \/ item_sessions s !! item_id = Some [] ->
    item_sessions (run s ops) !! item_id = None
    \/ item_sessions (run s ops) !! item_id = Some [].
Proof.
  induction ops as [|o ops IH]; intros s Hwf Hops Hno Hs; simpl; [exact Hs|].
  apply Forall_cons in Hops as [Ho Hops]. apply Forall_cons in Hno as [Hno1 Hno].
  apply IH; [apply run_op_wf; assumption|exact Hops|exact Hno|].
  destruct o as [i d lb fe rnd|i c l d lb]; simpl in *.
  - rewrite get_next_interval_final. unfold scheduled.
    destruct (item_states s !! i) eqn:E; [exact Hs|]. simpl.
    destruct (decide (item_id = i)) as [->|Hne].
    + right. apply lookup_insert_eq.
    + rewrite lookup_insert_ne by congruence. exact Hs.
  - destruct (item_states s !! i) as [st0|] eqn:Hst0.
    + destruct (record_result_known s i c l d lb st0 Hwf Hst0)
        as (row & q0 & next_row & mx & log0 & _ & _ & _ & _ & _ & ->).
      simpl. rewrite lookup_insert_ne by congruence. exact Hs.
    + rewrite record_result_unknown by exact Hst0. exact Hs.
Qed.

(** X8: GET /scheduler/item_stats answers 404 for every item for which
    [record_result] was never called, whether it was never scheduled or
    scheduled any number of times, and leaves the scheduler as it was. *)
Theorem item_stats_404_without_results lr df eps ms ml mb ops item_id :
  0 <= ms -> 0 <= ml -> 0 <= mb -> Forall valid_op ops ->
  Forall (fun o => ~ records item_id o) ops ->
  exists s0,
    init lr df eps ms ml mb = Some s0
    /\ item_stats_endpoint item_id (run s0 ops) = (Resp404, run s0 ops).
Proof.
  intros Hms Hml Hmb Hops Hno.
  destruct (init_is_Some lr df eps ms ml mb Hms Hml Hmb) as [s0 Hs0].
  exists s0. split; [exact Hs0|].
  destruct (init_empty _ _ _ _ _ _ _ Hs0) as [_ He].
  assert (Hwf0 : wf s0) by (eapply init_wf; eassumption).
  unfold item_stats_endpoint. rewrite get_item_statistics_none; [reflexivity|].
  apply run_no_log; try assumption. left. rewrite He. apply lookup_empty.
Qed.

Lemma item_stats_404_without_results_witness :
  exists s0,
    default_scheduler = Some s0
    /\ item_stats_endpoint 7
         (run s0 [GetNextInterval 7 2 "low" false
                    {| rnd_random := 0.5; rnd_randint := 0 |};
                  RecordResult 8 true 1.5 2 "low";
                  GetNextInterval 7 2 "low" false
                    {| rnd_random := 0.5; rnd_randint := 0 |}])
       = (Resp404,
          run s0 [GetNextInterval 7 2 "low" false
                    {| rnd_random := 0.5; rnd_randint := 0 |};
                  RecordResult 8 true 1.5 2 "low";
                  GetNextInterval 7 2 "low" false
                    {| rnd_random := 0.5; rnd_randint := 0 |}]).
Proof.
  apply (item_stats_404_without_results 0.1 0.9 0.1 3 2 2
           [GetNextInterval 7 2 "low" false
              {| rnd_random := 0.5; rnd_randint := 0 |};
            RecordResult 8 true 1.5 2 "low";
            GetNextInterval 7 2 "low" false
              {| rnd_random := 0.5; rnd_randint := 0 |}] 7);
    [lia | lia | lia | repeat constructor; simpl; lia
    | repeat constructor; simpl; lia].
Defined.

(** X9: POST /scheduler/record_result never answers 500 on an object
    reached by calls with difficulties in {1,2,3}. For an item without a
    state it answers success with empty statistics and changes nothing;
    for an item with a state it answers success with statistics that
    count one session more than the item's log held before. *)
Theorem record_result_endpoint_answers lr df eps ms ml mb ops item_id correct
    latency_sec difficulty load_band :
  0 <= ms -> 0 <= ml -> 0 <= mb -> Forall valid_op ops ->
  exists s0 stats s',
    init lr df eps ms ml mb = Some s0
    /\ record_result_endpoint item_id correct latency_sec difficulty load_band
         (run s0 ops)
       = (Resp200 stats, s')
    /\ match item_states (run s0 ops) !! item_id with
       | None => stats = None /\ s' = run s0 ops
       | Some _ =>
           exists st log,
             stats = Some st
             /\ item_sessions (run s0 ops) !! item_id = Some log
             /\ total_sessions st = Z.of_nat (length log) + 1
       end.
Proof.
  intros Hms Hml Hmb Hops.
  destruct (history_logs lr df eps ms ml mb ops Hms Hml Hmb Hops)
    as (s0 & Hs0 & Hwf & _ & _ & Hkeys).
  exists s0. set (s := run s0 ops) in *.
  unfold record_result_endpoint, bind.
  destruct (item_states s !! item_id) as [st0|] eqn:Hst0.
  - destruct (record_result_known s item_id correct latency_sec difficulty
                load_band st0 Hwf Hst0)
      as (row & q0 & next_row & mx & log & _ & _ & _ & _ & Hlog & ->).
    erewrite (get_item_statistics_some _ item_id
                (log ++ [session_of s st0 correct latency_sec load_band]));
      [|simpl; apply lookup_insert_eq|by destruct log
       |simpl; apply lookup_insert_eq].
    eexists. eexists. split; [exact Hs0|]. split; [reflexivity|].
    eexists. exists log. split; [reflexivity|]. split; [exact Hlog|].
    cbn [total_sessions]. rewrite length_app. simpl. lia.
  - rewrite record_result_unknown by exact Hst0.
    rewrite get_item_statistics_none.
    + exists None, s. auto.
    + destruct (item_sessions s !! item_id) eqn:E; [|by left].
      destruct (Hkeys item_id ltac:(eauto)) as [st Hst]. congruence.
Qed.

Lemma record_result_endpoint_answers_witness :
  exists s0 stats s',
    default_scheduler = Some s0
    /\ record_result_endpoint 7 true 1.5 2 "low"
         (run s0 [GetNextInterval 7 2 "low" false
                    {| rnd_random := 0.5; rnd_randint := 0 |}])
       = (Resp200 stats, s')
    /\ match item_states
               (run s0 [GetNextInterval 7 2 "low" false
                          {| rnd_random := 0.5; rnd_randint := 0 |}]) !! 7 with
       | None =>
           stats = None
           /\ s' = run s0 [GetNextInterval 7 2 "low" false
                             {| rnd_random := 0.5; rnd_randint := 0 |}]
       | Some _ =>
           exists st log,
             stats = Some st
             /\ item_sessions
                  (run s0 [GetNextInterval 7 2 "low" false
                             {| rnd_random := 0.5; rnd_randint := 0 |}]) !! 7
                = Some log
             /\ total_sessions st = Z.of_nat (length log) + 1
       end.
Proof.
  apply (record_result_endpoint_answers 0.1 0.9 0.1 3 2 2
           [GetNextInterval 7 2 "low" false
              {| rnd_random := 0.5; rnd_randint := 0 |}] 7 true 1.5 2 "low");
    [lia | lia | lia | repeat constructor; simpl; lia].
Defined.

(** *** Rewards, bins and band indices *)

Ltac q_cases :=
  unfold Qlt_bool;
  repeat match goal with
         | |- context [Qle_bool ?a ?b] =>
             let E := fresh "E" in
             destruct (Qle_bool a b) eqn:E;
             [apply Qle_bool_iff in E|apply SpeechClaims.Qle_bool_false in E]
         end; simpl.

(** X10: [calculate_reward] orders the outcomes: a correct answer earns at
    least 1.0 and never less for being faster; a wrong answer earns at
    most -0.5, whatever the latency and the load band. *)
Theorem reward_orders_outcomes (lat1 lat2 lat3 : Q) (d d' : Z) (lb lb' lb'' : string) :
  (lat1 <= lat2)%Q ->
  (calculate_reward true lat2 d lb <= calculate_reward true lat1 d lb)%Q
  /\ (1.0 <= calculate_reward true lat3 d lb)%Q
  /\ (calculate_reward false lat3 d' lb' <= - 0.5)%Q
  /\ calculate_reward false lat1 d' lb' = calculate_reward false lat2 d' lb''.
Proof.
  intros Hle. unfold calculate_reward. repeat split.
  - q_cases; destruct (3 <=? d), (String.eqb lb "high"); lra.
  - q_cases; destruct (3 <=? d), (String.eqb lb "high"); lra.
  - destruct (d' =? 1); lra.
Qed.

Lemma reward_orders_outcomes_witness :
  (calculate_reward true 4.0 3 "high" <= calculate_reward true 1.5 3 "high")%Q
  /\ (1.0 <= calculate_reward true 20.0 3 "high")%Q
  /\ (calculate_reward false 20.0 1 "low" <= - 0.5)%Q
  /\ calculate_reward false 1.5 1 "low" = calculate_reward false 4.0 1 "high".
Proof.
  apply (reward_orders_outcomes 1.5 4.0 20.0 3 1 "high" "low" "high").
  discriminate.
Defined.

(** X11: the two latency discretisations differ. [get_latency_bin] of the
    cognitive backend (bounds 2 and 5, inclusive) and [latency_bin] of
    whoami_general (bounds 3 and 6, exclusive) are both monotone with
    values in 0..2; the former is never below the latter, and they differ
    exactly for latencies strictly between 2 and 3 or between 5 and 6. *)
Theorem latency_bins_compared (lat lat' : Q) :
  (lat <= lat')%Q ->
  get_latency_bin lat <= get_latency_bin lat'
  /\ WhoAmIScheduler.latency_bin lat <= WhoAmIScheduler.latency_bin lat'
  /\ 0 <= WhoAmIScheduler.latency_bin lat <= get_latency_bin lat
  /\ get_latency_bin lat <= 2
  /\ (get_latency_bin lat <> WhoAmIScheduler.latency_bin lat
      <-> ((2 < lat)%Q /\ (lat < 3)%Q) \/ ((5 < lat)%Q /\ (lat < 6)%Q)).
Proof.
  intros Hle. unfold get_latency_bin, WhoAmIScheduler.latency_bin.
  repeat split; q_cases; try lia; try (exfalso; lra);
    try (intros _; lra); try (intros [[]|[]]; lra); try (intros []; lra).
Qed.

Lemma latency_bins_compared_witness :
  get_latency_bin 2.5 <= get_latency_bin 5.5
  /\ WhoAmIScheduler.latency_bin 2.5 <= WhoAmIScheduler.latency_bin 5.5
  /\ 0 <= WhoAmIScheduler.latency_bin 2.5 <= get_latency_bin 2.5
  /\ get_latency_bin 2.5 <= 2
  /\ (get_latency_bin 2.5 <> WhoAmIScheduler.latency_bin 2.5
      <-> ((2 < 2.5)%Q /\ (2.5 < 3)%Q) \/ ((5 < 2.5)%Q /\ (2.5 < 6)%Q)).
Proof. apply (latency_bins_compared 2.5 5.5). discriminate. Defined.

(** X12: the two band encodings agree on the three labels up to the
    offset 1 ([get_load_band_index] counts from 1, [band_id] from 0) and
    part on every other label: [band_id] raises KeyError where
    [get_load_band_index] answers 2, the index of "moderate". *)
Theorem band_indices_compared (lbl : string) :
  match WhoAmIScheduler.band_id lbl with
  | Some n => get_load_band_index lbl = n + 1 /\ lbl ∈ ["low"; "moderate"; "high"]
  | None => get_load_band_index lbl = 2 /\ lbl ∉ ["low"; "moderate"; "high"]
  end.
Proof.
  unfold WhoAmIScheduler.band_id, get_load_band_index.
  destruct (String.eqb_spec lbl "low") as [->|H1];
    [split; [reflexivity|rewrite !elem_of_cons; auto]|].
  destruct (String.eqb_spec lbl "moderate") as [->|H2];
    [split; [reflexivity|rewrite !elem_of_cons; auto]|].
  destruct (String.eqb_spec lbl "high") as [->|H3];
    [split; [reflexivity|rewrite !elem_of_cons; auto]|].
  split; [reflexivity|]. rewrite !elem_of_cons, elem_of_nil. tauto.
Qed.

(** *** Difficulties outside 1..3 *)

Lemma choose_action_with_row (s : scheduler) (st : state) (row : list Q)
    item_id force_exploit rnd :
  nd_row (q_table s) (get_state_index s st) = Some row ->
  length row = 4%nat -> valid_draw rnd ->
  exists a, choose_action st item_id force_exploit rnd s = Ok a s /\ 0 <= a < 4.
Proof.
  intros Hrow Hlen Hrnd. unfold valid_draw in Hrnd.
  destruct st as [[[d k] l] b]. unfold choose_action.
  unfold bind, self_, ret, or_raise. simpl. simpl in Hrow.
  rewrite orb_false_r, andb_false_r.
  destruct (negb force_exploit && Qlt_bool (rnd_random rnd) (epsilon s)).
  - eexists. split; [reflexivity|]. destruct (3 <=? d); lia.
  - rewrite Hrow. simpl. destruct (np_argmax row) as [a0|] eqn:Ha0.
    + simpl. eexists. split; [reflexivity|].
      apply np_argmax_bounds in Ha0. destruct (3 <=? d); lia.
    + destruct row; [discriminate Hlen|discriminate Ha0].
Qed.

Lemma scheduled_new (s : scheduler) item_id difficulty load_band :
  item_states s !! item_id = None ->
  item_states (scheduled item_id difficulty load_band s) !! item_id
  = Some (difficulty, 0, 1, get_load_band_index load_band)
  /\ q_table (scheduled item_id difficulty load_band s) = q_table s
  /\ actions (scheduled item_id difficulty load_band s) = actions s
  /\ (forall st, get_state_index (scheduled item_id difficulty load_band s) st
                 = get_state_index s st).
Proof.
  intros H. unfold scheduled. rewrite H. simpl.
  split; [apply lookup_insert_eq|]. auto.
Qed.

(** X13: a difficulty of 0 does not raise. [get_state_index] turns it into
    the index -1, which NumPy counts from the end: the call reads (and
    [record_result] later writes) the row of difficulty 3, and returns one
    of the four intervals. *)
Theorem difficulty_zero_reads_hardest_row lr df eps ms ml mb ops item_id
    load_band force_exploit rnd :
  0 <= ms -> 0 <= ml -> 0 <= mb -> Forall valid_op ops ->
  Forall (fun o => ~ schedules item_id o) ops -> valid_draw rnd ->
  exists s0 interval s' row,
    init lr df eps ms ml mb = Some s0
    /\ get_next_interval item_id 0 load_band force_exploit rnd (run s0 ops)
       = Ok interval s'
    /\ interval ∈ [30; 60; 120; 240]
    /\ item_states s' !! item_id = Some (0, 0, 1, get_load_band_index load_band)
    /\ nd_row (q_table s')
         (get_state_index s' (0, 0, 1, get_load_band_index load_band))
       = Some row
    /\ nd_row (q_table s')
         (get_state_index s' (3, 0, 1, get_load_band_index load_band))
       = Some row.
Proof.
  intros Hms Hml Hmb Hops Hnew Hrnd.
  destruct (history_wf lr df eps ms ml mb ops Hms Hml Hmb Hops) as (s0 & Hs0 & Hwf).
  destruct (init_empty _ _ _ _ _ _ _ Hs0) as [He _].
  set (s := run s0 ops) in *.
  assert (Hunknown : item_states s !! item_id = None).
  { apply run_unknown; [rewrite He; apply lookup_empty|exact Hnew]. }
  destruct (scheduled_new s item_id 0 load_band Hunknown) as (Hst & Hq & Hact & Hidx).
  set (s1 := scheduled item_id 0 load_band s) in *.
  set (b := get_load_band_index load_band) in *.
  pose proof (get_load_band_index_pos load_band) as Hb. fold b in Hb.
  pose proof (wf_max_streak _ Hwf). pose proof (wf_max_latency_bin _ Hwf).
  pose proof (wf_max_load_bin _ Hwf).
  assert (Hin : (2, Z.min 0 (max_streak s), Z.min 1 (max_latency_bin s),
                 Z.min (b - 1) (max_load_bin s))
                ∈ indices (nd_shape (q_table s))).
  { rewrite (wf_shape _ Hwf). apply indices_elem. lia. }
  destruct (wf_rows _ Hwf _ Hin) as (row & Hrow & Hlen).
  assert (Hrow3 : nd_row (q_table s1) (get_state_index s1 (3, 0, 1, b)) = Some row).
  { rewrite Hq, Hidx. unfold nd_row.
    change (get_state_index s (3, 0, 1, b))
      with (2, Z.min 0 (max_streak s), Z.min 1 (max_latency_bin s),
            Z.min (b - 1) (max_load_bin s)).
    rewrite (nd_key_in_range _ _ Hin). exact Hrow. }
  assert (Hrow0 : nd_row (q_table s1) (get_state_index s1 (0, 0, 1, b)) = Some row).
  { rewrite <- Hrow3. rewrite !Hidx. unfold nd_row, nd_key. simpl.
    rewrite Hq, (wf_shape _ Hwf). reflexivity. }
  destruct (choose_action_with_row s1 (0, 0, 1, b) row item_id force_exploit rnd
              Hrow0 Hlen Hrnd) as (a & Ha & Hrange).
  destruct (action_interval a Hrange) as (interval & Hidx' & Hlook).
  exists s0, interval, s1, row. split; [exact Hs0|].
  split; [|split; [eapply list_elem_of_lookup_2; exact Hlook|auto]].
  rewrite (get_next_interval_unfold _ _ _ _ _ _ _ Hst). fold s1. rewrite Ha.
  rewrite Hact, (wf_actions _ Hwf), Hidx'. reflexivity.
Qed.

Lemma difficulty_zero_reads_hardest_row_witness :
  exists s0 interval s' row,
    default_scheduler = Some s0
    /\ get_next_interval 9 0 "low" true {| rnd_random := 0.5; rnd_randint := 0 |}
         (run s0 [GetNextInterval 7 3 "low" true
                    {| rnd_random := 0.5; rnd_randint := 0 |};
                  RecordResult 7 true 1.5 3 "low"])
       = Ok interval s'
    /\ interval ∈ [30; 60; 120; 240]
    /\ item_states s' !! 9 = Some (0, 0, 1, get_load_band_index "low")
    /\ nd_row (q_table s') (get_state_index s' (0, 0, 1, get_load_band_index "low"))
       = Some row
    /\ nd_row (q_table s') (get_state_index s' (3, 0, 1, get_load_band_index "low"))
       = Some row.
Proof.
  apply (difficulty_zero_reads_hardest_row 0.1 0.9 0.1 3 2 2
           [GetNextInterval 7 3 "low" true
              {| rnd_random := 0.5; rnd_randint := 0 |};
            RecordResult 7 true 1.5 3 "low"]
           9 "low" true {| rnd_random := 0.5; rnd_randint := 0 |});
    [lia | lia | lia | repeat constructor; simpl; lia
    | repeat constructor; simpl; lia | unfold valid_draw; simpl; lia].
Defined.

Lemma nd_key_below (t : ndarray) (n1 n2 n3 i0 i1 i2 i3 : Z) :
  nd_shape t = (3, n1, n2, n3) -> i0 < - 3 -> nd_key t (i0, i1, i2, i3) = None.
Proof.
  intros Hshape Hlt. unfold nd_key. rewrite Hshape.
  assert (E : axis_index 3 i0 = None).
  { unfold axis_index.
    destruct (Z.leb_spec 0 i0), (Z.ltb_spec i0 3), (Z.leb_spec (- (3)) i0),
      (Z.ltb_spec i0 0); simpl; try reflexivity; lia. }
  rewrite E. reflexivity.
Qed.

(** X14: a difficulty of -3 or less breaks the item for good. The
    exploiting [get_next_interval] that creates the item raises
    IndexError, but only after it has stored the state; from then on every
    exploiting [get_next_interval] and every [record_result] for the item
    raises IndexError and leaves the object as it is, whatever difficulty
    they pass. *)
Theorem difficulty_below_range_breaks_item lr df eps ms ml mb ops item_id
    difficulty load_band rnd :
  0 <= ms -> 0 <= ml -> 0 <= mb -> Forall valid_op ops ->
  Forall (fun o => ~ schedules item_id o) ops -> difficulty <= - 3 ->
  exists s0 s1,
    init lr df eps ms ml mb = Some s0
    /\ get_next_interval item_id difficulty load_band true rnd (run s0 ops)
       = Raise IndexError s1
    /\ item_states s1 !! item_id
       = Some (difficulty, 0, 1, get_load_band_index load_band)
    /\ (forall difficulty' load_band' rnd',
          get_next_interval item_id difficulty' load_band' true rnd' s1
          = Raise IndexError s1)
    /\ (forall correct latency_sec difficulty' load_band',
          record_result item_id correct latency_sec difficulty' load_band' s1
          = Raise IndexError s1).
Proof.
  intros Hms Hml Hmb Hops Hnew Hd.
  destruct (history_wf lr df eps ms ml mb ops Hms Hml Hmb Hops) as (s0 & Hs0 & Hwf).
  destruct (init_empty _ _ _ _ _ _ _ Hs0) as [He _].
  set (s := run s0 ops) in *.
  assert (Hunknown : item_states s !! item_id = None).
  { apply run_unknown; [rewrite He; apply lookup_empty|exact Hnew]. }
  destruct (scheduled_new s item_id difficulty load_band Hunknown)
    as (Hst & Hq & Hact & Hidx).
  set (s1 := scheduled item_id difficulty load_band s) in *.
  set (b := get_load_band_index load_band) in *.
  assert (Hrow : nd_row (q_table s1) (get_state_index s1 (difficulty, 0, 1, b))
                 = None).
  { rewrite Hq, Hidx. unfold nd_row. simpl.
    rewrite (nd_key_below _ _ _ _ _ _ _ _ (wf_shape _ Hwf)) by lia. reflexivity. }
  assert (Hchoose : forall rnd',
            choose_action (difficulty, 0, 1, b) item_id true rnd' s1
            = Raise IndexError s1).
  { intros rnd'. unfold choose_action, bind, self_, ret, or_raise, raise. simpl.
    simpl in Hrow. rewrite Hrow. reflexivity. }
  assert (Hknown : forall d' lb', scheduled item_id d' lb' s1 = s1).
  { intros d' lb'. unfold scheduled at 1. rewrite Hst. reflexivity. }
  exists s0, s1. split; [exact Hs0|]. split; [|split; [exact Hst|split]].
  - rewrite (get_next_interval_unfold _ _ _ _ _ _ _ Hst). fold s1.
    rewrite Hchoose. reflexivity.
  - intros d' lb' rnd'.
    rewrite (get_next_interval_unfold s1 item_id d' lb' true rnd'
               (difficulty, 0, 1, b)) by (rewrite Hknown; exact Hst).
    rewrite Hknown, Hchoose. reflexivity.
  - intros c l d' lb'. unfold record_result.
    unfold bind at 1. unfold self_ at 1. rewrite Hst.
    unfold bind at 1. unfold self_ at 1.
    unfold bind at 1.
    unfold update_q_value, nd_get, bind, self_, or_raise, raise. simpl.
    simpl in Hrow. rewrite Hrow. reflexivity.
Qed.

Lemma difficulty_below_range_breaks_item_witness :
  exists s0 s1,
    default_scheduler = Some s0
    /\ get_next_interval 9 (-3) "low" true {| rnd_random := 0.5; rnd_randint := 0 |}
         (run s0 [])
       = Raise IndexError s1
    /\ item_states s1 !! 9 = Some (-3, 0, 1, get_load_band_index "low")
    /\ (forall difficulty' load_band' rnd',
          get_next_interval 9 difficulty' load_band' true rnd' s1
          = Raise IndexError s1)
    /\ (forall correct latency_sec difficulty' load_band',
          record_result 9 correct latency_sec difficulty' load_band' s1
          = Raise IndexError s1).
Proof.
  apply (difficulty_below_range_breaks_item 0.1 0.9 0.1 3 2 2 [] 9 (-3) "low"
           {| rnd_random := 0.5; rnd_randint := 0 |});
    [lia | lia | lia | constructor | constructor | lia].
Defined.

End SchedulerMore.

(* ===================================================================== *)
(** ** More about the load model                                          *)
(* ===================================================================== *)

Module SpeechMore.
Import Py PyFacts LinAlg Inputs SpeechBatch.

Ltac q_cases :=
  unfold Qlt_bool;
  repeat match goal with
         | |- context [Qle_bool ?a ?b] =>
             let E := fresh "E" in
             destruct (Qle_bool a b) eqn:E;
             [apply Qle_bool_iff in E|apply SpeechClaims.Qle_bool_false in E]
         end; simpl.

Lemma label_cases (c1 c2 : bool) :
  (if c1 then "low" else if c2 then "moderate" else "high")
  ∈ ["low"; "moderate"; "high"].
Proof. destruct c1, c2; rewrite !elem_of_cons; auto. Qed.

(** X15: [predict_load_band] has two outcomes. With six coefficients it
    returns "low", "moderate" or "high", for every feature dict; without
    coefficients, or with another number of them, it raises ValueError. *)
Theorem predict_load_band_outcomes (m : Speech.model) (features : gmap string Q) :
  match Speech.predict_load_band m features with
  | Speech.Ok band =>
      band ∈ ["low"; "moderate"; "high"]
      /\ exists c, Speech.coefficients m = Some c /\ length c = 6%nat
  | Speech.Err e =>
      e = ValueError
      /\ (Speech.coefficients m = None
          \/ exists c, Speech.coefficients m = Some c /\ length c <> 6%nat)
  end.
Proof.
  unfold Speech.predict_load_band.
  destruct (Speech.coefficients m) as [c|]; [|auto].
  unfold vec_matmul. simpl length.
  destruct (Nat.eqb_spec 6 (length c)) as [Hlen|Hlen].
  - destruct (Qle_bool _ 1.5); [|destruct (Qle_bool _ 2.5)];
      (split; [rewrite !elem_of_cons; auto|eauto]).
  - split; [reflexivity|]. right. exists c. split; [reflexivity|congruence].
Qed.

(** X16: [predict_load_band] reads the five named features and nothing
    else: two feature dicts that agree on them get the same answer, so
    additional keys are ignored without notice. *)
Theorem predict_load_band_reads_five_features (m : Speech.model)
    (features1 features2 : gmap string Q) :
  (forall name, name ∈ Api.required_features ->
                features1 !! name = features2 !! name) ->
  Speech.predict_load_band m features1 = Speech.predict_load_band m features2.
Proof.
  intros H. unfold Speech.predict_load_band, Speech.feature_vector,
    Speech.get_feature.
  unfold Api.required_features in H.
  rewrite !(H _) by (rewrite !elem_of_cons; auto 10). reflexivity.
Qed.

Lemma predict_load_band_reads_five_features_witness :
  Speech.predict_load_band trained_model features_without_jitter
  = Speech.predict_load_band trained_model
      (<["speaker" := 1%Q]> features_without_jitter).
Proof.
  apply (predict_load_band_reads_five_features trained_model
           features_without_jitter (<["speaker" := 1%Q]> features_without_jitter)).
  intros name Hname. unfold Api.required_features in Hname.
  rewrite !elem_of_cons, elem_of_nil in Hname.
  destruct Hname as [->|[->|[->|[->|[->|[]]]]]]; vm_compute; reflexivity.
Defined.

Lemma predict_load_band_err (m : Speech.model) (features : gmap string Q)
    (e : exn) :
  Speech.predict_load_band m features = Speech.Err e ->
  e = ValueError
  /\ forall features', Speech.predict_load_band m features' = Speech.Err ValueError.
Proof.
  unfold Speech.predict_load_band.
  destruct (Speech.coefficients m) as [c|]; [|intros [= <-]; auto].
  unfold vec_matmul. simpl length.
  destruct (6 =? length c)%nat; [|intros [= <-]; auto].
  destruct (Qle_bool _ 1.5); [|destruct (Qle_bool _ 2.5)]; discriminate.
Qed.

(** X17: [predict_batch] answers one band per feature dict, each the
    answer of [predict_load_band]; on a model that cannot predict it
    raises ValueError for a list that is not empty, but returns the empty
    list for the empty list. *)
Theorem predict_batch_outcomes (m : Speech.model)
    (features_list : list (gmap string Q)) :
  match predict_batch m features_list with
  | Speech.Ok bands =>
      Forall2 (fun features band =>
                 Speech.predict_load_band m features = Speech.Ok band)
        features_list bands
      /\ length bands = length features_list
  | Speech.Err e =>
      e = ValueError /\ features_list <> []
      /\ forall features, Speech.predict_load_band m features = Speech.Err ValueError
  end.
Proof.
  induction features_list as [|f l IH]; simpl; [split; [constructor|reflexivity]|].
  destruct (Speech.predict_load_band m f) as [band|e] eqn:Ef.
  - destruct (predict_batch m l) as [bands|e'].
    + destruct IH as [IH1 IH2]. split; [constructor; assumption|simpl; congruence].
    + destruct IH as (-> & _ & Hall). split; [reflexivity|]. split; [discriminate|].
      exact Hall.
  - apply predict_load_band_err in Ef as [-> Hall].
    split; [reflexivity|]. split; [discriminate|exact Hall].
Qed.

(** *** Training *)

Lemma find_pivot_length (j : nat) (rows : list (list Q)) :
  forall p rest, find_pivot j rows = Some (p, rest) -> length rows = S (length rest).
Proof.
  induction rows as [|r rows IH]; intros p rest; simpl; [discriminate|].
  destruct (Qeq_bool _ 0).
  - destruct (find_pivot j rows) as [[p' others]|]; simpl; [|discriminate].
    intros [= <- <-]. simpl. f_equal. eapply IH. reflexivity.
  - intros [= <- <-]. reflexivity.
Qed.

Lemma eliminate_length (cols : list nat) :
  forall done todo r,
    eliminate cols done todo = Some r ->
    length r = (length done + length cols)%nat.
Proof.
  induction cols as [|j cols IH]; intros done todo r; simpl.
  - intros [= <-]. lia.
  - destruct (find_pivot j todo) as [[p rest]|]; simpl; [|discriminate].
    intros H. apply IH in H. rewrite H, length_app, length_fmap. simpl. lia.
Qed.

Lemma gauss_jordan_inv_length (a b : list (list Q)) :
  gauss_jordan_inv a = Some b -> length b = length a.
Proof.
  unfold gauss_jordan_inv.
  destruct (eliminate _ _ _) as [rows|] eqn:E; [|discriminate].
  intros [= <-]. rewrite length_fmap. apply eliminate_length in E.
  rewrite E, length_seq. reflexivity.
Qed.

Lemma reg_length (ncols : nat) (xt x : list (list Q)) (lam : Q) :
  length (mat_add (mat_mul ncols xt x)
            (mat_scale lam (eye (length (mat_mul ncols xt x))))) = length xt.
Proof.
  unfold mat_add, mat_scale, eye.
  rewrite length_zip_with, !length_fmap, length_seq, SpeechClaims.mat_mul_length.
  lia.
Qed.

(** X18: [train] on a table that is not empty and whose rows all have
    the feature columns and "cognitive_load", for a model with five
    feature names and an inverse that keeps the number of rows.
    [prepare_features] returns a design matrix with one row of six
    entries per record; [train] then either returns a model with six
    coefficients, the same lambda and feature names, on which
    [predict_load_band] returns a band for every feature dict, or it
    raises the LinAlgError of the inverse. *)
Theorem train_outcomes (linalg_inv : list (list Q) -> option (list (list Q)))
    (m : Speech.model) (df : list (gmap string Q)) :
  length (Speech.feature_names m) = 5%nat ->
  (forall a b, linalg_inv a = Some b -> length b = length a) ->
  df <> [] ->
  Forall (fun row : gmap string Q =>
            forall c, c ∈ Speech.feature_names m ++ ["cognitive_load"] ->
                      is_Some (row !! c)) df ->
  (exists x y,
     Speech.prepare_features m df = Speech.Ok (x, y)
     /\ length x = length df /\ length y = length df
     /\ Forall (fun r => length r = 6%nat) x)
  /\ match Speech.train linalg_inv m df with
     | Speech.Ok m' =>
         (exists c, Speech.coefficients m' = Some c /\ length c = 6%nat)
         /\ Speech.lambda_reg m' = Speech.lambda_reg m
         /\ Speech.feature_names m' = Speech.feature_names m
         /\ forall features,
              exists band, Speech.predict_load_band m' features = Speech.Ok band
     | Speech.Err e => e = LinAlgError
     end.
Proof.
  intros Hnames Hinv _ Hall.
  assert (Hx : is_Some (df_values df (Speech.feature_names m))).
  { unfold df_values. apply mapM_is_Some_2.
    eapply Forall_impl; [exact Hall|]. intros row Hrow. unfold compose.
    apply mapM_is_Some_2. apply Forall_forall. intros c Hc. unfold compose.
    apply Hrow. apply elem_of_app. by left. }
  assert (Hy : is_Some (df_column df "cognitive_load")).
  { unfold df_column. apply mapM_is_Some_2.
    eapply Forall_impl; [exact Hall|]. intros row Hrow. unfold compose.
    apply Hrow. apply elem_of_app. right. apply list_elem_of_singleton.
    reflexivity. }
  destruct Hx as [x Hx]. destruct Hy as [y Hy].
  unfold Speech.train, Speech.prepare_features. rewrite Hx, Hy. cbv zeta.
  split.
  - exists (column_stack (ones (length x)) x), y. split; [reflexivity|].
    rewrite SpeechClaims.column_stack_ones. unfold Spec.design_matrix.
    rewrite length_fmap. unfold df_values in Hx. unfold df_column in Hy.
    split; [symmetry; exact (length_mapM _ _ _ Hx)|].
    split; [symmetry; exact (length_mapM _ _ _ Hy)|].
    apply Forall_fmap. apply mapM_Some in Hx.
    eapply Forall2_Forall_r; [exact Hx|]. apply Forall_true.
    intros row r Hr. simpl. rewrite <- (length_mapM _ _ _ Hr), Hnames.
    reflexivity.
  - destruct (linalg_inv _) as [xtx_inv|] eqn:Einv; [|reflexivity].
    apply Hinv in Einv.
    rewrite reg_length, SpeechClaims.transpose_length, Hnames in Einv.
    assert (Hlen : length (mat_vec (mat_mul (length (column_stack (ones (length x)) x))
                                      xtx_inv
                                      (transpose (S (length (Speech.feature_names m)))
                                         (column_stack (ones (length x)) x))) y)
                   = 6%nat).
    { unfold mat_vec. rewrite length_fmap, SpeechClaims.mat_mul_length. lia. }
    split; [eexists; split; [reflexivity|exact Hlen]|].
    split; [reflexivity|]. split; [reflexivity|].
    intros features. unfold Speech.predict_load_band. simpl.
    unfold vec_matmul. simpl length. rewrite Hlen. simpl.
    destruct (Qle_bool _ 1.5); [|destruct (Qle_bool _ 2.5)]; eauto.
Qed.

Lemma train_outcomes_witness :
  (exists x y,
     Speech.prepare_features (Speech.init 0.01) one_sample = Speech.Ok (x, y)
     /\ length x = length one_sample /\ length y = length one_sample
     /\ Forall (fun r => length r = 6%nat) x)
  /\ match Speech.train gauss_jordan_inv (Speech.init 0.01) one_sample with
     | Speech.Ok m' =>
         (exists c, Speech.coefficients m' = Some c /\ length c = 6%nat)
         /\ Speech.lambda_reg m' = Speech.lambda_reg (Speech.init 0.01)
         /\ Speech.feature_names m' = Speech.feature_names (Speech.init 0.01)
         /\ forall features,
              exists band, Speech.predict_load_band m' features = Speech.Ok band
     | Speech.Err e => e = LinAlgError
     end.
Proof.
  apply (train_outcomes gauss_jordan_inv (Speech.init 0.01) one_sample);
    [reflexivity|exact gauss_jordan_inv_length|discriminate|].
  repeat constructor. intros c Hc. simpl in Hc.
  rewrite !elem_of_cons, elem_of_nil in Hc.
  destruct Hc as [->|[->|[->|[->|[->|[->|[]]]]]]]; vm_compute; eauto.
Defined.

End SpeechMore.

(* ===================================================================== *)
(** ** More about the two load classifiers and the API handler            *)
(* ===================================================================== *)

Module LoadModelMore.
Import Py PyFacts LinAlg Inputs.

Lemma np_clip_bounds (v : Q) : (0 <= np_clip v 0 5 /\ np_clip v 0 5 <= 5)%Q.
Proof. unfold np_clip. SpeechMore.q_cases; lra. Qed.

Lemma band_from_score_label (x : Q) :
  WhoAmI.band_from_score x ∈ ["low"; "moderate"; "high"].
Proof. unfold WhoAmI.band_from_score. apply SpeechMore.label_cases. Qed.

(** X19: on a raw score [yhat] the backend's [predict_load_band] and the
    whoami path (clip to [0, 5], then [band_from_score]) give the same
    band exactly when [yhat] is neither 1.5 nor strictly between 2.5 and
    3.0. *)
Theorem classifiers_agree_iff (m : Speech.model) (coeffs : list Q)
    (features : gmap string Q) (yhat : Q) :
  Speech.coefficients m = Some coeffs ->
  vec_matmul (Speech.feature_vector features) coeffs = Some yhat ->
  Speech.predict_load_band m features
  = Speech.Ok (WhoAmI.band_from_score (np_clip yhat 0 5))
  <-> ~ (yhat == 1.5)%Q /\ ~ (2.5 < yhat /\ yhat < 3.0)%Q.
Proof.
  intros Hc Hy. unfold Speech.predict_load_band. rewrite Hc, Hy.
  unfold WhoAmI.band_from_score, np_clip, Qlt_bool.
  destruct (Qle_bool 0 yhat) eqn:H0;
    [apply Qle_bool_iff in H0|apply SpeechClaims.Qle_bool_false in H0];
    (destruct (Qle_bool yhat 5) eqn:H5;
     [apply Qle_bool_iff in H5|apply SpeechClaims.Qle_bool_false in H5]);
    simpl; SpeechMore.q_cases;
    (split;
     [intros Heq;
      first [discriminate Heq
            | split; [intros ?; lra|intros [? ?]; lra]]
     |intros [H1 H2];
      first [reflexivity
            | exfalso; lra
            | exfalso; apply H1; lra
            | exfalso; apply H2; split; lra]]).
Qed.

Lemma classifiers_agree_iff_witness :
  Speech.predict_load_band trained_model features_without_jitter
  = Speech.Ok (WhoAmI.band_from_score
                 (np_clip (1.0 * 1.0 + (120.0 * 0.01 + (0.2 * 0.5
                    + (0.6 * 0.2 + (0 * 3.0 + (4.0 * 0.1 + 0)))))) 0 5))
  <-> ~ (1.0 * 1.0 + (120.0 * 0.01 + (0.2 * 0.5
           + (0.6 * 0.2 + (0 * 3.0 + (4.0 * 0.1 + 0))))) == 1.5)%Q
      /\ ~ (2.5 < 1.0 * 1.0 + (120.0 * 0.01 + (0.2 * 0.5
                    + (0.6 * 0.2 + (0 * 3.0 + (4.0 * 0.1 + 0)))))
            /\ 1.0 * 1.0 + (120.0 * 0.01 + (0.2 * 0.5
                    + (0.6 * 0.2 + (0 * 3.0 + (4.0 * 0.1 + 0))))) < 3.0)%Q.
Proof.
  apply (classifiers_agree_iff trained_model [1.0; 0.01; 0.5; 0.2; 3.0; 0.1]%Q
           features_without_jitter
           (1.0 * 1.0 + (120.0 * 0.01 + (0.2 * 0.5
              + (0.6 * 0.2 + (0 * 3.0 + (4.0 * 0.1 + 0))))))%Q);
    reflexivity.
Defined.

(** X20: the three answers of the /speech/analyze handler. 400 lists
    exactly the required features the dict lacks, whatever the state of
    the model; 200 carries the band of [predict_load_band] and is given
    only when all five features are present; 500 is a ValueError of a
    model that cannot predict, and is reached only with all five features
    present. *)
Theorem analyze_speech_outcomes (speech_model : Speech.model)
    (features : gmap string Q) :
  match Api.analyze_speech speech_model features with
  | Api.Resp400 missing =>
      missing <> []
      /\ forall f, f ∈ missing <-> f ∈ Api.required_features /\ features !! f = None
  | Api.Resp200 load_band =>
      (forall f, f ∈ Api.required_features -> is_Some (features !! f))
      /\ Speech.predict_load_band speech_model features = Speech.Ok load_band
      /\ load_band ∈ ["low"; "moderate"; "high"]
  | Api.Resp500 e =>
      (forall f, f ∈ Api.required_features -> is_Some (features !! f))
      /\ e = ValueError
      /\ forall features',
           Speech.predict_load_band speech_model features' = Speech.Err ValueError
  end.
Proof.
  unfold Api.analyze_speech.
  destruct (Api.missing_features features) as [|f0 rest] eqn:Hm.
  - assert (Hall : forall f, f ∈ Api.required_features -> is_Some (features !! f)).
    { intros f Hf. destruct (features !! f) eqn:E; [eauto|]. exfalso.
      assert (Hin : f ∈ Api.missing_features features)
        by (apply list_elem_of_filter; split; assumption).
      rewrite Hm in Hin. by apply elem_of_nil in Hin. }
    destruct (Speech.predict_load_band speech_model features) as [band|e] eqn:Ep.
    + split; [exact Hall|]. split; [reflexivity|].
      revert Ep. unfold Speech.predict_load_band.
      destruct (Speech.coefficients speech_model); [|discriminate].
      destruct (vec_matmul _ _); [|discriminate].
      destruct (Qle_bool _ 1.5); [|destruct (Qle_bool _ 2.5)];
        intros [= <-]; rewrite !elem_of_cons; auto.
    + split; [exact Hall|]. exact (SpeechMore.predict_load_band_err _ _ _ Ep).
  - split; [discriminate|]. intros f. rewrite <- Hm.
    unfold Api.missing_features. rewrite list_elem_of_filter. tauto.
Qed.

(** *** whoami_general: fit and predict *)

Lemma df_values_shape (df : list (gmap string Q)) (cols : list string) :
  forall x, df_values df cols = Some x ->
            length x = length df /\ Forall (fun r => length r = length cols) x.
Proof.
  unfold df_values. intros x Hx. split.
  - symmetry. exact (length_mapM _ _ _ Hx).
  - apply mapM_Some in Hx. eapply Forall2_Forall_r; [exact Hx|].
    apply Forall_true. intros row r Hr. symmetry. exact (length_mapM _ _ _ Hr).
Qed.

Lemma df_values_total (df : list (gmap string Q)) (cols : list string) :
  Forall (fun row : gmap string Q => forall c, c ∈ cols -> is_Some (row !! c)) df ->
  is_Some (df_values df cols).
Proof.
  intros H. unfold df_values. apply mapM_is_Some_2.
  eapply Forall_impl; [exact H|]. intros row Hrow. simpl.
  apply mapM_is_Some_2. apply Forall_forall. intros c Hc. exact (Hrow c Hc).
Qed.

(** X21: [predict] of a model with six coefficients, on a table whose
    rows all have the five feature columns, returns one score per row,
    every score lies in [0, 5], and [band_from_score] labels each of them
    "low", "moderate" or "high". *)
Theorem predict_scores_clipped (m : WhoAmI.model) (b : list Q)
    (df : list (gmap string Q)) :
  WhoAmI.beta m = Some b -> length b = 6%nat ->
  Forall (fun row : gmap string Q =>
            forall c, c ∈ WhoAmI.columns -> is_Some (row !! c)) df ->
  exists scores,
    WhoAmI.predict m df = Some scores
    /\ length scores = length df
    /\ Forall (fun v => (0 <= v /\ v <= 5)%Q) scores
    /\ WhoAmI.predicted_bands m df = Some (WhoAmI.band_from_score <$> scores)
    /\ Forall (fun band => band ∈ ["low"; "moderate"; "high"])
         (WhoAmI.band_from_score <$> scores).
Proof.
  intros Hb Hlen Hdf.
  destruct (df_values_total df WhoAmI.columns Hdf) as [x Hx].
  destruct (df_values_shape df WhoAmI.columns x Hx) as [Hn Hrows].
  assert (Hy : is_Some (mapM (fun r => vec_matmul r b)
                          (column_stack (ones (length x)) x))).
  { rewrite SpeechClaims.column_stack_ones. unfold Spec.design_matrix.
    apply mapM_is_Some_2. apply Forall_fmap.
    eapply Forall_impl; [exact Hrows|]. intros r Hr. simpl.
    unfold vec_matmul. simpl length. rewrite Hr, Hlen. simpl. eauto. }
  destruct Hy as [yhat Hy].
  assert (Hp : WhoAmI.predict m df = Some ((fun v => np_clip v 0 5) <$> yhat)).
  { unfold WhoAmI.predict. rewrite Hx. simpl. rewrite Hb. simpl.
    rewrite Hy. reflexivity. }
  exists ((fun v => np_clip v 0 5) <$> yhat).
  split; [exact Hp|]. split.
  { rewrite length_fmap. apply length_mapM in Hy. rewrite <- Hy.
    rewrite SpeechClaims.column_stack_ones. unfold Spec.design_matrix.
    rewrite length_fmap. exact Hn. }
  split.
  { apply Forall_fmap. apply Forall_true. intros v. apply np_clip_bounds. }
  split.
  { unfold WhoAmI.predicted_bands. rewrite Hp. reflexivity. }
  apply Forall_fmap. apply Forall_true. intros v. apply band_from_score_label.
Qed.

Lemma predict_scores_clipped_witness :
  exists scores,
    WhoAmI.predict constant_model [speech_row] = Some scores
    /\ length scores = length [speech_row]
    /\ Forall (fun v => (0 <= v /\ v <= 5)%Q) scores
    /\ WhoAmI.predicted_bands constant_model [speech_row]
       = Some (WhoAmI.band_from_score <$> scores)
    /\ Forall (fun band => band ∈ ["low"; "moderate"; "high"])
         (WhoAmI.band_from_score <$> scores).
Proof.
  apply (predict_scores_clipped constant_model [1.5; 0; 0; 0; 0; 0]%Q [speech_row]);
    [reflexivity|reflexivity|].
  repeat constructor. intros c Hc. unfold WhoAmI.columns in Hc.
  rewrite !elem_of_cons, elem_of_nil in Hc.
  destruct Hc as [->|[->|[->|[->|[->|[]]]]]]; vm_compute; eauto.
Defined.

(** X22: [fit] on a table that is not empty and whose rows all have the
    five feature columns and "cog_load_true", for an inverse that keeps
    the number of rows: the columns are read, one row per record, and
    [fit] fails only if the inverse of X^T X + lambda * I (with
    I[0,0] = 0) fails; otherwise it returns a model with the same lambda
    and six coefficients. *)
Theorem fit_outcomes (linalg_inv : list (list Q) -> option (list (list Q)))
    (m : WhoAmI.model) (df : list (gmap string Q)) :
  (forall a b, linalg_inv a = Some b -> length b = length a) ->
  df <> [] ->
  Forall (fun row : gmap string Q =>
            forall c, c ∈ WhoAmI.columns ++ ["cog_load_true"] ->
                      is_Some (row !! c)) df ->
  exists x y,
    df_values df WhoAmI.columns = Some x
    /\ df_column df "cog_load_true" = Some y
    /\ length x = length df /\ length y = length df
    /\ match WhoAmI.fit linalg_inv m df with
       | Some m' =>
           WhoAmI.lam m' = WhoAmI.lam m
           /\ (exists b, WhoAmI.beta m' = Some b /\ length b = 6%nat)
           /\ is_Some
                (linalg_inv
                   (mat_add
                      (mat_mul 6 (transpose 6 (column_stack (ones (length x)) x))
                         (column_stack (ones (length x)) x))
                      (mat_scale (WhoAmI.lam m) (mat_set (eye 6) 0 0 0%Q))))
       | None =>
           linalg_inv
             (mat_add
                (mat_mul 6 (transpose 6 (column_stack (ones (length x)) x))
                   (column_stack (ones (length x)) x))
                (mat_scale (WhoAmI.lam m) (mat_set (eye 6) 0 0 0%Q)))
           = None
       end.
Proof.
  intros Hinv _ Hall.
  assert (Hx : is_Some (df_values df WhoAmI.columns)).
  { apply df_values_total. eapply Forall_impl; [exact Hall|].
    intros row Hrow c Hc. apply Hrow. apply elem_of_app. by left. }
  assert (Hy : is_Some (df_column df "cog_load_true")).
  { unfold df_column. apply mapM_is_Some_2.
    eapply Forall_impl; [exact Hall|]. intros row Hrow. unfold compose.
    apply Hrow. apply elem_of_app. right. apply list_elem_of_singleton.
    reflexivity. }
  destruct Hx as [x Hx]. destruct Hy as [y Hy]. exists x, y.
  split; [exact Hx|]. split; [exact Hy|].
  split; [exact (proj1 (df_values_shape df WhoAmI.columns x Hx))|].
  split; [unfold df_column in Hy; symmetry; exact (length_mapM _ _ _ Hy)|].
  unfold WhoAmI.fit. rewrite Hx. cbn [mbind option_bind].
  rewrite Hy. cbn [mbind option_bind].
  change (S (length WhoAmI.columns)) with 6%nat.
  destruct (linalg_inv _) as [a_inv|] eqn:Einv; cbn [mbind option_bind];
    [|reflexivity].
  split; [reflexivity|]. split; [|eauto].
  eexists. split; [reflexivity|]. unfold mat_vec.
  rewrite length_fmap, SpeechClaims.mat_mul_length.
  rewrite (Hinv _ _ Einv). unfold mat_add.
  rewrite length_zip_with, SpeechClaims.mat_mul_length,
    SpeechClaims.transpose_length.
  reflexivity.
Qed.

Lemma fit_outcomes_witness :
  exists x y,
    df_values one_sample WhoAmI.columns = Some x
    /\ df_column one_sample "cog_load_true" = Some y
    /\ length x = length one_sample /\ length y = length one_sample
    /\ match WhoAmI.fit gauss_jordan_inv (WhoAmI.init 0.01) one_sample with
       | Some m' =>
           WhoAmI.lam m' = WhoAmI.lam (WhoAmI.init 0.01)
           /\ (exists b, WhoAmI.beta m' = Some b /\ length b = 6%nat)
           /\ is_Some
                (gauss_jordan_inv
                   (mat_add
                      (mat_mul 6 (transpose 6 (column_stack (ones (length x)) x))
                         (column_stack (ones (length x)) x))
                      (mat_scale (WhoAmI.lam (WhoAmI.init 0.01))
                         (mat_set (eye 6) 0 0 0%Q))))
       | None =>
           gauss_jordan_inv
             (mat_add
                (mat_mul 6 (transpose 6 (column_stack (ones (length x)) x))
                   (column_stack (ones (length x)) x))
                (mat_scale (WhoAmI.lam (WhoAmI.init 0.01))
                   (mat_set (eye 6) 0 0 0%Q)))
           = None
       end.
Proof.
  apply (fit_outcomes gauss_jordan_inv (WhoAmI.init 0.01) one_sample);
    [exact SpeechMore.gauss_jordan_inv_length|discriminate|].
  repeat constructor. intros c Hc. unfold WhoAmI.columns in Hc. simpl in Hc.
  rewrite !elem_of_cons, elem_of_nil in Hc.
  destruct Hc as [->|[->|[->|[->|[->|[->|[]]]]]]]; vm_compute; eauto.
Defined.

End LoadModelMore.

(* ===================================================================== *)
(** ** More about the scheduler of whoami_general                         *)
(* ===================================================================== *)

Module WhoAmISchedulerMore.
Import Py PyFacts QLearning QLearningFacts.

Lemma init_dense (alpha gamma eps : Q) :
  WhoAmIScheduler.dense (WhoAmIScheduler.q (WhoAmIScheduler.init alpha gamma eps)).
Proof.
  split; [reflexivity|]. intros k Hk. exists (replicate 4 0%Q).
  split; [|reflexivity].
  exact (np_zeros_lookup (3, 4, 3, 3) 4 (WhoAmIScheduler.zeros (3, 4, 3, 3) 4) k
           eq_refl Hk).
Qed.

Lemma latency_bin_range (lat : Q) : 0 <= WhoAmIScheduler.latency_bin lat < 3.
Proof.
  unfold WhoAmIScheduler.latency_bin.
  destruct (Qlt_bool lat 3); [lia|]. destruct (Qlt_bool lat 6); lia.
Qed.

Lemma dense_lookup (t : ndarray) (k : Z * Z * Z * Z) :
  WhoAmIScheduler.dense t -> k ∈ indices (3, 4, 3, 3) ->
  exists row, nd_rows t !! k = Some row /\ length row = 4%nat
              /\ nd_key t k = Some k /\ nd_row t k = Some row.
Proof.
  intros [Hs Hr] Hk. destruct (Hr k Hk) as (row & Hrow & Hlen). exists row.
  assert (Hkey : nd_key t k = Some k)
    by (apply nd_key_in_range; rewrite Hs; exact Hk).
  repeat split; try assumption. unfold nd_row. rewrite Hkey. exact Hrow.
Qed.

Lemma dense_written (t : ndarray) (k : Z * Z * Z * Z) (row : list Q) (j : nat)
    (v : Q) :
  WhoAmIScheduler.dense t -> nd_rows t !! k = Some row -> length row = 4%nat ->
  WhoAmIScheduler.dense {| nd_shape := nd_shape t;
           nd_rows := <[k := <[j := v]> row]> (nd_rows t) |}.
Proof.
  intros [Hs Hr] Hrow Hlen. split; [exact Hs|]. intros k' Hk'. simpl.
  destruct (decide (k' = k)) as [->|Hne].
  - rewrite lookup_insert_eq. eexists. split; [reflexivity|].
    rewrite length_insert. exact Hlen.
  - rewrite lookup_insert_ne by congruence. exact (Hr k' Hk').
Qed.

Lemma nd_get_dense (t : ndarray) (k : Z * Z * Z * Z) (row : list Q) (a : Z) :
  nd_shape t = (3, 4, 3, 3) -> k ∈ indices (3, 4, 3, 3) ->
  nd_rows t !! k = Some row -> length row = 4%nat -> 0 <= a < 4 ->
  nd_get t k a = row !! Z.to_nat a.
Proof.
  intros Hs Hk Hrow Hlen Ha. unfold nd_get, nd_row.
  rewrite nd_key_in_range by (rewrite Hs; exact Hk).
  cbn [mbind option_bind]. rewrite Hrow. cbn [mbind option_bind].
  apply list_index_in_range. lia.
Qed.

Lemma nd_get_written (t : ndarray) (k k' : Z * Z * Z * Z) (row : list Q)
    (a a' : Z) (v : Q) :
  WhoAmIScheduler.dense t -> k ∈ indices (3, 4, 3, 3) -> k' ∈ indices (3, 4, 3, 3) ->
  nd_rows t !! k = Some row -> length row = 4%nat ->
  0 <= a < 4 -> 0 <= a' < 4 ->
  nd_get {| nd_shape := nd_shape t;
            nd_rows := <[k := <[Z.to_nat a := v]> row]> (nd_rows t) |} k' a'
  = if decide (k' = k /\ a' = a) then Some v else nd_get t k' a'.
Proof.
  intros Hd Hk Hk' Hrow Hlen Ha Ha'.
  pose proof Hd as [Hs Hr].
  destruct (decide (k' = k)) as [->|Hne].
  - rewrite (nd_get_dense _ k (<[Z.to_nat a := v]> row) a');
      [|exact Hs|exact Hk|simpl; apply lookup_insert_eq
       |rewrite length_insert; exact Hlen|exact Ha'].
    rewrite (nd_get_dense t k row a' Hs Hk Hrow Hlen Ha').
    destruct (decide (a' = a)) as [->|Hna].
    + rewrite list_lookup_insert_eq by lia.
      destruct (decide _) as [_|Hno]; [reflexivity|]. exfalso. by apply Hno.
    + rewrite list_lookup_insert_ne by lia.
      destruct (decide _) as [[_ Heq]|_]; [contradiction|reflexivity].
  - destruct (Hr k' Hk') as (row' & Hrow' & Hlen').
    rewrite (nd_get_dense _ k' row' a');
      [|exact Hs|exact Hk'|simpl; rewrite lookup_insert_ne by congruence; exact Hrow'
       |exact Hlen'|exact Ha'].
    rewrite (nd_get_dense t k' row' a' Hs Hk' Hrow' Hlen' Ha').
    destruct (decide _) as [[Heq _]|_]; [contradiction|reflexivity].
Qed.

Lemma update_unfold (s : WhoAmIScheduler.sr_scheduler) (d st l b a : Z) (r : Q)
    (d2 s2 l2 b2 : Z) :
  WhoAmIScheduler.dense (WhoAmIScheduler.q s) ->
  (d, st, l, b) ∈ indices (3, 4, 3, 3) -> (d2, s2, l2, b2) ∈ indices (3, 4, 3, 3) ->
  0 <= a < 4 ->
  exists row row2 old best,
    nd_rows (WhoAmIScheduler.q s) !! (d, st, l, b) = Some row /\ length row = 4%nat
    /\ nd_get (WhoAmIScheduler.q s) (d, st, l, b) a = Some old
    /\ nd_row (WhoAmIScheduler.q s) (d2, s2, l2, b2) = Some row2 /\ np_max row2 = Some best
    /\ WhoAmIScheduler.update s d st l b a r d2 s2 l2 b2
       = Some {| WhoAmIScheduler.alpha := WhoAmIScheduler.alpha s;
                 WhoAmIScheduler.gamma := WhoAmIScheduler.gamma s;
                 WhoAmIScheduler.eps := WhoAmIScheduler.eps s;
                 WhoAmIScheduler.intervals := WhoAmIScheduler.intervals s;
                 WhoAmIScheduler.n_act := WhoAmIScheduler.n_act s;
                 WhoAmIScheduler.q :=
                   {| nd_shape := nd_shape (WhoAmIScheduler.q s);
                      nd_rows :=
                        <[(d, st, l, b) :=
                            <[Z.to_nat a :=
                                ((1 - WhoAmIScheduler.alpha s) * old
                                 + WhoAmIScheduler.alpha s
                                   * (r + WhoAmIScheduler.gamma s * best))%Q]> row]>
                          (nd_rows (WhoAmIScheduler.q s)) |} |}.
Proof.
  intros Hd Hk Hk2 Ha. pose proof Hd as [Hs _].
  destruct (dense_lookup _ _ Hd Hk) as (row & Hrow & Hlen & Hkey & Hnr).
  destruct (dense_lookup _ _ Hd Hk2) as (row2 & Hrow2 & Hlen2 & Hkey2 & Hnr2).
  destruct (lookup_lt_is_Some_2 row (Z.to_nat a)) as [old Hold]; [lia|].
  destruct (np_max row2) as [best|] eqn:Hbest; [|destruct row2; discriminate].
  assert (Hget : nd_get (WhoAmIScheduler.q s) (d, st, l, b) a = Some old)
    by (rewrite (nd_get_dense _ _ row a Hs Hk Hrow Hlen Ha); exact Hold).
  exists row, row2, old, best. repeat (split; [assumption|]).
  unfold WhoAmIScheduler.update. rewrite Hnr2, Hbest, Hget.
  unfold nd_set. rewrite Hkey. cbn [mbind option_bind]. rewrite Hrow.
  cbn [mbind option_bind]. rewrite Hlen.
  rewrite axis_index_in_range by lia. reflexivity.
Qed.

(** X23: on a full table and with indices in range, [update] returns and
    writes exactly the cell of the action [a] it is given: the new value
    is (1 - alpha) * old + alpha * (r + gamma * best_next), with best_next
    the largest value of the next state's row before the call; every
    other cell and the parameters are unchanged, and the table stays
    full. *)
Theorem update_writes_given_action (s : WhoAmIScheduler.sr_scheduler)
    (d st l b a : Z) (r : Q) (d2 s2 l2 b2 : Z) :
  WhoAmIScheduler.dense (WhoAmIScheduler.q s) ->
  (d, st, l, b) ∈ indices (3, 4, 3, 3) -> (d2, s2, l2, b2) ∈ indices (3, 4, 3, 3) ->
  0 <= a < 4 ->
  exists old row2 best s',
    nd_get (WhoAmIScheduler.q s) (d, st, l, b) a = Some old
    /\ nd_row (WhoAmIScheduler.q s) (d2, s2, l2, b2) = Some row2
    /\ np_max row2 = Some best
    /\ WhoAmIScheduler.update s d st l b a r d2 s2 l2 b2 = Some s'
    /\ nd_get (WhoAmIScheduler.q s') (d, st, l, b) a
       = Some ((1 - WhoAmIScheduler.alpha s) * old
               + WhoAmIScheduler.alpha s * (r + WhoAmIScheduler.gamma s * best))%Q
    /\ (forall k' a', k' ∈ indices (3, 4, 3, 3) -> 0 <= a' < 4 ->
                      ~ (k' = (d, st, l, b) /\ a' = a) ->
                      nd_get (WhoAmIScheduler.q s') k' a'
                      = nd_get (WhoAmIScheduler.q s) k' a')
    /\ WhoAmIScheduler.dense (WhoAmIScheduler.q s')
    /\ WhoAmIScheduler.alpha s' = WhoAmIScheduler.alpha s
    /\ WhoAmIScheduler.gamma s' = WhoAmIScheduler.gamma s
    /\ WhoAmIScheduler.eps s' = WhoAmIScheduler.eps s
    /\ WhoAmIScheduler.intervals s' = WhoAmIScheduler.intervals s.
Proof.
  intros Hd Hk Hk2 Ha.
  destruct (update_unfold s d st l b a r d2 s2 l2 b2 Hd Hk Hk2 Ha)
    as (row & row2 & old & best & Hrow & Hlen & Hget & Hnr2 & Hbest & Hupd).
  exists old, row2, best. eexists.
  split; [exact Hget|]. split; [exact Hnr2|]. split; [exact Hbest|].
  split; [exact Hupd|]. cbn [WhoAmIScheduler.q].
  split.
  { rewrite (nd_get_written _ _ _ row a a _ Hd Hk Hk Hrow Hlen Ha Ha).
    destruct (decide _) as [_|Hno]; [reflexivity|]. exfalso. by apply Hno. }
  split.
  { intros k' a' Hk' Ha' Hne.
    rewrite (nd_get_written _ _ _ row a a' _ Hd Hk Hk' Hrow Hlen Ha Ha').
    destruct (decide _) as [Heq|_]; [contradiction|reflexivity]. }
  split; [exact (dense_written _ _ _ _ _ Hd Hrow Hlen)|].
  repeat split.
Qed.

Lemma update_writes_given_action_witness :
  exists old row2 best s',
    nd_get (WhoAmIScheduler.q (WhoAmIScheduler.init 0.2 0.9 0.2)) (1, 0, 1, 1) 3
    = Some old
    /\ nd_row (WhoAmIScheduler.q (WhoAmIScheduler.init 0.2 0.9 0.2)) (1, 1, 0, 1)
       = Some row2
    /\ np_max row2 = Some best
    /\ WhoAmIScheduler.update (WhoAmIScheduler.init 0.2 0.9 0.2) 1 0 1 1 3 1.15
         1 1 0 1 = Some s'
    /\ nd_get (WhoAmIScheduler.q s') (1, 0, 1, 1) 3
       = Some ((1 - 0.2) * old + 0.2 * (1.15 + 0.9 * best))%Q
    /\ (forall k' a', k' ∈ indices (3, 4, 3, 3) -> 0 <= a' < 4 ->
                      ~ (k' = (1, 0, 1, 1) /\ a' = 3) ->
                      nd_get (WhoAmIScheduler.q s') k' a'
                      = nd_get (WhoAmIScheduler.q (WhoAmIScheduler.init 0.2 0.9 0.2))
                          k' a')
    /\ WhoAmIScheduler.dense (WhoAmIScheduler.q s')
    /\ WhoAmIScheduler.alpha s' = 0.2%Q
    /\ WhoAmIScheduler.gamma s' = 0.9%Q
    /\ WhoAmIScheduler.eps s' = 0.2%Q
    /\ WhoAmIScheduler.intervals s' = [30; 60; 120; 240].
Proof.
  apply (update_writes_given_action (WhoAmIScheduler.init 0.2 0.9 0.2)
           1 0 1 1 3 1.15 1 1 0 1);
    [apply init_dense|apply indices_elem; lia|apply indices_elem; lia|lia].
Defined.

(** X24: [reward] for a latency that is not negative lies between -0.3
    and 1.35; a wrong answer earns less than a correct one, however fast
    the one and slow the other; from 3.5 seconds on the latency no longer
    counts; and a slower answer never earns more. *)
Theorem reward_range_and_order (correct : bool) (latency latency' : Q) :
  (0 <= latency)%Q -> (latency <= latency')%Q ->
  (- 0.3 <= WhoAmIScheduler.reward correct latency)%Q
  /\ (WhoAmIScheduler.reward correct latency <= 1.35)%Q
  /\ (WhoAmIScheduler.reward false latency
      < WhoAmIScheduler.reward true latency')%Q
  /\ ((3.5 <= latency)%Q ->
      (WhoAmIScheduler.reward correct latency == if correct then 1 else - 0.3)%Q)
  /\ (WhoAmIScheduler.reward correct latency'
      <= WhoAmIScheduler.reward correct latency)%Q.
Proof.
  intros H0 Hle. unfold WhoAmIScheduler.reward, WhoAmIScheduler.max_zero.
  SpeechMore.q_cases; destruct correct; repeat split; intros; lra.
Qed.

Lemma reward_range_and_order_witness :
  (- 0.3 <= WhoAmIScheduler.reward true 2.0)%Q
  /\ (WhoAmIScheduler.reward true 2.0 <= 1.35)%Q
  /\ (WhoAmIScheduler.reward false 2.0 < WhoAmIScheduler.reward true 4.0)%Q
  /\ ((3.5 <= 2.0)%Q -> (WhoAmIScheduler.reward true 2.0 == 1)%Q)
  /\ (WhoAmIScheduler.reward true 4.0 <= WhoAmIScheduler.reward true 2.0)%Q.
Proof.
  apply (reward_range_and_order true 2.0 4.0); lra.
Defined.

(** X25: one learning step of the simulation, on a full table with the
    four intervals, for a difficulty and a band id in 0..2, a streak that
    is not negative and a drawn action in 0..3: the step returns, the
    action it reports is the one [choose_action] chose (the drawn one when
    exploring), the new streak is in 0..3, the table stays full, and no
    cell other than the one of the item's state and that action is
    changed. *)
Theorem learning_step_credits_chosen_action (s : WhoAmIScheduler.sr_scheduler)
    (d item_streak : Z) (item_last_latency : Q) (lbid : Z) (rnd : draw)
    (correct : bool) (lat : Q) :
  WhoAmIScheduler.dense (WhoAmIScheduler.q s) ->
  WhoAmIScheduler.intervals s = [30; 60; 120; 240] ->
  0 <= d < 3 -> 0 <= item_streak -> 0 <= lbid < 3 -> 0 <= rnd_randint rnd < 4 ->
  exists a s' st_next,
    WhoAmIScheduler.learning_step s d item_streak item_last_latency lbid rnd
      correct lat = Some (a, s', st_next)
    /\ 0 <= a < 4
    /\ WhoAmIScheduler.choose_action s d (Z.min item_streak 3)
         (WhoAmIScheduler.latency_bin item_last_latency) lbid rnd = Some a
    /\ (Qlt_bool (rnd_random rnd) (WhoAmIScheduler.eps s) = true ->
        a = rnd_randint rnd)
    /\ st_next = (if correct then Z.min (Z.min item_streak 3 + 1) 3 else 0)
    /\ 0 <= st_next <= 3
    /\ WhoAmIScheduler.dense (WhoAmIScheduler.q s')
    /\ WhoAmIScheduler.intervals s' = WhoAmIScheduler.intervals s
    /\ WhoAmIScheduler.eps s' = WhoAmIScheduler.eps s
    /\ forall k' a', k' ∈ indices (3, 4, 3, 3) -> 0 <= a' < 4 ->
          ~ (k' = (d, Z.min item_streak 3,
                   WhoAmIScheduler.latency_bin item_last_latency, lbid)
             /\ a' = a) ->
          nd_get (WhoAmIScheduler.q s') k' a' = nd_get (WhoAmIScheduler.q s) k' a'.
Proof.
  intros Hd Hint Hdr Hst Hlb Hrnd.
  pose proof (latency_bin_range item_last_latency) as Hl1.
  pose proof (latency_bin_range lat) as Hl2.
  set (st := Z.min item_streak 3).
  set (l := WhoAmIScheduler.latency_bin item_last_latency) in *.
  set (st_next := if correct then Z.min (st + 1) 3 else 0).
  assert (Hstr : 0 <= st <= 3) by (unfold st; lia).
  assert (Hnext : 0 <= st_next <= 3) by (unfold st_next; destruct correct; lia).
  assert (Hk : (d, st, l, lbid) ∈ indices (3, 4, 3, 3)) by (apply indices_elem; lia).
  assert (Hk2 : (d, st_next, WhoAmIScheduler.latency_bin lat, lbid)
                ∈ indices (3, 4, 3, 3)) by (apply indices_elem; lia).
  assert (Hch : exists a, WhoAmIScheduler.choose_action s d st l lbid rnd = Some a
                          /\ 0 <= a < 4
                          /\ (Qlt_bool (rnd_random rnd) (WhoAmIScheduler.eps s) = true
                              -> a = rnd_randint rnd)).
  { unfold WhoAmIScheduler.choose_action.
    destruct (Qlt_bool (rnd_random rnd) (WhoAmIScheduler.eps s)).
    - exists (rnd_randint rnd). auto.
    - destruct (dense_lookup _ _ Hd Hk) as (row & _ & Hlen & _ & Hnr).
      rewrite Hnr. destruct (np_argmax row) as [a|] eqn:Ea;
        [|destruct row; discriminate].
      exists a. split; [reflexivity|]. split; [|discriminate].
      apply np_argmax_bounds in Ea. lia. }
  destruct Hch as (a & Hch & Ha & Hexp).
  destruct (update_unfold s d st l lbid a (WhoAmIScheduler.reward correct lat)
              d st_next (WhoAmIScheduler.latency_bin lat) lbid Hd Hk Hk2 Ha)
    as (row & row2 & old & best & Hrow & Hlen & Hget & Hnr2 & Hbest & Hupd).
  exists a. eexists. exists st_next.
  split.
  { unfold WhoAmIScheduler.learning_step. fold st. fold l. rewrite Hch.
    rewrite list_index_in_range by (rewrite Hint; simpl; lia).
    destruct (lookup_lt_is_Some_2 (WhoAmIScheduler.intervals s) (Z.to_nat a))
      as [interval Hi]; [rewrite Hint; simpl; lia|].
    rewrite Hi. fold st_next. rewrite Hupd. reflexivity. }
  split; [exact Ha|]. split; [exact Hch|]. split; [exact Hexp|].
  split; [reflexivity|]. split; [exact Hnext|]. cbn [WhoAmIScheduler.q].
  split; [exact (dense_written _ _ _ _ _ Hd Hrow Hlen)|].
  split; [reflexivity|]. split; [reflexivity|].
  intros k' a' Hk' Ha' Hne.
  rewrite (nd_get_written _ _ _ row a a' _ Hd Hk Hk' Hrow Hlen Ha Ha').
  destruct (decide _) as [Heq|_]; [contradiction|reflexivity].
Qed.

Lemma learning_step_credits_chosen_action_witness :
  exists a s' st_next,
    WhoAmIScheduler.learning_step (WhoAmIScheduler.init 0.2 0.9 0.2) 1 0 4.0 1
      {| rnd_random := 0.1; rnd_randint := 3 |} true 2.0 = Some (a, s', st_next)
    /\ 0 <= a < 4
    /\ WhoAmIScheduler.choose_action (WhoAmIScheduler.init 0.2 0.9 0.2) 1
         (Z.min 0 3) (WhoAmIScheduler.latency_bin 4.0) 1
         {| rnd_random := 0.1; rnd_randint := 3 |} = Some a
    /\ (Qlt_bool 0.1 0.2 = true -> a = 3)
    /\ st_next = Z.min (Z.min 0 3 + 1) 3
    /\ 0 <= st_next <= 3
    /\ WhoAmIScheduler.dense (WhoAmIScheduler.q s')
    /\ WhoAmIScheduler.intervals s' = [30; 60; 120; 240]
    /\ WhoAmIScheduler.eps s' = 0.2%Q
    /\ forall k' a', k' ∈ indices (3, 4, 3, 3) -> 0 <= a' < 4 ->
          ~ (k' = (1, Z.min 0 3, WhoAmIScheduler.latency_bin 4.0, 1) /\ a' = a) ->
          nd_get (WhoAmIScheduler.q s') k' a'
          = nd_get (WhoAmIScheduler.q (WhoAmIScheduler.init 0.2 0.9 0.2)) k' a'.
Proof.
  apply (learning_step_credits_chosen_action (WhoAmIScheduler.init 0.2 0.9 0.2)
           1 0 4.0 1 {| rnd_random := 0.1; rnd_randint := 3 |} true 2.0);
    [apply init_dense|reflexivity|lia|lia|lia|simpl; lia].
Defined.

End WhoAmISchedulerMore.
